(** * Anime character image collector: acquisition and normalisation pipeline

    A shallow embedding of the TypeScript sources and the properties of the
    pipeline that the specification states about them:

    - [Config]    : [KeywordUtils] of [config.ts] (weighted keyword
                    distribution, configuration validation) and the call made
                    by [AnimeImageCollectorApp.run];
    - [Scraper]   : relevance scoring and the search loop of
                    [AdvancedImageScraper];
    - [Processor] : [AdvancedImageProcessor] (smart resize, JPEG quality
                    search, [processImage]);
    - [Database]  : the [images] table and the insert operations of
                    [AdvancedDatabaseManager.ts] and
                    [DatabaseManagerSimple.ts];
    - [Keywords]  : the rest of [KeywordUtils] and the keyword loops of
                    [AnimeImageCollectorApp];
    - [Download]  : file names and [batchDownload] of
                    [AdvancedImageScraper];
    - [Batch]     : file names, [processBatch] and the quality metrics of
                    [AdvancedImageProcessor];
    - [AdvancedDatabaseManager], [AdvancedMain] : status updates,
                    statistics, and the records saved by [advanced-main.ts];
    - [ImageValidator] : [ImageValidator.ts].

    Conventions.  A JavaScript [number] that carries a weight, a score or a
    scale factor is an exact rational ([Q]); IEEE-754 rounding is not
    modelled.  A [number] that the code only uses as an integer (pixel
    sizes, byte counts, JPEG qualities, row ids) is a [Z], a count that
    bounds a loop is a [nat].  Strings are [string]s of 8-bit characters;
    [toLowerCase] maps A-Z to a-z and leaves every other character alone.
    A call that may throw returns an [outcome]. *)

From Stdlib Require Import ZArith QArith Qround List String Ascii Bool Lia Lqa.
From Stdlib Require Import DecimalString DecimalNat Permutation.
From Equations Require Import Equations.
Import ListNotations.

Set Implicit Arguments.

(* ===================================================================== *)
(** ** JavaScript primitives used by the sources                          *)
(* ===================================================================== *)

Module Js.
Open Scope Q_scope.

(** The error objects that travel through [throw]/[catch].  [isError]
    records whether [e instanceof Error] holds. *)
Record Error : Type := mkError { isError : bool; message : string }.

(** Result of a call that either returns or throws. *)
Inductive outcome (A : Type) : Type :=
| Returned (a : A)
| Threw (e : Error).
Arguments Returned {A} a.
Arguments Threw {A} e.

Definition bind {A B} (m : outcome A) (k : A -> outcome B) : outcome B :=
  match m with
  | Returned a => k a
  | Threw e => Threw e
  end.

Definition threw {A} (m : outcome A) : bool :=
  match m with Returned _ => false | Threw _ => true end.

(** [Math.floor] and [Math.round] (halves round towards +infinity). *)
Definition Math_floor (x : Q) : Z := Qfloor x.
Definition Math_round (x : Q) : Z := Qfloor (x + (1 # 2)).

Definition Math_max (x y : Q) : Q := if Qle_bool x y then y else x.
Definition Math_min (x y : Q) : Q := if Qle_bool x y then x else y.

(** [Math.round((a + b) / 2)] on integers. *)
Definition round_half_sum (a b : Z) : Z :=
  Math_round (inject_Z (a + b) / 2).

(** On integers it is the midpoint rounded up, which lies between them. *)
Lemma round_half_sum_div (a b : Z) : round_half_sum a b = ((a + b + 1) / 2)%Z.
Proof.
  unfold round_half_sum, Math_round.
  rewrite (Qfloor_comp (inject_Z (a + b) / 2 + (1 # 2)) ((a + b + 1) # 2)).
  - reflexivity.
  - unfold Qeq, Qdiv, Qplus, Qmult, Qinv, inject_Z. simpl. lia.
Qed.

Lemma round_half_sum_bounds (a b : Z) :
  (a <= b -> a <= round_half_sum a b <= b)%Z.
Proof.
  intros H. rewrite round_half_sum_div. Z.div_mod_to_equations. lia.
Qed.

(** [String.prototype.startsWith] and [String.prototype.includes]. *)
Fixpoint startsWith (s p : string) : bool :=
  match p with
  | EmptyString => true
  | String c p' =>
      match s with
      | EmptyString => false
      | String d s' => if Ascii.eqb c d then startsWith s' p' else false
      end
  end.

Fixpoint includes (s p : string) : bool :=
  if startsWith s p then true
  else match s with
       | EmptyString => false
       | String _ s' => includes s' p
       end.

Definition lower_char (c : ascii) : ascii :=
  let n := nat_of_ascii c in
  if (Nat.leb 65 n && Nat.leb n 90)%bool then ascii_of_nat (n + 32) else c.

Fixpoint toLowerCase (s : string) : string :=
  match s with
  | EmptyString => EmptyString
  | String c s' => String (lower_char c) (toLowerCase s')
  end.

(** [s.split(' ')[0]]: the part of [s] before its first space. *)
Fixpoint first_word (s : string) : string :=
  match s with
  | EmptyString => EmptyString
  | String c s' =>
      if Ascii.eqb c " "%char then EmptyString else String c (first_word s')
  end.

(** The double-quote character, for messages that embed one. *)
Definition dquote : string := String (ascii_of_nat 34) EmptyString.

(** [xs.join(sep)] on an array of strings. *)
Fixpoint join (sep : string) (xs : list string) : string :=
  match xs with
  | [] => EmptyString
  | [x] => x
  | x :: rest => (x ++ sep ++ join sep rest)%string
  end.

(** [xs.some(p)] *)
Definition some {A} (p : A -> bool) (xs : list A) : bool := existsb p xs.

End Js.

(* ===================================================================== *)
(** ** config.ts: keyword categories and [KeywordUtils]                   *)
(* ===================================================================== *)

Module Config.
Import Js.
Open Scope Q_scope.

Record KeywordEntry : Type := mkKeywordEntry {
  primary : string;
  variations : list string;
  expectedResults : Z;
  ke_category : string
}.

Record KeywordCategory : Type := mkKeywordCategory {
  name : string;
  description : string;
  weight : Q;
  keywords : list KeywordEntry
}.

Record Range : Type := mkRange { min : Z; max : Z }.

Record ImageProcessing : Type := mkImageProcessing {
  maxWidth : Z;
  maxHeight : Z;
  quality : Range;
  maxFileSize : Z
}.

(** The parts of [AppConfig] read by the functions below (the scraping
    and path settings play no role in them). *)
Record AppConfig : Type := mkAppConfig {
  targetImageCount : Range;
  imageProcessing : ImageProcessing;
  keywordCategories : list KeywordCategory
}.

(** An element of the array returned by
    [getWeightedKeywordDistribution]. *)
Record Allocation : Type := mkAllocation {
  keyword : KeywordEntry;
  targetCount : Z;
  category : string
}.

(** [config.keywordCategories.reduce((sum, cat) => sum + cat.weight, 0)] *)
Definition totalWeight (config : AppConfig) : Q :=
  fold_left (fun sum cat => sum + weight cat) (keywordCategories config) 0.

(** [KeywordUtils.getWeightedKeywordDistribution].  For a category
    without keywords the source divides by zero; the value is then never
    pushed, and the same holds here. *)
Definition getWeightedKeywordDistribution
    (targetTotal : Q) (config : AppConfig) : list Allocation :=
  let totalWeight := totalWeight config in
  flat_map
    (fun category =>
       let categoryTarget :=
         Math_floor ((targetTotal * weight category) / totalWeight) in
       let keywordTarget :=
         Math_floor (inject_Z categoryTarget
                     / inject_Z (Z.of_nat (List.length (keywords category)))) in
       map (fun keyword =>
              {| keyword := keyword;
                 targetCount := keywordTarget;
                 category := name category |})
           (keywords category))
    (keywordCategories config).



(** Sum of the per-keyword targets of a distribution. *)
Definition totalAllocated (d : list Allocation) : Z :=
  fold_right (fun a acc => (targetCount a + acc)%Z) 0%Z d.

End Config.

(* ===================================================================== *)
(** ** AdvancedImageScraper: relevance scoring and the search loop        *)
(* ===================================================================== *)

Module Scraper.
Import Js.
Open Scope Q_scope.

(** [CharacterKeyword] of [advanced-config.ts]. *)
Module CharacterKeyword.
Record t : Type := mk {
  keyword : string;
  category : string;
  subcategory : string;
  targetCount : nat;
  relevanceScore : Q
}.
End CharacterKeyword.
Abbreviation CharacterKeyword := CharacterKeyword.t.

Record EnhancedImageData : Type := mkEnhancedImageData {
  url : string;
  altText : string;
  keyword : string;
  category : string;
  subcategory : string;
  relevanceScore : Q;
  width : option Z;
  height : option Z;
  fileSize : option Z
}.

(** [img.relevanceScore = s; return img] *)
Definition set_relevanceScore (img : EnhancedImageData) (s : Q)
    : EnhancedImageData :=
  {| url := url img; altText := altText img; keyword := keyword img;
     category := category img; subcategory := subcategory img;
     relevanceScore := s;
     width := width img; height := height img; fileSize := fileSize img |}.

(** The fields of [AdvancedScrapingConfig] read by the search. *)
Record AdvancedScrapingConfig : Type := mkAdvancedScrapingConfig {
  maxImages : Z;
  maxScrolls : Z;
  relevanceThreshold : Q
}.

Definition clothingOnlyKeywords : list string :=
  [ "outfit only"; "clothing only"; "costume only"; "dress only";
    "uniform only"; "outfit without"; "clothing without";
    "just outfit"; "just clothing"; "just costume";
    "empty outfit"; "empty costume"; "empty dress";
    "outfit design"; "clothing design"; "costume design";
    "pattern"; "texture"; "fabric";
    "mannequin"; "hanger"; "display" ]%string.

Definition urlClothingKeywords : list string :=
  [ "outfit-only"; "clothing-only"; "costume-only";
    "pattern"; "texture"; "design-only";
    "mannequin"; "display" ]%string.

(** [isClothingOnlyImage]: the two loops return [true] at the first
    match, the alt-text list first. *)
Definition isClothingOnlyImage (altText url : string) : bool :=
  existsb (fun keyword => includes altText keyword) clothingOnlyKeywords
  || existsb (fun keyword => includes url keyword) urlClothingKeywords.

Definition characterKeywords : list string :=
  [ "girl"; "boy"; "woman"; "man"; "character";
    "person"; "people"; "human"; "figure";
    "face"; "portrait"; "body"; "full body";
    "standing"; "sitting"; "pose"; "posing";
    "smile"; "smiling"; "expression";
    "hair"; "eyes"; "skin";
    "anime girl"; "anime boy"; "anime character";
    "manga character"; "waifu"; "husbando" ]%string.

Definition urlCharacterKeywords : list string :=
  [ "character"; "girl"; "boy"; "anime-girl"; "anime-boy";
    "person"; "people"; "human"; "figure";
    "portrait"; "face" ]%string.

Definition hasCharacterIndicators (altText url : string) : bool :=
  existsb (fun keyword => includes altText keyword) characterKeywords
  || existsb (fun keyword => includes url keyword) urlCharacterKeywords.

(** [img.width && img.height]: both present and non-zero. *)
Definition dimensions (img : EnhancedImageData) : option (Z * Z) :=
  match width img, height img with
  | Some w, Some h =>
      if ((w =? 0) || (h =? 0))%Z then None else Some (w, h)
  | _, _ => None
  end.

(** The score computed by the inclusion pass of the [map] callback of
    [filterRelevantImages], before the cap. *)
Definition inclusionScore (keywordData : CharacterKeyword)
    (img : EnhancedImageData) : Q :=
  let score := CharacterKeyword.relevanceScore keywordData in
  let altLower := toLowerCase (altText img) in
  let keywordLower := toLowerCase (CharacterKeyword.keyword keywordData) in
  let imgUrlLower := toLowerCase (url img) in
  let score :=
    if hasCharacterIndicators altLower imgUrlLower then score + 0.15
    else score in
  let score :=
    if includes altLower (first_word keywordLower) then score + 0.1
    else score in
  let score := if includes altLower "anime" then score + 0.05 else score in
  let score :=
    if includes altLower "character" then score + 0.05 else score in
  let score :=
    if includes altLower (CharacterKeyword.category keywordData)
    then score + 0.05 else score in
  let score :=
    if includes altLower (CharacterKeyword.subcategory keywordData)
    then score + 0.05 else score in
  let score :=
    match dimensions img with
    | Some (w, h) =>
        let aspectRatio := inject_Z w / inject_Z h in
        let score :=
          if Qle_bool 0.7 aspectRatio && Qle_bool aspectRatio 1.5
          then score + 0.05 else score in
        if ((300 <=? w) && (w <=? 800))%Z then score + 0.05 else score
    | None => score
    end in
  let score := if includes imgUrlLower "anime" then score + 0.05 else score in
  let score :=
    if includes imgUrlLower "character" then score + 0.03 else score in
  score.

(** The [map] callback of [filterRelevantImages]: exclusion pass, then
    inclusion pass, then the cap. *)
Definition scoreImage (keywordData : CharacterKeyword)
    (img : EnhancedImageData) : EnhancedImageData :=
  let altLower := toLowerCase (altText img) in
  let imgUrlLower := toLowerCase (url img) in
  if isClothingOnlyImage altLower imgUrlLower
  then set_relevanceScore img 0
  else set_relevanceScore img (Math_min (inclusionScore keywordData img) 1).

Section Search.
Variable config : AdvancedScrapingConfig.

Definition filterRelevantImages (images : list EnhancedImageData)
    (keywordData : CharacterKeyword) : list EnhancedImageData :=
  filter (fun img => Qle_bool (relevanceThreshold config) (relevanceScore img))
         (map (scoreImage keywordData) images).

(** What the browser does during one call of [searchImages]:
    [None] stands for a step that completes, [Some e] for one that
    throws [e].  [waitForImages] and [clickShowMoreIfAvailable] catch
    their own errors and do not appear. *)
Record PageRun : Type := mkPageRun {
  newPage : option Error;
  navigate : option Error;
  extractImageData : nat -> outcome (list EnhancedImageData);
  scrollAndWait : nat -> option Error;
  close : option Error
}.

(** The [for] loop that adds the new unique images. *)
Definition addUnique (targetCount : nat)
    (images relevantImages : list EnhancedImageData)
    : list EnhancedImageData :=
  fold_left
    (fun images img =>
       if negb (some (fun existing => String.eqb (url existing) (url img))
                     images)
          && (List.length images <? targetCount)%nat
       then images ++ [img]
       else images)
    relevantImages images.

(** The [while] loop; [remaining] is [maxScrolls - scrollCount]. *)
Fixpoint scrollLoop (run : PageRun) (keywordData : CharacterKeyword)
    (remaining scrollCount : nat) (images : list EnhancedImageData)
    : outcome (list EnhancedImageData) :=
  match remaining with
  | O => Returned images
  | S remaining' =>
      if (List.length images <? CharacterKeyword.targetCount keywordData)%nat
      then
        match extractImageData run scrollCount with
        | Threw e => Threw e
        | Returned newImages =>
            let relevantImages :=
              filterRelevantImages newImages keywordData in
            let images :=
              addUnique (CharacterKeyword.targetCount keywordData)
                        images relevantImages in
            match scrollAndWait run scrollCount with
            | Some e => Threw e
            | None =>
                scrollLoop run keywordData remaining' (S scrollCount) images
            end
        end
      else Returned images
  end.

(** The body of the [try] block. *)
Definition searchBody (run : PageRun) (keywordData : CharacterKeyword)
    : outcome (list EnhancedImageData) :=
  match navigate run with
  | Some e => Threw e
  | None =>
      let maxScrolls :=
        Z.min (maxScrolls config)
              ((Z.of_nat (CharacterKeyword.targetCount keywordData) + 19)
               / 20) in
      scrollLoop run keywordData (Z.to_nat maxScrolls) 0 []
  end.

(** [searchImages]: the guard and [newPage] sit before the [try];
    the [catch] returns the empty list; [finally] closes the page. *)
Definition searchImages (browser : option unit) (run : PageRun)
    (keywordData : CharacterKeyword) : outcome (list EnhancedImageData) :=
  match browser with
  | None => Threw (mkError true "Browser not initialized")
  | Some _ =>
      match newPage run with
      | Some e => Threw e
      | None =>
          let result :=
            match searchBody run keywordData with
            | Returned images => Returned images
            | Threw _ => Returned []
            end in
          match close run with
          | Some e => Threw e
          | None => result
          end
      end
  end.
End Search.

End Scraper.

(* ===================================================================== *)
(** ** AdvancedImageProcessor: resize, quality search, [processImage]     *)
(* ===================================================================== *)

Module Processor.
Import Js.
Open Scope Z_scope.

Definition Buffer : Type := list Byte.byte.

(** [buffer.length] *)
Definition byteLength (b : Buffer) : Z := Z.of_nat (List.length b).

Record QualityRange : Type := mkQualityRange { min : Z; max : Z }.

Record ProcessingOptions : Type := mkProcessingOptions {
  targetWidth : Z;
  targetHeight : Z;
  jpegQuality : QualityRange;
  maxFileSize : Z;
  preserveAspectRatio : bool;
  enableSharpening : bool;
  enableNoiseReduction : bool
}.

Record ProcessedImageInfo : Type := mkProcessedImageInfo {
  originalPath : string;
  processedPath : string;
  originalSize : Z;
  processedSize : Z;
  width : Z;
  height : Z;
  format : string;
  quality : Z;
  processingTime : Z
}.

(** [Sharp.Metadata]: both dimensions are optional. *)
Module Metadata.
Record t : Type := mk { width : option Z; height : option Z }.
End Metadata.

Inductive Fit : Type := cover | fill.

(** The operations queued on a Sharp pipeline. *)
Inductive Operation : Type :=
| rotate
| toColorspace (space : string)
| resize (width height : Z) (fit : Fit)
| extract (left top width height : Z)
| median (size : Z)
| blur (sigma : Q)
| sharpen (sigma flat jagged : Q).

Record Pipeline : Type := mkPipeline {
  input : string;
  operations : list Operation
}.

Definition queue (pipeline : Pipeline) (op : Operation) : Pipeline :=
  {| input := input pipeline; operations := operations pipeline ++ [op] |}.

(** The options object passed to [pipeline.jpeg]. *)
Module Jpeg.
Record t : Type := mk {
  quality : Z;
  progressive : bool;
  mozjpeg : bool;
  optimiseScans : option bool;
  quantisationTable : option Z
}.
End Jpeg.

(** Options of an encode attempt inside the search loop. *)
Definition searchOptions (currentQuality : Z) : Jpeg.t :=
  Jpeg.mk currentQuality true true (Some true) (Some 3).

(** Options of the encode at the lowest quality after the loop. *)
Definition fallbackOptions (min : Z) : Jpeg.t :=
  Jpeg.mk min true true None None.

(** What the logger receives from [optimizeJpegQuality]. *)
Inductive Warning : Type :=
| EncodeFailed (quality : Z) (e : Error)
| StillTooLarge (bytes maxSize : Z).

Definition FileSystem : Type := string -> option Buffer.

Definition writeFile (fs : FileSystem) (path : string) (data : Buffer)
  : FileSystem :=
  fun p => if String.eqb p path then Some data else fs p.

(** [fs.statSync(path).size] *)
Definition statSize (fs : FileSystem) (path : string) : outcome Z :=
  match fs path with
  | Some data => Returned (byteLength data)
  | None => Threw (mkError true "ENOENT: no such file or directory")
  end.

Section Processor.
(** The Sharp library: reading the metadata of a file and encoding a
    pipeline to a JPEG buffer, both of which may throw. *)
Variable metadata : string -> outcome Metadata.t.
Variable toBuffer : Pipeline -> Jpeg.t -> outcome Buffer.
(** Success or failure of [fs.promises.writeFile] on a path. *)
Variable writeError : string -> option Error.
Variable options : ProcessingOptions.

(** [applySmartResize] *)
Definition applySmartResize (pipeline : Pipeline) (md : Metadata.t)
  : outcome Pipeline :=
  let width := match Metadata.width md with Some w => w | None => 0 end in
  let height := match Metadata.height md with Some h => h | None => 0 end in
  if (width =? 0) || (height =? 0)
  then Threw (mkError true "Invalid image dimensions")
  else
    let targetWidth := targetWidth options in
    let targetHeight := targetHeight options in
    let scaleX := (inject_Z targetWidth / inject_Z width)%Q in
    let scaleY := (inject_Z targetHeight / inject_Z height)%Q in
    if preserveAspectRatio options then
      let scale := Math_max scaleX scaleY in
      let newWidth := Math_round (inject_Z width * scale)%Q in
      let newHeight := Math_round (inject_Z height * scale)%Q in
      Returned
        (queue
           (queue pipeline (resize newWidth newHeight cover))
           (extract
              (Z.max 0 (Math_round (inject_Z (newWidth - targetWidth) / 2)%Q))
              (Z.max 0 (Math_round (inject_Z (newHeight - targetHeight) / 2)%Q))
              targetWidth targetHeight))
    else Returned (queue pipeline (resize targetWidth targetHeight fill)).

Definition applyNoiseReduction (pipeline : Pipeline) : Pipeline :=
  queue (queue pipeline (median 2)) (blur 0.3).

Definition applySharpening (pipeline : Pipeline) : Pipeline :=
  queue pipeline (sharpen 1 1 2).

(** State of the binary search: [bestBuffer], [bestQuality] and the
    warnings logged so far. *)
Record SearchState : Type := mkSearchState {
  bestBuffer : option Buffer;
  bestQuality : Z;
  warnings : list Warning
}.

(** The [while (lowQuality <= highQuality)] loop of
    [optimizeJpegQuality].  An encoder failure is logged and treated like
    a buffer that is too large. *)
Equations? qualitySearch (pipeline : Pipeline) (lowQuality highQuality : Z)
    (st : SearchState) : SearchState
  by wf (Z.to_nat (highQuality - lowQuality + 1)) lt :=
  qualitySearch pipeline lowQuality highQuality st
    with Z_le_gt_dec lowQuality highQuality := {
    | right _ => st
    | left Hle
        with toBuffer pipeline
               (searchOptions (round_half_sum lowQuality highQuality)) := {
        | Returned buffer
            with byteLength buffer <=? maxFileSize options := {
            | true =>
                qualitySearch pipeline
                  (round_half_sum lowQuality highQuality + 1) highQuality
                  {| bestBuffer := Some buffer;
                     bestQuality := round_half_sum lowQuality highQuality;
                     warnings := warnings st |}
            | false =>
                qualitySearch pipeline
                  lowQuality (round_half_sum lowQuality highQuality - 1) st }
        | Threw error =>
            qualitySearch pipeline
              lowQuality (round_half_sum lowQuality highQuality - 1)
              {| bestBuffer := bestBuffer st;
                 bestQuality := bestQuality st;
                 warnings :=
                   warnings st
                   ++ [EncodeFailed (round_half_sum lowQuality highQuality)
                                    error] |} } }.
Proof.
  all: pose proof (round_half_sum_bounds Hle); lia.
Qed.

(** The final check: it only logs. *)
Definition finalCheck (buffer : Buffer) : list Warning :=
  if byteLength buffer >? maxFileSize options
  then [StillTooLarge (byteLength buffer) (maxFileSize options)]
  else [].

(** [optimizeJpegQuality]: the warnings it logs and what it returns. *)
Definition optimizeJpegQuality (pipeline : Pipeline)
  : list Warning * outcome (Buffer * Z) :=
  let min := min (jpegQuality options) in
  let max := max (jpegQuality options) in
  let st :=
    qualitySearch pipeline min max
      {| bestBuffer := None; bestQuality := max; warnings := [] |} in
  match bestBuffer st with
  | Some bestBuffer =>
      (warnings st ++ finalCheck bestBuffer,
       Returned (bestBuffer, bestQuality st))
  | None =>
      match toBuffer pipeline (fallbackOptions min) with
      | Returned bestBuffer =>
          (warnings st ++ finalCheck bestBuffer, Returned (bestBuffer, min))
      | Threw e => (warnings st, Threw e)
      end
  end.

(** Steps 1 to 4 of [processImage]: the pipeline handed to the quality
    search. *)
Definition preparePipeline (inputPath : string) : outcome Pipeline :=
  bind (metadata inputPath) (fun md =>
  let pipeline := {| input := inputPath; operations := [] |} in
  let pipeline := queue pipeline rotate in
  let pipeline := queue pipeline (toColorspace "rgb") in
  bind (applySmartResize pipeline md) (fun pipeline =>
  let pipeline :=
    if enableNoiseReduction options then applyNoiseReduction pipeline
    else pipeline in
  let pipeline :=
    if enableSharpening options then applySharpening pipeline
    else pipeline in
  Returned pipeline)).

(** [processImage]: the [catch] block logs and rethrows, so a failing
    step is the outcome of the call.  [startTime] and [endTime] are the
    two readings of [Date.now()].  The file system after the call is
    returned with the report. *)
Definition processImage (fs : FileSystem) (startTime endTime : Z)
    (inputPath outputPath : string)
  : outcome (FileSystem * ProcessedImageInfo) :=
  bind (statSize fs inputPath) (fun originalSize =>
  bind (preparePipeline inputPath) (fun pipeline =>
  bind (snd (optimizeJpegQuality pipeline)) (fun '(buffer, quality) =>
  match writeError outputPath with
  | Some e => Threw e
  | None =>
      let fs := writeFile fs outputPath buffer in
      bind (statSize fs outputPath) (fun processedSize =>
      Returned
        (fs,
         {| originalPath := inputPath;
            processedPath := outputPath;
            originalSize := originalSize;
            processedSize := processedSize;
            width := targetWidth options;
            height := targetHeight options;
            format := "jpeg";
            quality := quality;
            processingTime := endTime - startTime |}))
  end))).

End Processor.

End Processor.

(* ===================================================================== *)
(** ** ImageProcessor.ts: the step-down quality loop of [processImage]    *)
(* ===================================================================== *)

Module ImageProcessor.
Import Js.
Open Scope Z_scope.

Definition Buffer : Type := list Byte.byte.

Definition byteLength (b : Buffer) : Z := Z.of_nat (List.length b).

(** The two messages assigned to [result.error] after the loop:
    "Unable to compress image below <maxFileSize> bytes even at minimum
    quality (<minQuality>)" and "Failed to process image after
    <maxAttempts> attempts". *)
Inductive Failure : Type :=
| UnableToCompress (maxFileSize minQuality : Z)
| FailedAfterAttempts (maxAttempts : nat).

(** The fields of [ProcessingResult] set by the loop, and the buffer
    written to the output path, if any. *)
Record ProcessingResult : Type := mkProcessingResult {
  success : bool;
  processedSize : option Z;
  written : option Buffer;
  error : option Failure
}.

Definition maxAttempts : nat := 5.
Definition minQuality : Z := 50.

Section Compress.
(** Resize, crop and encode at a quality; may throw. *)
Variable encode : Z -> outcome Buffer.
Variable maxFileSize : Z.

(** The loop
    [while (!processed && attempts < maxAttempts && currentQuality >= minQuality)];
    [remaining] is [maxAttempts - attempts].  It returns the result when
    an attempt fits, and otherwise the quality reached and whether an
    attempt threw. *)
Fixpoint attempt (remaining : nat) (currentQuality : Z)
  : ProcessingResult + Z :=
  match remaining with
  | O => inr currentQuality
  | S remaining' =>
      if currentQuality >=? minQuality then
        match encode currentQuality with
        | Returned processedBuffer =>
            if byteLength processedBuffer <=? maxFileSize then
              inl {| success := true;
                     processedSize := Some (byteLength processedBuffer);
                     written := Some processedBuffer;
                     error := None |}
            else attempt remaining' (currentQuality - 10)
        | Threw _ => inr currentQuality
        end
      else inr currentQuality
  end.

(** The loop followed by [if (!processed) { ... }]. *)
Definition compress (quality : Z) : ProcessingResult :=
  match attempt maxAttempts quality with
  | inl result => result
  | inr currentQuality =>
      {| success := false; processedSize := None; written := None;
         error :=
           Some (if currentQuality <? minQuality
                 then UnableToCompress maxFileSize minQuality
                 else FailedAfterAttempts maxAttempts) |}
  end.

End Compress.
End ImageProcessor.

(* ===================================================================== *)
(** ** AdvancedDatabaseManager.ts and DatabaseManagerSimple.ts: inserts   *)
(* ===================================================================== *)

Module Database.
Import Js.
Open Scope Z_scope.

(** *** The SQLite table behind both managers

    Both schemas declare [original_url TEXT NOT NULL UNIQUE] and
    [id INTEGER PRIMARY KEY AUTOINCREMENT].  A table is the list of its
    rows in insertion order, with the AUTOINCREMENT sequence and the last
    insert rowid of the connection. *)

Section Table.
Variable Row : Type.
Variable original_url : Row -> string.

Record Stored : Type := mkStored { rowid : Z; columns : Row }.

Record Db : Type := mkDb {
  rows : list Stored;
  sequence : Z;
  lastInsertRowid : Z
}.

Definition emptyDb : Db := {| rows := []; sequence := 0; lastInsertRowid := 0 |}.

(** The result of running a statement ([changes], [lastInsertRowid] in
    better-sqlite3, [lastID] in sqlite3). *)
Record RunResult : Type := mkRunResult { changes : Z; lastID : Z }.

(** [INSERT INTO] aborts on a conflict, [INSERT OR IGNORE INTO] skips the
    row. *)
Inductive OnConflict : Type := Abort | Ignore.

Definition uniqueViolation : Error :=
  mkError true "UNIQUE constraint failed: images.original_url".

(** [SELECT id FROM images WHERE original_url = ? LIMIT 1] finds a row. *)
Definition hasUrl (db : Db) (u : string) : bool :=
  existsb (fun s => String.eqb (original_url (columns s)) u) (rows db).

(** A constraint violation reported by the engine (UNIQUE, NOT NULL,
    CHECK, PRIMARY KEY): its message reads
    "<kind> constraint failed: <table>.<column>". *)
Definition isConstraintViolation (error : Error) : bool :=
  includes (message error) "constraint failed".

(** A row that [INSERT OR IGNORE] skips: nothing is stored and the last
    insert rowid of the connection stays, but the row id that was drawn
    for the row is used up, so the AUTOINCREMENT sequence advances. *)
Definition skipRow (db : Db) : Db :=
  {| rows := rows db; sequence := sequence db + 1;
     lastInsertRowid := lastInsertRowid db |}.

(** Running one insert statement.  [fault] is a failure that the engine
    reports for the statement and that does not depend on the stored
    rows: a violated NOT NULL constraint (a NaN bound to a NOT NULL
    column arrives as NULL), a full disk, a locked database.
    [INSERT INTO] aborts on it and leaves the table as it is;
    [INSERT OR IGNORE INTO] skips the row without an error when the
    failure is a constraint violation. *)
Definition runInsert (fault : option Error) (mode : OnConflict) (db : Db)
    (r : Row) : Db * outcome RunResult :=
  let skipped :=
    (skipRow db, Returned {| changes := 0; lastID := lastInsertRowid db |}) in
  match fault with
  | Some e =>
      match mode with
      | Abort => (db, Threw e)
      | Ignore => if isConstraintViolation e then skipped else (db, Threw e)
      end
  | None =>
      if hasUrl db (original_url r) then
        match mode with
        | Abort => (db, Threw uniqueViolation)
        | Ignore => skipped
        end
      else
        let id := sequence db + 1 in
        ({| rows := rows db ++ [{| rowid := id; columns := r |}];
            sequence := id;
            lastInsertRowid := id |},
         Returned {| changes := 1; lastID := id |})
  end.

(** [ROLLBACK]: the rows and the sequence are restored, the last insert
    rowid of the connection is not. *)
Definition rollback (before now : Db) : Db :=
  {| rows := rows before; sequence := sequence before;
     lastInsertRowid := lastInsertRowid now |}.

(** The [catch] block shared by both [insertImage] methods:
    [error instanceof Error && error.message.includes('UNIQUE constraint')]
    returns -1, anything else is rethrown. *)
Definition isDuplicate (error : Error) : bool :=
  isError error && includes (message error) "UNIQUE constraint".

Definition insertOne (fault : option Error) (db : Db) (r : Row)
  : Db * outcome Z :=
  match runInsert fault Abort db r with
  | (db', Returned result) => (db', Returned (lastID result))
  | (db', Threw error) =>
      if isDuplicate error then (db', Returned (-1))
      else (db', Threw error)
  end.

(** The loop inside the transaction of a batch insert; [i] is the index
    of the next record. *)
Fixpoint insertEach (faults : nat -> option Error) (i : nat) (db : Db)
    (records : list Row) (results : list Z) : Db * outcome (list Z) :=
  match records with
  | [] => (db, Returned results)
  | r :: records' =>
      match runInsert (faults i) Ignore db r with
      | (db', Returned result) =>
          insertEach faults (S i) db' records' (results ++ [lastID result])
      | (db', Threw error) => (db', Threw error)
      end
  end.

(** The transaction: commit when the loop returns, roll back and rethrow
    when it throws. *)
Definition insertMany (faults : nat -> option Error) (db : Db)
    (records : list Row) : Db * outcome (list Z) :=
  match insertEach faults 0 db records [] with
  | (db', Returned results) => (db', Returned results)
  | (db', Threw error) => (rollback db db', Threw error)
  end.

End Table.

Inductive ProcessingStatus : Type := pending | processing | completed | failed.

(** *** AdvancedDatabaseManager.ts *)

Module Advanced.

(** [ImageRecord]; a [Date] is its time value. *)
Record ImageRecord : Type := mkImageRecord {
  id : option Z;
  keyword : string;
  category : string;
  subcategory : string;
  originalUrl : string;
  altText : string;
  localPath : string;
  fileSize : Z;
  width : Z;
  height : Z;
  format : string;
  jpegQuality : Z;
  relevanceScore : Q;
  collectedAt : Z;
  processedAt : option Z;
  processingStatus : ProcessingStatus
}.

(** The bound parameters of the insert statements, in column order. *)
Record Row : Type := mkRow {
  r_keyword : string;
  r_category : string;
  r_subcategory : string;
  original_url : string;
  alt_text : string;
  local_path : string;
  file_size : Z;
  r_width : Z;
  r_height : Z;
  r_format : string;
  jpeg_quality : Z;
  relevance_score : Q;
  collected_at : Z;
  processed_at : option Z;
  processing_status : ProcessingStatus
}.

(** The arguments of [insertStmt.run]: [record.altText || ''] and
    [record.jpegQuality || 75]. *)
Definition params (record : ImageRecord) : Row :=
  {| r_keyword := keyword record;
     r_category := category record;
     r_subcategory := subcategory record;
     original_url := originalUrl record;
     alt_text := altText record;
     local_path := localPath record;
     file_size := fileSize record;
     r_width := width record;
     r_height := height record;
     r_format := format record;
     jpeg_quality := if jpegQuality record =? 0 then 75 else jpegQuality record;
     relevance_score := relevanceScore record;
     collected_at := collectedAt record;
     processed_at := processedAt record;
     processing_status := processingStatus record |}.

Definition Store : Type := Db Row.

(** [insertImage] *)
Definition insertImage (fault : option Error) (db : Store)
    (record : ImageRecord) : Store * outcome Z :=
  insertOne original_url fault db (params record).

(** [insertImagesBatch] *)
Definition insertImagesBatch (faults : nat -> option Error) (db : Store)
    (records : list ImageRecord) : Store * outcome (list Z) :=
  insertMany original_url faults db (map params records).

(** [urlExists] *)
Definition urlExists (db : Store) (originalUrl : string) : bool :=
  hasUrl original_url db originalUrl.

(** A call made by a client of the store. *)
Inductive Call : Type :=
| CallInsertImage (fault : option Error) (record : ImageRecord)
| CallInsertImagesBatch (faults : nat -> option Error)
                        (records : list ImageRecord).

Definition perform (db : Store) (c : Call) : Store :=
  match c with
  | CallInsertImage fault record => fst (insertImage fault db record)
  | CallInsertImagesBatch faults records =>
      fst (insertImagesBatch faults db records)
  end.

Definition performAll (db : Store) (calls : list Call) : Store :=
  fold_left perform calls db.

(** The URLs of the persisted records. *)
Definition storedUrls (db : Store) : list string :=
  map (fun s => original_url (columns s)) (rows db).

End Advanced.

(** *** DatabaseManagerSimple.ts *)

Module Simple.

Record ImageRecord : Type := mkImageRecord {
  id : option Z;
  keyword : string;
  originalUrl : string;
  localPath : string;
  altText : option string;
  fileSize : Z;
  width : Z;
  height : Z;
  format : string;
  collectedAt : Z;
  processedAt : option Z;
  processingStatus : ProcessingStatus
}.

Record Row : Type := mkRow {
  r_keyword : string;
  original_url : string;
  local_path : string;
  alt_text : option string;
  file_size : Z;
  r_width : Z;
  r_height : Z;
  r_format : string;
  collected_at : Z;
  processed_at : option Z;
  processing_status : ProcessingStatus
}.

(** [record.altText || null]: an empty alt text is stored as NULL. *)
Definition params (record : ImageRecord) : Row :=
  {| r_keyword := keyword record;
     original_url := originalUrl record;
     local_path := localPath record;
     alt_text := match altText record with
                 | Some EmptyString => None
                 | other => other
                 end;
     file_size := fileSize record;
     r_width := width record;
     r_height := height record;
     r_format := format record;
     collected_at := collectedAt record;
     processed_at := processedAt record;
     processing_status := processingStatus record |}.

Definition Store : Type := Db Row.

(** What reading [result.lastID] throws when [result] is [undefined]. *)
Definition lastID_of_undefined : Error :=
  mkError true "Cannot read properties of undefined (reading 'lastID')".

(** [insertImage].  [dbRun] is [promisify(db.run)], which resolves to
    [undefined]: sqlite3 hands the outcome of [run] to its callback as
    [this], not as an argument.  After a successful insert the row is
    stored, reading [result.lastID] throws a TypeError inside the [try],
    and the [catch] block rethrows it. *)
Definition insertImage (fault : option Error) (db : Store)
    (record : ImageRecord) : Store * outcome Z :=
  match runInsert original_url fault Abort db (params record) with
  | (db', Returned _) => (db', Threw lastID_of_undefined)
  | (db', Threw error) =>
      if isDuplicate error then (db', Returned (-1))
      else (db', Threw error)
  end.

End Simple.

End Database.

(* ===================================================================== *)
(** ** config.ts and AnimeImageCollectorApp.ts: the rest of [KeywordUtils]
       and the keyword loops of the application                           *)
(* ===================================================================== *)

Module Keywords.
Import Js Config.
Open Scope Q_scope.

(** [KeywordUtils.getAllKeywords] *)
Definition getAllKeywords (config : AppConfig) : list KeywordEntry :=
  flat_map (fun category => keywords category) (keywordCategories config).

(** [KeywordUtils.getKeywordsByCategory] *)
Definition getKeywordsByCategory (categoryName : string) (config : AppConfig)
  : list KeywordEntry :=
  match find (fun cat => String.eqb (name cat) categoryName)
             (keywordCategories config) with
  | Some category => keywords category
  | None => []
  end.

(** [KeywordUtils.getAllSearchTerms] *)
Definition getAllSearchTerms (keyword : KeywordEntry) : list string :=
  primary keyword :: variations keyword.

(** [KeywordUtils.getCategoryExpectedTotal] *)
Definition getCategoryExpectedTotal (category : KeywordCategory) : Z :=
  fold_left (fun total keyword => (total + expectedResults keyword)%Z)
            (keywords category) 0%Z.

(** [KeywordUtils.getTotalExpectedImages] *)
Definition getTotalExpectedImages (config : AppConfig) : Q :=
  fold_left
    (fun total category =>
       total + inject_Z (getCategoryExpectedTotal category) * weight category)
    (keywordCategories config) 0.



(** The loop over the search terms in [processKeyword].
    [downloaded i t] is the number of images that the body adds to
    [totalCollected] when it handles the term [t] as the [i]-th one (0
    when the search finds nothing new or fails before the downloads).
    The result is the final [totalCollected] and the terms that were
    searched, each with what it yielded. *)
Fixpoint searchTermsLoop (downloaded : nat -> string -> nat) (targetCount : Z)
    (searchTerms : list string) (i : nat) (totalCollected : Z)
  : Z * list (string * nat) :=
  match searchTerms with
  | [] => (totalCollected, [])
  | searchTerm :: rest =>
      if (totalCollected >=? targetCount)%Z then (totalCollected, [])
      else
        let downloadedCount := downloaded i searchTerm in
        let '(total, searched) :=
          searchTermsLoop downloaded targetCount rest (S i)
            (totalCollected + Z.of_nat downloadedCount)%Z in
        (total, (searchTerm, downloadedCount) :: searched)
  end.

(** [processKeyword] *)
Definition processKeyword (downloaded : nat -> string -> nat)
    (keyword : KeywordEntry) (targetCount : Z) : Z * list (string * nat) :=
  searchTermsLoop downloaded targetCount (getAllSearchTerms keyword) 0 0%Z.

End Keywords.

(* ===================================================================== *)
(** ** AdvancedImageScraper: file names and [batchDownload]               *)
(* ===================================================================== *)

Module Download.
Import Js Scraper.

(** [/[a-zA-Z0-9]/] on one character. *)
Definition isAlphanumeric (c : ascii) : bool :=
  let n := nat_of_ascii c in
  ((48 <=? n) && (n <=? 57)) || ((65 <=? n) && (n <=? 90))
  || ((97 <=? n) && (n <=? 122)).

(** [s.replace(/[^a-zA-Z0-9]/g, '_')] *)
Fixpoint sanitize (s : string) : string :=
  match s with
  | EmptyString => EmptyString
  | String c s' =>
      String (if isAlphanumeric c then c else "_"%char) (sanitize s')
  end.

(** [String(n)] for a non-negative integer. *)
Definition String_of_index (n : nat) : string :=
  NilEmpty.string_of_uint (Nat.to_uint n).

Fixpoint repeatChar (c : ascii) (n : nat) : string :=
  match n with
  | O => EmptyString
  | S n' => String c (repeatChar c n')
  end.

(** [s.padStart(targetLength, c)] with a one-character filler. *)
Definition padStart (targetLength : nat) (c : ascii) (s : string) : string :=
  (repeatChar c (targetLength - String.length s) ++ s)%string.

(** [AdvancedImageScraper.generateFilename] *)
Definition generateFilename (imageData : EnhancedImageData) (index : nat)
  : string :=
  let sanitizedKeyword := sanitize (keyword imageData) in
  (sanitizedKeyword ++ "_" ++ padStart 3 "0" (String_of_index index)
   ++ ".jpg")%string.

(** [imageData.fileSize = buffer.length] *)
Definition set_fileSize (img : EnhancedImageData) (size : Z)
  : EnhancedImageData :=
  {| url := url img; altText := altText img; keyword := keyword img;
     category := category img; subcategory := subcategory img;
     relevanceScore := relevanceScore img;
     width := width img; height := height img; fileSize := Some size |}.

Section BatchDownload.
(** The network during a batch: [fetch i image filename] is [Some n]
    when the [i]-th download succeeds and writes [n] bytes, [None] when
    [downloadImage] returns [false] (a response that is not OK, or any
    error, which it catches). *)
Variable fetch : nat -> EnhancedImageData -> string -> option Z.

(** [downloadImage]: whether it succeeded, and the image with its
    [fileSize] set on success. *)
Definition downloadImage (i : nat) (imageData : EnhancedImageData)
    (filename : string) : bool * EnhancedImageData :=
  match fetch i imageData filename with
  | Some size => (true, set_fileSize imageData size)
  | None => (false, imageData)
  end.

(** The [for] loop of [batchDownload] from index [i] on. *)
Fixpoint downloadFrom (i : nat) (images : list EnhancedImageData)
    (downloaded failed : list EnhancedImageData)
  : list EnhancedImageData * list EnhancedImageData :=
  match images with
  | [] => (downloaded, failed)
  | image :: rest =>
      let filename := generateFilename image (i + 1) in
      let '(success, image) := downloadImage i image filename in
      if success
      then downloadFrom (S i) rest (downloaded ++ [image]) failed
      else downloadFrom (S i) rest downloaded (failed ++ [image])
  end.

(** [batchDownload] *)
Definition batchDownload (images : list EnhancedImageData)
  : list EnhancedImageData * list EnhancedImageData :=
  downloadFrom 0 images [] [].

End BatchDownload.
End Download.

(* ===================================================================== *)
(** ** AdvancedImageProcessor: file names, [processBatch], quality
       metrics                                                            *)
(* ===================================================================== *)

Module Batch.
Import Js Processor.

(** [AdvancedImageProcessor.generateFilename] *)
Definition generateFilename (imageData : Scraper.EnhancedImageData)
    (index : nat) (suffix : string) : string :=
  let sanitizedKeyword := Download.sanitize (Scraper.keyword imageData) in
  let indexStr := Download.padStart 3 "0" (Download.String_of_index index) in
  let suffixStr :=
    match suffix with
    | EmptyString => EmptyString
    | _ => ("_" ++ suffix)%string
    end in
  (sanitizedKeyword ++ "_" ++ indexStr ++ suffixStr ++ ".jpg")%string.

(** An element of the [failed] array of [processBatch]. *)
Record Failure : Type := mkFailure {
  image : Scraper.EnhancedImageData;
  error : string
}.

Section ProcessBatch.
Variable metadata : string -> outcome Metadata.t.
Variable toBuffer : Pipeline -> Jpeg.t -> outcome Buffer.
Variable writeError : string -> option Error.
Variable options : ProcessingOptions.
(** [path.join] *)
Variable join : list string -> string.
(** Making sure that a directory exists ([existsSync] / [mkdirSync]);
    [Some e] when [mkdirSync] throws [e]. *)
Variable mkdirError : string -> option Error.
(** The two readings of [Date.now()] around the [i]-th [processImage]. *)
Variable clock : nat -> Z * Z.
(** The optional progress callback; [Some e] when a call throws [e]. *)
Variable progressCallback : option (nat -> nat -> option Error).

(** The body of the [for] loop from index [i] on; [total] is
    [images.length]. *)
Fixpoint processFrom (inputDir outputDir : string) (total : nat) (i : nat)
    (images : list Scraper.EnhancedImageData) (fs : FileSystem)
    (success : list ProcessedImageInfo) (failed : list Failure)
  : FileSystem * list ProcessedImageInfo * list Failure :=
  match images with
  | [] => (fs, success, failed)
  | imageData :: rest =>
      let next := processFrom inputDir outputDir total (S i) rest in
      let inputFilename := generateFilename imageData (i + 1) "original" in
      let outputFilename := generateFilename imageData (i + 1) "processed" in
      let inputPath :=
        join [inputDir; Scraper.category imageData;
              Scraper.subcategory imageData; inputFilename] in
      let categoryOutputDir :=
        join [outputDir; Scraper.category imageData;
              Scraper.subcategory imageData] in
      match mkdirError categoryOutputDir with
      | Some e =>
          next fs success
               (failed ++ [{| image := imageData; error := message e |}])
      | None =>
          let outputPath := join [categoryOutputDir; outputFilename] in
          match fs inputPath with
          | None =>
              next fs success
                   (failed ++ [{| image := imageData;
                                  error := ("Input file not found: "
                                            ++ inputPath)%string |}])
          | Some _ =>
              match processImage metadata toBuffer writeError options fs
                                 (fst (clock i)) (snd (clock i))
                                 inputPath outputPath with
              | Threw e =>
                  next fs success
                       (failed ++ [{| image := imageData;
                                      error := message e |}])
              | Returned (fs', result) =>
                  let success := success ++ [result] in
                  match progressCallback with
                  | Some callback =>
                      match callback (i + 1)%nat total with
                      | Some e =>
                          next fs' success
                               (failed ++ [{| image := imageData;
                                              error := message e |}])
                      | None => next fs' success failed
                      end
                  | None => next fs' success failed
                  end
              end
          end
      end
  end.

(** [processBatch]: creating the output directory happens before the
    loop and outside its [try]. *)
Definition processBatch (fs : FileSystem)
    (images : list Scraper.EnhancedImageData) (inputDir outputDir : string)
  : outcome (FileSystem * list ProcessedImageInfo * list Failure) :=
  match mkdirError outputDir with
  | Some e => Threw e
  | None =>
      Returned (processFrom inputDir outputDir (List.length images) 0
                            images fs [] [])
  end.

End ProcessBatch.

(** *** Quality metrics *)

(** A channel of [Sharp.Stats]; a missing or zero value reads as 0
    ([ch.stdev || 0]). *)
Record Channel : Type := mkChannel { stdev : option Q; mean : option Q }.

Definition orZero (x : option Q) : Q :=
  match x with Some v => v | None => 0%Q end.

(** [channels.reduce((sum, ch) => sum + (ch.stdev || 0), 0) / channels.length] *)
Definition avgStdDev (channels : list Channel) : Q :=
  (fold_left (fun sum ch => sum + orZero (stdev ch)) channels 0
   / inject_Z (Z.of_nat (List.length channels)))%Q.

(** [calculateSharpness] *)
Definition calculateSharpness (channels : list Channel) : Q :=
  match channels with
  | [] => 0%Q
  | _ => Math_min (avgStdDev channels / 50)%Q 1
  end.

(** [calculateContrast] *)
Definition calculateContrast (channels : list Channel) : Q :=
  match channels with
  | [] => 0%Q
  | _ => Math_min (avgStdDev channels / 128)%Q 1
  end.

(** [calculateBrightness] *)
Definition calculateBrightness (channels : list Channel) : Q :=
  match channels with
  | [] => 0%Q
  | _ =>
      ((fold_left (fun sum ch => sum + orZero (mean ch)) channels 0
        / inject_Z (Z.of_nat (List.length channels))) / 255)%Q
  end.

(** [calculateSaturation] *)
Definition calculateSaturation (channels : list Channel) : Q :=
  match channels with
  | r :: g :: b :: _ =>
      let rStd := orZero (stdev r) in
      let gStd := orZero (stdev g) in
      let bStd := orZero (stdev b) in
      let avgColorStd := ((rStd + gStd + bStd) / 3)%Q in
      Math_min (avgColorStd / 64)%Q 1
  | _ => 0%Q
  end.

End Batch.

(* ===================================================================== *)
(** ** AdvancedDatabaseManager: status updates and statistics             *)
(* ===================================================================== *)

Module AdvancedDatabaseManager.
Import Js Database.
Open Scope Z_scope.

(** [SET processing_status = ?, processed_at = ?] on one row. *)
Definition setStatus (status : ProcessingStatus) (processedAt : option Z)
    (r : Advanced.Row) : Advanced.Row :=
  {| Advanced.r_keyword := Advanced.r_keyword r;
     Advanced.r_category := Advanced.r_category r;
     Advanced.r_subcategory := Advanced.r_subcategory r;
     Advanced.original_url := Advanced.original_url r;
     Advanced.alt_text := Advanced.alt_text r;
     Advanced.local_path := Advanced.local_path r;
     Advanced.file_size := Advanced.file_size r;
     Advanced.r_width := Advanced.r_width r;
     Advanced.r_height := Advanced.r_height r;
     Advanced.r_format := Advanced.r_format r;
     Advanced.jpeg_quality := Advanced.jpeg_quality r;
     Advanced.relevance_score := Advanced.relevance_score r;
     Advanced.collected_at := Advanced.collected_at r;
     Advanced.processed_at := processedAt;
     Advanced.processing_status := status |}.

(** [UPDATE images SET ... WHERE id = ?] *)
Definition updateRow (imageId : Z) (status : ProcessingStatus)
    (processedAt : option Z) (s : Stored Advanced.Row)
  : Stored Advanced.Row :=
  if rowid s =? imageId
  then {| rowid := rowid s;
          columns := setStatus status processedAt (columns s) |}
  else s.

(** [updateProcessingStatus]: a failure of the statement is logged and
    rethrown. *)
Definition updateProcessingStatus (fault : option Error)
    (db : Advanced.Store) (imageId : Z) (status : ProcessingStatus)
    (processedAt : option Z) : Advanced.Store * outcome unit :=
  match fault with
  | Some e => (db, Threw e)
  | None =>
      ({| rows := map (updateRow imageId status processedAt) (rows db);
          sequence := sequence db;
          lastInsertRowid := lastInsertRowid db |},
       Returned tt)
  end.

(** [WHERE processing_status = 'completed'] *)
Definition isCompleted (s : Stored Advanced.Row) : bool :=
  match Advanced.processing_status (columns s) with
  | completed => true
  | _ => false
  end.

(** [SUM(CASE WHEN p THEN 1 ELSE 0 END) || 0] *)
Definition countWhere (p : Stored Advanced.Row -> bool)
    (selected : list (Stored Advanced.Row)) : Z :=
  fold_left (fun sum s => sum + (if p s then 1 else 0)) selected 0.

(** [Object.fromEntries(groups.map(item => [item.key, item.count]))] for
    a [SELECT key, COUNT( * ) ... GROUP BY key]: a key has an entry when
    some selected row carries it. *)
Definition groupCounts {K : Type} (sameKey : K -> K -> bool)
    (key : Stored Advanced.Row -> K)
    (selected : list (Stored Advanced.Row)) (k : K) : option Z :=
  let count := countWhere (fun s => sameKey (key s) k) selected in
  if count =? 0 then None else Some count.

Definition sameStatus (a b : ProcessingStatus) : bool :=
  match a, b with
  | pending, pending | processing, processing
  | completed, completed | failed, failed => true
  | _, _ => false
  end.

Record SizeStats : Type := mkSizeStats {
  under10KB : Z;
  under25KB : Z;
  under50KB : Z;
  over50KB : Z
}.

(** [CollectionStatistics] without its three averages
    ([averageFileSizeBytes], [averageRelevanceScore],
    [qualityStats.averageQuality]): they are SQLite's [AVG] over the
    completed rows, a floating-point figure whose summation is the
    engine's.  An object used as a map is the function that looks a key
    up. *)
Record CollectionStatistics : Type := mkCollectionStatistics {
  totalImages : Z;
  totalSizeBytes : Z;
  categoryStats : string -> option Z;
  subcategoryStats : string -> option Z;
  processingStatusStats : ProcessingStatus -> option Z;
  qualityDistribution : Z -> option Z;
  sizeStats : SizeStats
}.

(** [getCollectionStatistics]: every figure is taken over the rows whose
    status is 'completed', except [processingStatusStats], which groups
    all rows; a failure of a query is rethrown. *)
Definition getCollectionStatistics (fault : option Error)
    (db : Advanced.Store) : outcome CollectionStatistics :=
  match fault with
  | Some e => Threw e
  | None =>
      let selected := filter isCompleted (rows db) in
      let size s := Advanced.file_size (columns s) in
      Returned
        {| totalImages := Z.of_nat (List.length selected);
           totalSizeBytes := fold_left (fun sum s => sum + size s) selected 0;
           categoryStats :=
             groupCounts String.eqb
               (fun s => Advanced.r_category (columns s)) selected;
           subcategoryStats :=
             groupCounts String.eqb
               (fun s => Advanced.r_subcategory (columns s)) selected;
           processingStatusStats :=
             groupCounts sameStatus
               (fun s => Advanced.processing_status (columns s)) (rows db);
           qualityDistribution :=
             groupCounts Z.eqb
               (fun s => Advanced.jpeg_quality (columns s)) selected;
           sizeStats :=
             {| under10KB := countWhere (fun s => size s <? 10240) selected;
                under25KB :=
                  countWhere (fun s => (size s >=? 10240)
                                       && (size s <? 25600)) selected;
                under50KB :=
                  countWhere (fun s => (size s >=? 25600)
                                       && (size s <? 51200)) selected;
                over50KB := countWhere (fun s => size s >=? 51200) selected
             |} |}
  end.

End AdvancedDatabaseManager.

(* ===================================================================== *)
(** ** ImageValidator.ts                                                  *)
(* ===================================================================== *)

Module ImageValidator.
Import Js.
Open Scope Q_scope.

Record ValidationResult : Type := mkValidationResult {
  isValid : bool;
  confidence : Q;
  reason : string;
  suggestions : option (list string)
}.

(** The [metadata] argument of [validateImageFile]. *)
Record ImageMetadata : Type := mkImageMetadata {
  altText : option string;
  url : option string;
  keyword : option string
}.

(** [x || ''] *)
Definition orEmpty (x : option string) : string :=
  match x with Some s => s | None => EmptyString end.

Definition clothingOnlyIndicators : list string :=
  [ "outfit only"; "clothing only"; "costume only"; "dress only";
    "uniform only"; "outfit without"; "clothing without";
    "just outfit"; "just clothing"; "just costume";
    "empty outfit"; "empty costume"; "empty dress";
    "outfit design"; "clothing design"; "costume design";
    "pattern"; "texture"; "fabric"; "material";
    "template"; "layout"; "blueprint";
    "mannequin"; "hanger"; "display"; "showcase";
    "flat lay"; "product shot"; "catalog";
    "no character"; "no person"; "no figure";
    "clothing item"; "fashion item"; "accessory only" ]%string.

Definition characterIndicators : list string :=
  [ "character"; "person"; "people"; "human"; "figure";
    "girl"; "boy"; "woman"; "man"; "child";
    "face"; "portrait"; "body"; "full body";
    "head"; "hair"; "eyes"; "skin"; "hand";
    "standing"; "sitting"; "pose"; "posing";
    "walking"; "running"; "dancing"; "fighting";
    "smile"; "smiling"; "expression"; "face";
    "happy"; "sad"; "angry"; "surprised";
    "anime girl"; "anime boy"; "anime character";
    "manga character"; "waifu"; "husbando";
    "protagonist"; "hero"; "heroine" ]%string.

(** [`${filename} ${altText} ${url}`] *)
Definition allText (filename altText url : string) : string :=
  (filename ++ " " ++ altText ++ " " ++ url)%string.

(** [checkClothingOnly]: the loop returns at the first indicator found. *)
Definition checkClothingOnly (filename altText url : string)
  : ValidationResult :=
  match find (fun indicator => includes (allText filename altText url)
                                        indicator)
             clothingOnlyIndicators with
  | Some indicator =>
      {| isValid := false;
         confidence := 0.9;
         reason := ("Detected clothing-only image: " ++ dquote ++ indicator
                    ++ dquote)%string;
         suggestions :=
           Some [ "Use keywords that emphasize character presence";
                  "Add " ++ dquote ++ "character" ++ dquote ++ " or "
                  ++ dquote ++ "person" ++ dquote ++ " to search terms";
                  "Filter out design/pattern-only results" ]%string |}
  | None =>
      {| isValid := true; confidence := 0.7;
         reason := "No clothing-only indicators found";
         suggestions := None |}
  end.

(** [checkCharacterPresence] *)
Definition checkCharacterPresence (filename altText url : string)
  : ValidationResult :=
  let matchedIndicators :=
    filter (fun indicator => includes (allText filename altText url)
                                      indicator)
           characterIndicators in
  let foundIndicators := List.length matchedIndicators in
  match foundIndicators with
  | O =>
      {| isValid := false;
         confidence := 0.8;
         reason := "No character presence indicators found";
         suggestions :=
           Some [ "Add character-specific keywords to search";
                  "Include terms like " ++ dquote ++ "character" ++ dquote
                  ++ ", " ++ dquote ++ "person" ++ dquote ++ ", or "
                  ++ dquote ++ "figure" ++ dquote;
                  "Use more specific character descriptions" ]%string |}
  | _ =>
      {| isValid := true;
         confidence :=
           Math_min (0.6 + inject_Z (Z.of_nat foundIndicators) * 0.1) 0.95;
         reason := ("Found " ++ Download.String_of_index foundIndicators
                    ++ " character indicators: "
                    ++ join ", " (firstn 3 matchedIndicators))%string;
         suggestions := None |}
  end.

Definition validExtensions : list string :=
  [ ".jpg"; ".jpeg"; ".png"; ".gif"; ".webp" ]%string.

(** [`${error}`] *)
Definition String_of_error (e : Error) : string :=
  if isError e then ("Error: " ++ message e)%string else message e.

Section Validator.
(** [path.basename], [path.extname] and [path.join] *)
Variable basename : string -> string.
Variable extname : string -> string.
Variable pathJoin : list string -> string.
(** [fs.existsSync] and the size reported by [fs.statSync], which may
    throw. *)
Variable existsSync : string -> bool.
Variable statSync : string -> outcome Z.

(** [checkFileIntegrity] *)
Definition checkFileIntegrity (imagePath : string) : ValidationResult :=
  if negb (existsSync imagePath) then
    {| isValid := false; confidence := 1;
       reason := "Image file does not exist"; suggestions := None |}
  else
    match statSync imagePath with
    | Threw error =>
        {| isValid := false; confidence := 0.95;
           reason := ("File access error: " ++ String_of_error error)%string;
           suggestions := None |}
    | Returned size =>
        if (size <? 1000)%Z then
          {| isValid := false; confidence := 0.9;
             reason := "Image file is too small (possibly corrupted)";
             suggestions := None |}
        else
          let ext := toLowerCase (extname imagePath) in
          if negb (existsb (String.eqb ext) validExtensions) then
            {| isValid := false; confidence := 0.85;
               reason := ("Invalid image extension: " ++ ext)%string;
               suggestions := None |}
          else
            {| isValid := true; confidence := 0.9;
               reason := "File integrity check passed";
               suggestions := None |}
    end.

(** [validateImageFile] *)
Definition validateImageFile (imagePath : string) (metadata : ImageMetadata)
  : ValidationResult :=
  let filename := toLowerCase (basename imagePath) in
  let altText := toLowerCase (orEmpty (altText metadata)) in
  let url := toLowerCase (orEmpty (url metadata)) in
  let clothingOnlyResult := checkClothingOnly filename altText url in
  if negb (isValid clothingOnlyResult) then clothingOnlyResult
  else
    let characterResult := checkCharacterPresence filename altText url in
    if negb (isValid characterResult) then characterResult
    else
      let fileResult := checkFileIntegrity imagePath in
      if negb (isValid fileResult) then fileResult
      else
        {| isValid := true; confidence := 0.85;
           reason := "Image appears to contain a valid anime character";
           suggestions := None |}.

(** The object returned by [validateDirectory]. *)
Record DirectoryReport : Type := mkDirectoryReport {
  totalImages : Z;
  validImages : Z;
  invalidImages : list (string * string);
  validationResults : list (string * ValidationResult)
}.

(** The [for] loop of [validateDirectory]. *)
Fixpoint validateEach (dirPath : string) (imageFiles : list string)
    (results : DirectoryReport) : DirectoryReport :=
  match imageFiles with
  | [] => results
  | file :: rest =>
      let filePath := pathJoin [dirPath; file] in
      let validationResult :=
        validateImageFile filePath
          {| altText := Some file; url := Some filePath; keyword := None |} in
      validateEach dirPath rest
        {| totalImages := totalImages results;
           validImages :=
             if isValid validationResult
             then (validImages results + 1)%Z else validImages results;
           invalidImages :=
             if isValid validationResult then invalidImages results
             else invalidImages results
                  ++ [(filePath, reason validationResult)];
           validationResults :=
             validationResults results ++ [(filePath, validationResult)] |}
  end.

(** [validateDirectory]; [readdirSync] may throw. *)
Definition validateDirectory (readdirSync : string -> outcome (list string))
    (dirPath : string) : outcome DirectoryReport :=
  let results :=
    {| totalImages := 0%Z; validImages := 0%Z;
       invalidImages := []; validationResults := [] |} in
  if negb (existsSync dirPath) then Returned results
  else
    bind (readdirSync dirPath) (fun files =>
    let imageFiles :=
      filter (fun file =>
                existsb (String.eqb (toLowerCase (extname file)))
                        validExtensions)
             files in
    Returned
      (validateEach dirPath imageFiles
         {| totalImages := Z.of_nat (List.length imageFiles);
            validImages := validImages results;
            invalidImages := invalidImages results;
            validationResults := validationResults results |})).

End Validator.
End ImageValidator.

(* ===================================================================== *)
(** * Properties                                                          *)
(* ===================================================================== *)

(** ** Work distribution *)

Module ConfigSpec.
Import Js Config.
Open Scope Q_scope.

Definition Qsum (l : list Q) : Q := fold_right Qplus 0 l.







Section Distribution.
Variables (targetTotal W : Q).

(** The body of the [for] loop over the categories. *)
Let allocate (category : KeywordCategory) : list Allocation :=
  let categoryTarget := Math_floor ((targetTotal * weight category) / W) in
  let keywordTarget :=
    Math_floor (inject_Z categoryTarget
                / inject_Z (Z.of_nat (List.length (keywords category)))) in
  map (fun keyword =>
         {| keyword := keyword;
            targetCount := keywordTarget;
            category := name category |})
      (keywords category).



End Distribution.


(** Witness of [distribution_never_overshoots]: the weights 2 and 1.5
    of the default configuration, three keywords, a target of 10. *)
Definition kw (p : string) : KeywordEntry :=
  {| primary := p; variations := []; expectedResults := 100;
     ke_category := p |}.



(** *** The 100..150 scenario *)

(** Target range 100..150, two categories weighted 2:1 (weights [2 * w]
    and [w]), two keywords each. *)
Definition scenario (w : Q) (ip : ImageProcessing)
    (n1 n2 : string) (k1 k2 k3 k4 : KeywordEntry) : AppConfig :=
  {| targetImageCount := {| min := 100; max := 150 |};
     imageProcessing := ip;
     keywordCategories :=
       [ {| name := n1; description := ""; weight := 2 * w;
            keywords := [k1; k2] |};
         {| name := n2; description := ""; weight := w;
            keywords := [k3; k4] |} ] |}.

Definition default_processing : ImageProcessing :=
  {| maxWidth := 500; maxHeight := 500;
     quality := {| min := 50; max := 80 |}; maxFileSize := 51200 |}.

Definition scenario_2_1 : AppConfig :=
  scenario 1 default_processing "Male Characters" "Female Characters"
           (kw "anime boy") (kw "anime man")
           (kw "anime girl") (kw "anime woman").


(** Computed from the lower end of the range the targets would be
    33, 33, 16, 16. *)
Example scenario_from_min_sums_to_98 :
  map targetCount (getWeightedKeywordDistribution (inject_Z 100) scenario_2_1)
  = [33; 33; 16; 16]%Z
  /\ totalAllocated
       (getWeightedKeywordDistribution (inject_Z 100) scenario_2_1) = 98%Z.
Proof. split; vm_compute; reflexivity. Qed.




End ConfigSpec.

(** ** Relevance scoring and search *)

Module ScraperSpec.
Import Js Scraper.
Open Scope Q_scope.

Definition Qsum (l : list Q) : Q := fold_right Qplus 0 l.

(** *** Exclusion pass *)

Lemma isClothingOnlyImage_iff (alt u : string) :
  isClothingOnlyImage alt u = true <->
  Exists (fun k => includes alt k = true) clothingOnlyKeywords
  \/ Exists (fun k => includes u k = true) urlClothingKeywords.
Proof.
  unfold isClothingOnlyImage.
  rewrite orb_true_iff, !existsb_exists, !Exists_exists. tauto.
Qed.

Lemma scoreImage_vetoed (kd : CharacterKeyword) (img : EnhancedImageData) :
  isClothingOnlyImage (toLowerCase (altText img)) (toLowerCase (url img))
  = true ->
  scoreImage kd img = set_relevanceScore img 0.
Proof. intros H. unfold scoreImage. rewrite H. reflexivity. Qed.

Lemma filterRelevantImages_app (cfg : AdvancedScrapingConfig)
    (l1 l2 : list EnhancedImageData) (kd : CharacterKeyword) :
  filterRelevantImages cfg (l1 ++ l2) kd
  = filterRelevantImages cfg l1 kd ++ filterRelevantImages cfg l2 kd.
Proof.
  unfold filterRelevantImages. rewrite map_app, filter_app. reflexivity.
Qed.

Definition sample_keyword : CharacterKeyword :=
  CharacterKeyword.mk "anime girl student character sailor"
                      "female" "student" 150 0.92.

Definition sample_scraping : AdvancedScrapingConfig :=
  {| maxImages := 200; maxScrolls := 10; relevanceThreshold := 0.85 |}.

Definition candidate (u alt : string) (w h : Z) : EnhancedImageData :=
  {| url := u; altText := alt;
     keyword := "anime girl student character sailor";
     category := "female"; subcategory := "student";
     relevanceScore := 0;
     width := Some w; height := Some h; fileSize := None |}.

Definition hanger_candidate : EnhancedImageData :=
  candidate "https://cdn.example.com/anime-girl-hanger.jpg"
            "Anime girl character" 400 400.

(** C2, as stated, fails: the alt-text phrases and the URL phrases are
    two different lists.  "hanger" belongs to the clothing-only list and
    occurs in the URL, yet the candidate is scored 1 and kept. *)
Lemma url_with_alt_only_phrase_is_accepted :
  In "hanger"%string clothingOnlyKeywords
  /\ includes (toLowerCase (url hanger_candidate)) "hanger" = true
  /\ 0 < relevanceThreshold sample_scraping
  /\ ~ relevanceScore (scoreImage sample_keyword hanger_candidate) == 0
  /\ filterRelevantImages sample_scraping [hanger_candidate] sample_keyword
     = [scoreImage sample_keyword hanger_candidate].
Proof.
  split; [vm_compute; tauto|].
  split; [vm_compute; reflexivity|].
  split; [reflexivity|].
  split; [vm_compute; discriminate|].
  vm_compute; reflexivity.
Qed.

(** C2, amended.  A candidate whose lowercased alt text contains a phrase
    of the alt-text exclusion list, or whose lowercased URL contains a
    phrase of the URL exclusion list, gets [relevanceScore = 0] whatever
    the keyword data, and for a threshold above 0 it is absent from the
    filtered result: the result is the one obtained without it. *)
Theorem exclusion_is_a_veto (cfg : AdvancedScrapingConfig)
    (kd : CharacterKeyword) (img : EnhancedImageData) :
  0 < relevanceThreshold cfg ->
  Exists (fun k => includes (toLowerCase (altText img)) k = true)
         clothingOnlyKeywords
  \/ Exists (fun k => includes (toLowerCase (url img)) k = true)
            urlClothingKeywords ->
  relevanceScore (scoreImage kd img) = 0
  /\ forall before after,
       filterRelevantImages cfg (before ++ img :: after) kd
       = filterRelevantImages cfg before kd
         ++ filterRelevantImages cfg after kd.
Proof.
  intros Hthr Hex. apply isClothingOnlyImage_iff in Hex.
  pose proof (scoreImage_vetoed kd img Hex) as Hs.
  split; [rewrite Hs; reflexivity|].
  intros before after.
  change (img :: after) with ([img] ++ after).
  rewrite !filterRelevantImages_app. f_equal.
  replace (filterRelevantImages cfg [img] kd) with (@nil EnhancedImageData);
    [reflexivity|].
  unfold filterRelevantImages. cbn [map filter]. rewrite Hs.
  cbn [relevanceScore set_relevanceScore].
  destruct (Qle_bool (relevanceThreshold cfg) 0) eqn:E; [|reflexivity].
  apply Qle_bool_iff in E. lra.
Qed.

Definition mannequin_candidate : EnhancedImageData :=
  candidate "https://cdn.example.com/x.jpg"
            "Anime girl character mannequin display outfit only" 400 400.

Lemma exclusion_is_a_veto_witness :
  relevanceScore (scoreImage sample_keyword mannequin_candidate) = 0
  /\ forall before after,
       filterRelevantImages sample_scraping
         (before ++ mannequin_candidate :: after) sample_keyword
       = filterRelevantImages sample_scraping before sample_keyword
         ++ filterRelevantImages sample_scraping after sample_keyword.
Proof.
  apply (@exclusion_is_a_veto sample_scraping sample_keyword
           mannequin_candidate).
  - reflexivity.
  - left. apply Exists_exists. exists "outfit only"%string.
    split; [simpl; tauto | vm_compute; reflexivity].
Defined.

(** *** Inclusion pass *)

Definition bonus (applies : bool) (amount : Q) : list Q :=
  if applies then [amount] else [].

(** The increments that the inclusion pass adds to the base score, in
    the order of the source. *)
Definition appliedBonuses (keywordData : CharacterKeyword)
    (img : EnhancedImageData) : list Q :=
  let altLower := toLowerCase (altText img) in
  let keywordLower := toLowerCase (CharacterKeyword.keyword keywordData) in
  let imgUrlLower := toLowerCase (url img) in
  bonus (hasCharacterIndicators altLower imgUrlLower) 0.15
  ++ bonus (includes altLower (first_word keywordLower)) 0.1
  ++ bonus (includes altLower "anime") 0.05
  ++ bonus (includes altLower "character") 0.05
  ++ bonus (includes altLower (CharacterKeyword.category keywordData)) 0.05
  ++ bonus (includes altLower (CharacterKeyword.subcategory keywordData)) 0.05
  ++ match dimensions img with
     | Some (w, h) =>
         let aspectRatio := inject_Z w / inject_Z h in
         bonus (Qle_bool 0.7 aspectRatio && Qle_bool aspectRatio 1.5) 0.05
         ++ bonus ((300 <=? w) && (w <=? 800))%Z 0.05
     | None => []
     end
  ++ bonus (includes imgUrlLower "anime") 0.05
  ++ bonus (includes imgUrlLower "character") 0.03.

Lemma Qsum_app (l1 l2 : list Q) : Qsum (l1 ++ l2) == Qsum l1 + Qsum l2.
Proof. induction l1 as [|x l1 IH]; simpl; [|rewrite IH]; ring. Qed.

Lemma Qsum_bonus (c : bool) (a : Q) : Qsum (bonus c a) == if c then a else 0.
Proof. destruct c; simpl; ring. Qed.

Lemma bump_eq (c : bool) (b s t : Q) :
  s == t -> (if c then s + b else s) == t + (if c then b else 0).
Proof. intros H. destruct c; rewrite H; ring. Qed.

(** The sequential [if (...) score += b] statements add up the applied
    bonuses. *)
Lemma inclusionScore_sum (kd : CharacterKeyword) (img : EnhancedImageData) :
  inclusionScore kd img
  == CharacterKeyword.relevanceScore kd + Qsum (appliedBonuses kd img).
Proof.
  unfold inclusionScore, appliedBonuses. cbv zeta.
  generalize (CharacterKeyword.relevanceScore kd); intros base.
  rewrite !Qsum_app, !Qsum_bonus.
  destruct (dimensions img) as [[w h]|].
  - rewrite !Qsum_app, !Qsum_bonus.
    eapply Qeq_trans;
      [repeat (apply bump_eq); apply Qeq_refl | ring].
  - eapply Qeq_trans;
      [repeat (apply bump_eq); apply Qeq_refl | simpl; ring].
Qed.

Lemma Forall_bonus (P : Q -> Prop) (c : bool) (a : Q) :
  P a -> Forall P (bonus c a).
Proof. intros H. destruct c; simpl; auto. Qed.

Lemma appliedBonuses_bounded (kd : CharacterKeyword)
    (img : EnhancedImageData) :
  Forall (fun b => 0 < b /\ b <= 0.15) (appliedBonuses kd img).
Proof.
  assert (H15 : 0 < 0.15 /\ 0.15 <= 0.15) by (split; reflexivity || discriminate).
  assert (H10 : 0 < 0.1 /\ 0.1 <= 0.15) by (split; reflexivity || discriminate).
  assert (H05 : 0 < 0.05 /\ 0.05 <= 0.15) by (split; reflexivity || discriminate).
  assert (H03 : 0 < 0.03 /\ 0.03 <= 0.15) by (split; reflexivity || discriminate).
  unfold appliedBonuses. cbv zeta.
  repeat (apply Forall_app; split); try (apply Forall_bonus; assumption).
  destruct (dimensions img) as [[w h]|]; [|constructor].
  apply Forall_app; split; apply Forall_bonus; assumption.
Qed.

Lemma Math_min_le_r (x y : Q) : Math_min x y <= y.
Proof.
  unfold Math_min. destruct (Qle_bool x y) eqn:E.
  - apply Qle_bool_iff; exact E.
  - apply Qle_refl.
Qed.

Definition girl_candidate : EnhancedImageData :=
  candidate "https://cdn.example.com/img-001.jpg" "smiling girl" 1200 400.

Definition low_base_keyword : CharacterKeyword :=
  CharacterKeyword.mk "samurai armor" "male" "warrior" 100 0.5.

(** C8, as stated, fails: a candidate that passes the exclusion pass
    and matches a character indicator earns 0.15, more than 0.05. *)
Lemma character_bonus_exceeds_005 :
  isClothingOnlyImage (toLowerCase (altText girl_candidate))
                      (toLowerCase (url girl_candidate)) = false
  /\ appliedBonuses low_base_keyword girl_candidate = [0.15]
  /\ relevanceScore (scoreImage low_base_keyword girl_candidate)
     == CharacterKeyword.relevanceScore low_base_keyword + 0.15
  /\ ~ Forall (fun b => b <= 0.05)
              (appliedBonuses low_base_keyword girl_candidate).
Proof.
  assert (Hb : appliedBonuses low_base_keyword girl_candidate = [0.15])
    by (vm_compute; reflexivity).
  split; [vm_compute; reflexivity|].
  split; [exact Hb|].
  split; [vm_compute; reflexivity|].
  rewrite Hb. intros H. inversion H as [|? ? Hle _]; subst.
  vm_compute in Hle. apply Hle. reflexivity.
Qed.

(** C8, amended.  For a candidate that passes the exclusion pass the
    score is the base score plus the applied bonuses, capped at 1.0; each
    applied bonus is positive and at most 0.15 (0.15 for a character
    indicator, 0.10 for the first word of the keyword, 0.05 or 0.03 for
    the others). *)
Theorem bonuses_bounded_and_score_capped (kd : CharacterKeyword)
    (img : EnhancedImageData) :
  isClothingOnlyImage (toLowerCase (altText img)) (toLowerCase (url img))
  = false ->
  Forall (fun b => 0 < b /\ b <= 0.15) (appliedBonuses kd img)
  /\ relevanceScore (scoreImage kd img)
     == Math_min (CharacterKeyword.relevanceScore kd
                  + Qsum (appliedBonuses kd img)) 1
  /\ relevanceScore (scoreImage kd img) <= 1.
Proof.
  intros Hpass. unfold scoreImage. rewrite Hpass.
  cbn [relevanceScore set_relevanceScore].
  split; [apply appliedBonuses_bounded|].
  split; [|apply Math_min_le_r].
  pose proof (inclusionScore_sum kd img) as Hsum.
  unfold Math_min.
  destruct (Qle_bool (inclusionScore kd img) 1) eqn:E1;
    destruct (Qle_bool (CharacterKeyword.relevanceScore kd
                        + Qsum (appliedBonuses kd img)) 1) eqn:E2;
    try (exact Hsum); try reflexivity.
  - apply Qle_bool_iff in E1. rewrite Hsum in E1.
    apply Qle_bool_iff in E1. congruence.
  - apply Qle_bool_iff in E2. rewrite <- Hsum in E2.
    apply Qle_bool_iff in E2. congruence.
Qed.

Lemma bonuses_bounded_and_score_capped_witness :
  Forall (fun b => 0 < b /\ b <= 0.15)
         (appliedBonuses low_base_keyword girl_candidate)
  /\ relevanceScore (scoreImage low_base_keyword girl_candidate)
     == Math_min (CharacterKeyword.relevanceScore low_base_keyword
                  + Qsum (appliedBonuses low_base_keyword girl_candidate)) 1
  /\ relevanceScore (scoreImage low_base_keyword girl_candidate) <= 1.
Proof.
  apply (@bonuses_bounded_and_score_capped low_base_keyword girl_candidate).
  vm_compute. reflexivity.
Defined.

(** *** The search loop *)

Section SearchLoop.
Variable cfg : AdvancedScrapingConfig.
Variable kd : CharacterKeyword.

(** What holds of the collected list at every point of the loop. *)
Definition collected_ok (images : list EnhancedImageData) : Prop :=
  NoDup (map url images)
  /\ (List.length images <= CharacterKeyword.targetCount kd)%nat
  /\ Forall (fun img => relevanceThreshold cfg <= relevanceScore img)
            images.

Lemma filterRelevantImages_threshold (l : list EnhancedImageData) :
  Forall (fun img => relevanceThreshold cfg <= relevanceScore img)
         (filterRelevantImages cfg l kd).
Proof.
  apply Forall_forall. intros img Hin.
  unfold filterRelevantImages in Hin. apply filter_In in Hin.
  apply Qle_bool_iff. apply Hin.
Qed.

Lemma some_url_false (u : string) (images : list EnhancedImageData) :
  some (fun existing => String.eqb (url existing) u) images = false ->
  ~ In u (map url images).
Proof.
  unfold some. intros Hs Hin. apply in_map_iff in Hin.
  destruct Hin as [x [Hx Hin]].
  assert (existsb (fun existing => String.eqb (url existing) u) images
          = true) as Ht.
  { apply existsb_exists. exists x. split; [exact Hin|].
    apply String.eqb_eq. exact Hx. }
  congruence.
Qed.

Lemma addUnique_ok (relevant images : list EnhancedImageData) :
  Forall (fun img => relevanceThreshold cfg <= relevanceScore img)
         relevant ->
  collected_ok images ->
  collected_ok (addUnique (CharacterKeyword.targetCount kd) images relevant).
Proof.
  unfold addUnique. intros Hrel. revert images.
  induction Hrel as [|img relevant Himg _ IH]; intros images Hok.
  - exact Hok.
  - cbn [fold_left]. apply IH.
    destruct (some _ images) eqn:Hs; cbn [negb andb]; [exact Hok|].
    destruct (Nat.ltb_spec (List.length images)
                           (CharacterKeyword.targetCount kd)) as [Hlt|Hge];
      [|exact Hok].
    destruct Hok as (Hnd & Hlen & Hthr).
    repeat split.
    + rewrite map_app. cbn [map].
      assert (HA : Add (url img) (map url images)
                       (map url images ++ [url img])).
      { pose proof (Add_app (url img) (map url images) []) as HA.
        rewrite app_nil_r in HA. exact HA. }
      apply (NoDup_Add HA).
      split; [exact Hnd | apply some_url_false; exact Hs].
    + rewrite length_app. cbn [List.length]. lia.
    + apply Forall_app. split; [exact Hthr|]. constructor; [exact Himg|constructor].
Qed.

Lemma scrollLoop_ok (run : PageRun) (remaining : nat) :
  forall (scrollCount : nat) (images l : list EnhancedImageData),
    collected_ok images ->
    scrollLoop cfg run kd remaining scrollCount images = Returned l ->
    collected_ok l.
Proof.
  induction remaining as [|remaining IH]; intros scrollCount images l Hok;
    cbn [scrollLoop].
  - intros [= <-]. exact Hok.
  - destruct (List.length images <? CharacterKeyword.targetCount kd)%nat.
    + destruct (extractImageData run scrollCount) as [newImages|e];
        [|discriminate].
      destruct (scrollAndWait run scrollCount); [discriminate|].
      apply IH. apply addUnique_ok; [|exact Hok].
      apply filterRelevantImages_threshold.
    + intros [= <-]. exact Hok.
Qed.

Lemma collected_ok_nil : collected_ok [].
Proof.
  repeat split; [constructor | apply Nat.le_0_l | constructor].
Qed.

Lemma searchBody_ok (run : PageRun) (l : list EnhancedImageData) :
  searchBody cfg run kd = Returned l -> collected_ok l.
Proof.
  unfold searchBody. destruct (navigate run); [discriminate|].
  apply scrollLoop_ok. exact collected_ok_nil.
Qed.
End SearchLoop.

(** A browser run in which every step completes and every scroll shows
    the same three candidates. *)
Definition page_candidates : list EnhancedImageData :=
  [ candidate "https://cdn.example.com/a.jpg" "anime girl character" 400 400;
    mannequin_candidate;
    candidate "https://cdn.example.com/b.jpg" "anime student girl" 500 400 ].

Definition quiet_run : PageRun :=
  {| newPage := None; navigate := None;
     extractImageData := fun _ => Returned page_candidates;
     scrollAndWait := fun _ => None;
     close := None |}.

Definition timeout_error : Error := mkError true "Timeout 30000ms exceeded".

Definition crashed_run : PageRun :=
  {| newPage := Some (mkError true "Target closed"); navigate := None;
     extractImageData := fun _ => Returned page_candidates;
     scrollAndWait := fun _ => None;
     close := None |}.

Definition failing_scroll_run : PageRun :=
  {| newPage := None; navigate := None;
     extractImageData := fun _ => Returned page_candidates;
     scrollAndWait := fun n => if (n =? 1)%nat then Some timeout_error
                               else None;
     close := None |}.

(** C9, as stated, fails: the guard and [newPage] are outside the [try]
    block, so these failures reach the caller as exceptions. *)
Lemma searchImages_can_throw :
  searchImages sample_scraping None quiet_run sample_keyword
  = Threw (mkError true "Browser not initialized")
  /\ searchImages sample_scraping (Some tt) crashed_run sample_keyword
     = Threw (mkError true "Target closed").
Proof. split; reflexivity. Qed.

(** C9, amended.  Every list returned by [searchImages] has pairwise
    distinct URLs, at most [targetCount] elements, and only images whose
    [relevanceScore] reaches the configured threshold.  When the browser
    is initialised and the page opens and closes, [searchImages] returns,
    and it returns the empty list whenever a step of the search itself
    (navigation, extraction, scrolling) throws.  Without an initialised
    browser it throws "Browser not initialized". *)
Theorem searchImages_result (cfg : AdvancedScrapingConfig)
    (browser : option unit) (run : PageRun) (kd : CharacterKeyword) :
  (forall images,
      searchImages cfg browser run kd = Returned images ->
      NoDup (map url images)
      /\ (List.length images <= CharacterKeyword.targetCount kd)%nat
      /\ Forall (fun img => relevanceThreshold cfg <= relevanceScore img)
                images)
  /\ (browser <> None -> newPage run = None -> close run = None ->
      exists images,
        searchImages cfg browser run kd = Returned images
        /\ (threw (searchBody cfg run kd) = true -> images = []))
  /\ (browser = None ->
      searchImages cfg browser run kd
      = Threw (mkError true "Browser not initialized")).
Proof.
  split; [|split].
  - intros images. unfold searchImages.
    destruct browser; [|discriminate].
    destruct (newPage run); [discriminate|].
    destruct (close run); [discriminate|].
    destruct (searchBody cfg run kd) as [l|e] eqn:Hbody.
    + intros [= <-]. exact (searchBody_ok cfg kd run Hbody).
    + intros [= <-]. apply collected_ok_nil.
  - intros Hb Hn Hc. unfold searchImages.
    destruct browser; [|congruence]. rewrite Hn, Hc.
    destruct (searchBody cfg run kd) as [l|e]; eexists; split;
      try reflexivity; cbn [threw]; congruence.
  - intros ->. reflexivity.
Qed.

Lemma searchImages_result_witness :
  (exists a b,
      searchImages sample_scraping (Some tt) quiet_run sample_keyword
      = Returned [a; b]
      /\ NoDup (map url [a; b])
      /\ Forall (fun img => 0.85 <= relevanceScore img) [a; b])
  /\ searchImages sample_scraping (Some tt) failing_scroll_run sample_keyword
     = Returned [].
Proof.
  pose proof (@searchImages_result sample_scraping (Some tt) quiet_run
                sample_keyword) as (Hok & _ & _).
  pose proof (@searchImages_result sample_scraping (Some tt)
                failing_scroll_run sample_keyword) as (_ & Hret & _).
  split.
  - eexists _, _. split; [vm_compute; reflexivity|].
    specialize (Hok _ ltac:(vm_compute; reflexivity)).
    destruct Hok as (Hnd & _ & Hthr). split; [exact Hnd | exact Hthr].
  - destruct Hret as (images & Hrun & Hempty);
      [discriminate | reflexivity | reflexivity |].
    rewrite Hrun. f_equal. apply Hempty. vm_compute. reflexivity.
Defined.

End ScraperSpec.

(** ** Image normalisation *)

Module ProcessorSpec.
Import Js Processor.
Open Scope Z_scope.

Section QualitySearch.
Variable toBuffer : Pipeline -> Jpeg.t -> outcome Buffer.
Variable options : ProcessingOptions.

(** Quality [q] yields an encoding within the size ceiling. *)
Definition fits (pipeline : Pipeline) (q : Z) : Prop :=
  exists b, toBuffer pipeline (searchOptions q) = Returned b
            /\ byteLength b <= maxFileSize options.

(** The best buffer of a state is the encoding at the best quality, and
    it fits. *)
Definition best_is (pipeline : Pipeline) (st : SearchState) (q : Z) : Prop :=
  exists b, bestBuffer st = Some b /\ bestQuality st = q
            /\ toBuffer pipeline (searchOptions q) = Returned b
            /\ byteLength b <= maxFileSize options.

(** A recorded best buffer is the encoding at the recorded best quality,
    that quality lies in [lo..hi], and the buffer fits. *)
Definition best_ok (pipeline : Pipeline) (lo hi : Z) (st : SearchState)
  : Prop :=
  forall b, bestBuffer st = Some b ->
    lo <= bestQuality st <= hi
    /\ toBuffer pipeline (searchOptions (bestQuality st)) = Returned b
    /\ byteLength b <= maxFileSize options.

(** Whatever the encoder does, the loop only records encodings that fit,
    at qualities of the searched interval. *)
Lemma qualitySearch_best_ok (pipeline : Pipeline) (lo hi : Z)
    (low high : Z) (st : SearchState) :
  lo <= low -> high <= hi ->
  best_ok pipeline lo hi st ->
  best_ok pipeline lo hi (qualitySearch toBuffer options pipeline low high st).
Proof.
  funelim (qualitySearch toBuffer options pipeline low high st);
    intros Hlo Hhi Hst.
  - exact Hst.
  - pose proof (round_half_sum_bounds Hle). apply H; try lia.
    exact Hst.
  - pose proof (round_half_sum_bounds Hle). apply H; try lia.
    intros b [= <-]. cbn [bestQuality].
    split; [lia | split; [assumption | apply Z.leb_le; assumption]].
  - pose proof (round_half_sum_bounds Hle). apply H; try lia.
    exact Hst.
Qed.


(** When the loop records nothing, nothing was recorded before and the
    lowest quality of a non-empty interval was tried and did not fit. *)
Lemma qualitySearch_none (pipeline : Pipeline) (low high : Z)
    (st : SearchState) :
  bestBuffer (qualitySearch toBuffer options pipeline low high st) = None ->
  bestBuffer st = None /\ (low <= high -> ~ fits pipeline low).
Proof.
  funelim (qualitySearch toBuffer options pipeline low high st);
    intros Hnone.
  - split; [exact Hnone | lia].
  - pose proof (round_half_sum_bounds Hle) as Hb.
    destruct (H Hnone) as [Hst Hlow]. cbn [bestBuffer] in Hst.
    split; [exact Hst|]. intros _.
    destruct (Z_le_gt_dec lowQuality
                (round_half_sum lowQuality highQuality - 1)) as [Hl|Hg].
    + apply Hlow; exact Hl.
    + assert (Hcur : round_half_sum lowQuality highQuality = lowQuality) by lia.
      rewrite Hcur in Heq. intros (b & Hb1 & _). congruence.
  - destruct (H Hnone) as [Hst _]. discriminate.
  - pose proof (round_half_sum_bounds Hle) as Hb.
    destruct (H Hnone) as [Hst Hlow].
    split; [exact Hst|]. intros _.
    destruct (Z_le_gt_dec lowQuality
                (round_half_sum lowQuality highQuality - 1)) as [Hl|Hg].
    + apply Hlow; exact Hl.
    + assert (Hcur : round_half_sum lowQuality highQuality = lowQuality) by lia.
      rewrite Hcur in Heq0. intros (b & Hb1 & Hb2).
      rewrite Hb1 in Heq0. injection Heq0 as <-.
      apply Z.leb_gt in Heq. lia.
Qed.

(** Without encoder failures on the interval the loop logs nothing. *)
Lemma qualitySearch_quiet (pipeline : Pipeline) (low high : Z)
    (st : SearchState) :
  (forall q, low <= q <= high ->
     exists b, toBuffer pipeline (searchOptions q) = Returned b) ->
  warnings (qualitySearch toBuffer options pipeline low high st) = warnings st.
Proof.
  funelim (qualitySearch toBuffer options pipeline low high st);
    intros Htotal.
  - reflexivity.
  - pose proof (round_half_sum_bounds Hle) as Hb.
    destruct (Htotal (round_half_sum lowQuality highQuality) Hb) as [b Hq].
    congruence.
  - pose proof (round_half_sum_bounds Hle) as Hb.
    rewrite H; [reflexivity|]. intros q Hq. apply Htotal. lia.
  - pose proof (round_half_sum_bounds Hle) as Hb.
    rewrite H; [reflexivity|]. intros q Hq. apply Htotal. lia.
Qed.

(** The bracket kept by the loop when fitting is downward closed on
    [lo..hi]: everything below [low] fits, nothing above [high] does, and
    the recorded best quality is [low - 1]. *)
Definition bracket (pipeline : Pipeline) (lo hi low high : Z)
    (st : SearchState) : Prop :=
  lo <= low /\ low <= high + 1 /\ high <= hi
  /\ (forall q, lo <= q < low -> fits pipeline q)
  /\ (forall q, high < q <= hi -> ~ fits pipeline q)
  /\ match bestBuffer st with
     | Some _ => bestQuality st = low - 1
     | None => low = lo
     end.

Lemma qualitySearch_bracket (pipeline : Pipeline) (lo hi : Z)
    (low high : Z) (st : SearchState) :
  (forall q1 q2, lo <= q1 -> q1 <= q2 -> q2 <= hi ->
     fits pipeline q2 -> fits pipeline q1) ->
  bracket pipeline lo hi low high st ->
  exists top,
    bracket pipeline lo hi (top + 1) top
            (qualitySearch toBuffer options pipeline low high st).
Proof.
  funelim (qualitySearch toBuffer options pipeline low high st);
    intros Hdown (Hlo & Hlh & Hhi & Hbelow & Habove & Hbest).
  - exists highQuality.
    replace (highQuality + 1) with lowQuality by lia.
    repeat (split; [assumption || lia|]). exact Hbest.
  - pose proof (round_half_sum_bounds Hle) as Hb.
    apply H; [exact Hdown|].
    assert (Hunfit : ~ fits pipeline (round_half_sum lowQuality highQuality)).
    { intros (b & Hb1 & _). congruence. }
    repeat (split; [assumption || lia|]).
    split; [|exact Hbest].
    intros q Hq Hfit.
    destruct (Z_le_gt_dec q highQuality) as [Hqh|Hqh].
    + apply Hunfit.
      apply (Hdown (round_half_sum lowQuality highQuality) q); try lia.
      exact Hfit.
    + apply (Habove q); [lia | exact Hfit].
  - pose proof (round_half_sum_bounds Hle) as Hb.
    apply H; [exact Hdown|].
    assert (Hfit : fits pipeline (round_half_sum lowQuality highQuality)).
    { exists buffer. split; [assumption | apply Z.leb_le; assumption]. }
    repeat (split; [assumption || lia|]).
    split; [|split; [exact Habove | cbn; lia]].
    intros q Hq.
    apply (Hdown q (round_half_sum lowQuality highQuality)); try lia.
    exact Hfit.
  - pose proof (round_half_sum_bounds Hle) as Hb.
    apply H; [exact Hdown|].
    assert (Hunfit : ~ fits pipeline (round_half_sum lowQuality highQuality)).
    { intros (b & Hb1 & Hb2). rewrite Hb1 in Heq0. injection Heq0 as <-.
      apply Z.leb_gt in Heq. lia. }
    repeat (split; [assumption || lia|]).
    split; [|exact Hbest].
    intros q Hq Hfit.
    destruct (Z_le_gt_dec q highQuality) as [Hqh|Hqh].
    + apply Hunfit.
      apply (Hdown (round_half_sum lowQuality highQuality) q); try lia.
      exact Hfit.
    + apply (Habove q); [lia | exact Hfit].
Qed.


Let qmin := min (jpegQuality options).
Let qmax := max (jpegQuality options).

(** The encoder returns a buffer at every quality of the band. *)
Definition encoder_total (pipeline : Pipeline) : Prop :=
  forall q, qmin <= q <= qmax ->
    exists b, toBuffer pipeline (searchOptions q) = Returned b.

(** The byte size of the encoding is non-decreasing in the quality. *)
Definition size_monotone (pipeline : Pipeline) : Prop :=
  forall q1 q2 b1 b2, qmin <= q1 -> q1 <= q2 -> q2 <= qmax ->
    toBuffer pipeline (searchOptions q1) = Returned b1 ->
    toBuffer pipeline (searchOptions q2) = Returned b2 ->
    byteLength b1 <= byteLength b2.

Lemma fits_downward (pipeline : Pipeline) :
  encoder_total pipeline -> size_monotone pipeline ->
  forall q1 q2, qmin <= q1 -> q1 <= q2 -> q2 <= qmax ->
    fits pipeline q2 -> fits pipeline q1.
Proof.
  intros Htot Hmono q1 q2 H1 H12 H2 (b2 & Hb2 & Hsize).
  destruct (Htot q1 ltac:(lia)) as [b1 Hb1].
  exists b1. split; [exact Hb1|].
  pose proof (Hmono q1 q2 b1 b2 H1 H12 H2 Hb1 Hb2). lia.
Qed.

Lemma initial_bracket (pipeline : Pipeline) :
  qmin <= qmax ->
  bracket pipeline qmin qmax qmin qmax
          {| bestBuffer := None; bestQuality := qmax; warnings := [] |}.
Proof.
  intros Hband. unfold bracket. cbn [bestBuffer].
  split; [lia|]. split; [lia|]. split; [lia|].
  split; [intros q Hq; lia|]. split; [intros q Hq; lia | reflexivity].
Qed.

Lemma initial_best_ok (pipeline : Pipeline) :
  best_ok pipeline qmin qmax
          {| bestBuffer := None; bestQuality := qmax; warnings := [] |}.
Proof. intros b Hb. discriminate. Qed.

(** The options object of the encode attempt at quality [q] inside the
    loop, and of the encode at the lowest quality after it, as the source
    writes them. *)
Definition attemptAt (q : Z) : Jpeg.t :=
  {| Jpeg.quality := q; Jpeg.progressive := true; Jpeg.mozjpeg := true;
     Jpeg.optimiseScans := Some true; Jpeg.quantisationTable := Some 3 |}.

Definition fallbackAt (q : Z) : Jpeg.t :=
  {| Jpeg.quality := q; Jpeg.progressive := true; Jpeg.mozjpeg := true;
     Jpeg.optimiseScans := None; Jpeg.quantisationTable := None |}.

(** Quality [q] is within the ceiling: the attempt at [q] returns a
    buffer of at most [maxFileSize] bytes.  An attempt that throws is not
    within the ceiling; the loop treats it like a buffer that is too
    large. *)
Definition withinCeiling (pipeline : Pipeline) (q : Z) : Prop :=
  exists b, toBuffer pipeline (attemptAt q) = Returned b
            /\ byteLength b <= maxFileSize options.

(** The size is non-decreasing in the quality, a failing attempt counting
    as too large: when the attempt at a quality of the band is within the
    ceiling, so is the attempt at every lower quality of the band. *)
Definition monotone_sizes (pipeline : Pipeline) : Prop :=
  forall q1 q2, qmin <= q1 -> q1 <= q2 -> q2 <= qmax ->
    withinCeiling pipeline q2 -> withinCeiling pipeline q1.

(** An encoder that returns a buffer at every quality of the band, with
    sizes that do not decrease, has monotone sizes in this sense. *)
Lemma total_monotone_sizes (pipeline : Pipeline) :
  encoder_total pipeline -> size_monotone pipeline ->
  monotone_sizes pipeline.
Proof.
  intros Htot Hmono q1 q2 H1 H12 H2.
  apply (fits_downward Htot Hmono); assumption.
Qed.

(** C5.  If the encoder's output size is non-decreasing in the quality
    (a failing attempt counting as too large) and some quality of the
    band [min..max] yields an encoding of at most [maxFileSize] bytes, the
    binary search of [optimizeJpegQuality] returns the highest such
    quality together with the buffer that the attempt at that quality
    produced. *)
Theorem optimizeJpegQuality_highest_fitting (pipeline : Pipeline) :
  monotone_sizes pipeline ->
  (exists q0, qmin <= q0 <= qmax /\ withinCeiling pipeline q0) ->
  exists q b,
    snd (optimizeJpegQuality toBuffer options pipeline) = Returned (b, q)
    /\ qmin <= q <= qmax
    /\ toBuffer pipeline
         {| Jpeg.quality := q; Jpeg.progressive := true;
            Jpeg.mozjpeg := true; Jpeg.optimiseScans := Some true;
            Jpeg.quantisationTable := Some 3 |}
       = Returned b
    /\ byteLength b <= maxFileSize options
    /\ forall q', qmin <= q' <= qmax -> withinCeiling pipeline q' -> q' <= q.
Proof.
  intros Hdown (q0 & Hq0 & Hfit0).
  assert (Hband : qmin <= qmax) by lia.
  destruct (qualitySearch_bracket (lo := qmin) (hi := qmax) Hdown
              (initial_bracket pipeline Hband))
    as (top & Hlo & _ & Hhi & Hbelow & Habove & Hbest).
  pose proof (qualitySearch_best_ok (lo := qmin) (hi := qmax)
                (low := qmin) (high := qmax)
                ltac:(lia) ltac:(lia) (initial_best_ok pipeline)) as Hok.
  unfold optimizeJpegQuality. fold qmin qmax.
  destruct (bestBuffer (qualitySearch toBuffer options pipeline qmin qmax _))
    as [b|] eqn:Hbb.
  - destruct (Hok b Hbb) as (Hq & Henc & Hsize).
    eexists _, b. cbn [snd]. split; [reflexivity|].
    split; [exact Hq|]. split; [exact Henc|]. split; [exact Hsize|].
    intros q' Hq' Hfit'.
    destruct (Z_le_gt_dec q' top) as [Hle|Hgt]; [lia|].
    exfalso. apply (Habove q'); [lia | exact Hfit'].
  - exfalso.
    destruct (Z_le_gt_dec q0 top) as [Hle|Hgt].
    + lia.
    + apply (Habove q0); [lia | exact Hfit0].
Qed.

End QualitySearch.

Section ProcessImage.
Variable metadata : string -> outcome Metadata.t.
Variable toBuffer : Pipeline -> Jpeg.t -> outcome Buffer.
Variable writeError : string -> option Error.
Variable options : ProcessingOptions.

Let qmin := min (jpegQuality options).
Let qmax := max (jpegQuality options).

Lemma finalCheck_fallback_only (b : Buffer) :
  finalCheck options b = []
  \/ finalCheck options b
     = [StillTooLarge (byteLength b) (maxFileSize options)]
       /\ byteLength b > maxFileSize options.
Proof.
  unfold finalCheck.
  destruct (byteLength b >? maxFileSize options) eqn:E.
  - right. split; [reflexivity | apply Z.gtb_gt; exact E].
  - left. reflexivity.
Qed.

(** What [optimizeJpegQuality] returns, whatever the encoder does: a
    quality of the band, and either a buffer that fits or the outcome of
    the encode at the minimum quality after the loop, reached only when
    the attempt of the loop at the minimum quality was not within the
    ceiling. *)
Lemma optimizeJpegQuality_returned (pipeline : Pipeline) (b : Buffer) (q : Z) :
  qmin <= qmax ->
  snd (optimizeJpegQuality toBuffer options pipeline) = Returned (b, q) ->
  qmin <= q <= qmax
  /\ (byteLength b <= maxFileSize options
      \/ (q = qmin
          /\ toBuffer pipeline
               {| Jpeg.quality := qmin; Jpeg.progressive := true;
                  Jpeg.mozjpeg := true; Jpeg.optimiseScans := None;
                  Jpeg.quantisationTable := None |}
             = Returned b
          /\ ~ withinCeiling toBuffer options pipeline qmin)).
Proof.
  intros Hband. unfold optimizeJpegQuality. fold qmin qmax.
  pose proof (qualitySearch_best_ok (toBuffer := toBuffer) (options := options)
                (lo := qmin) (hi := qmax) (low := qmin) (high := qmax)
                ltac:(lia) ltac:(lia)
                (initial_best_ok toBuffer options pipeline)) as Hok.
  fold qmin qmax in Hok.
  destruct (bestBuffer (qualitySearch toBuffer options pipeline qmin qmax _))
    as [bb|] eqn:Hbb.
  - cbn [snd]. intros [= <- <-].
    destruct (Hok bb Hbb) as (Hq & _ & Hsize).
    split; [exact Hq | left; exact Hsize].
  - apply qualitySearch_none in Hbb. destruct Hbb as [_ Hunfit].
    destruct (toBuffer pipeline (fallbackOptions qmin)) as [fb|e] eqn:Hfb;
      cbn [snd]; [|discriminate].
    intros [= <- <-]. split; [lia|].
    right. split; [reflexivity|]. split; [exact Hfb|].
    apply Hunfit. exact Hband.
Qed.

Lemma statSize_writeFile (fs : FileSystem) (path : string) (data : Buffer) :
  statSize (writeFile fs path data) path = Returned (byteLength data).
Proof. unfold statSize, writeFile. rewrite String.eqb_refl. reflexivity. Qed.

(** C1.  What [processImage] guarantees by design.  With a quality band
    [min <= max], whenever it completes without throwing the reported
    width and height equal the configured target, the chosen quality lies
    in the band, the reported size is the size of the file written, and
    that size is at most [maxFileSize] unless the search found no fitting
    encoding: then the quality is [min], the file is the encoding made at
    [min] after the loop, whatever its size, and the attempt of the loop
    at [min] was not within the ceiling. *)
Theorem processImage_postcondition (fs fs' : FileSystem)
    (startTime endTime : Z) (inputPath outputPath : string)
    (info : ProcessedImageInfo) :
  qmin <= qmax ->
  processImage metadata toBuffer writeError options
               fs startTime endTime inputPath outputPath
  = Returned (fs', info) ->
  width info = targetWidth options
  /\ height info = targetHeight options
  /\ qmin <= quality info <= qmax
  /\ (exists buffer,
        fs' outputPath = Some buffer
        /\ processedSize info = byteLength buffer
        /\ (byteLength buffer <= maxFileSize options
            \/ exists pipeline,
                 preparePipeline metadata options inputPath = Returned pipeline
                 /\ quality info = qmin
                 /\ toBuffer pipeline
                      {| Jpeg.quality := qmin; Jpeg.progressive := true;
                         Jpeg.mozjpeg := true; Jpeg.optimiseScans := None;
                         Jpeg.quantisationTable := None |}
                    = Returned buffer
                 /\ ~ withinCeiling toBuffer options pipeline qmin)).
Proof.
  intros Hband. unfold processImage.
  destruct (statSize fs inputPath) as [originalSize|e]; cbn [bind];
    [|discriminate].
  destruct (preparePipeline metadata options inputPath) as [pipeline|e]
    eqn:Hprep; cbn [bind]; [|discriminate].
  destruct (snd (optimizeJpegQuality toBuffer options pipeline))
    as [[buffer q]|e] eqn:Hopt; cbn [bind]; [|discriminate].
  destruct (writeError outputPath); [discriminate|].
  rewrite statSize_writeFile. cbn [bind]. intros [= <- <-].
  cbn [width height quality processedSize].
  destruct (optimizeJpegQuality_returned pipeline Hband Hopt) as [Hq Hsize].
  split; [reflexivity|]. split; [reflexivity|]. split; [exact Hq|].
  exists buffer. split.
  - unfold writeFile. rewrite String.eqb_refl. reflexivity.
  - split; [reflexivity|].
    destruct Hsize as [Hfit | (Hmin & Hfb & Hunfit)]; [left; exact Hfit|].
    right. exists pipeline.
    split; [reflexivity|]. split; [exact Hmin|]. split; [exact Hfb|].
    exact Hunfit.
Qed.

(** C6.  The path taken when nothing fits.  When the attempt at the
    minimum quality returns a buffer larger than [maxFileSize] and sizes
    are non-decreasing in the quality (a failing attempt counting as too
    large), the search finds nothing: [optimizeJpegQuality] returns the
    encoding made at the minimum quality after the loop as a success, the
    last thing it logs being the warning of the final check when that
    buffer is too large, and [processImage] writes this buffer and reports
    success with [quality = min].  No error is raised. *)
Theorem oversized_minimum_is_a_success (pipeline : Pipeline)
    (b0 b : Buffer) :
  qmin <= qmax ->
  monotone_sizes toBuffer options pipeline ->
  toBuffer pipeline
    {| Jpeg.quality := qmin; Jpeg.progressive := true; Jpeg.mozjpeg := true;
       Jpeg.optimiseScans := Some true; Jpeg.quantisationTable := Some 3 |}
  = Returned b0 ->
  byteLength b0 > maxFileSize options ->
  toBuffer pipeline
    {| Jpeg.quality := qmin; Jpeg.progressive := true; Jpeg.mozjpeg := true;
       Jpeg.optimiseScans := None; Jpeg.quantisationTable := None |}
  = Returned b ->
  (exists logged,
     optimizeJpegQuality toBuffer options pipeline
     = (logged ++ finalCheck options b, Returned (b, qmin)))
  /\ forall fs startTime endTime inputPath outputPath originalSize,
       statSize fs inputPath = Returned originalSize ->
       preparePipeline metadata options inputPath = Returned pipeline ->
       writeError outputPath = None ->
       processImage metadata toBuffer writeError options
                    fs startTime endTime inputPath outputPath
       = Returned
           (writeFile fs outputPath b,
            {| originalPath := inputPath;
               processedPath := outputPath;
               originalSize := originalSize;
               processedSize := byteLength b;
               width := targetWidth options;
               height := targetHeight options;
               format := "jpeg";
               quality := qmin;
               processingTime := endTime - startTime |}).
Proof.
  intros Hband Hmono Hb0 Hbig Hfb.
  assert (Hnone : forall q, qmin <= q <= qmax ->
                            ~ withinCeiling toBuffer options pipeline q).
  { intros q Hq Hfit.
    destruct (Hmono qmin q ltac:(lia) ltac:(lia) ltac:(lia) Hfit)
      as (b1 & Hb1 & Hsize).
    unfold attemptAt in Hb1. fold qmin in Hb1. rewrite Hb0 in Hb1.
    injection Hb1 as <-. lia. }
  assert (Hopt : exists logged,
             optimizeJpegQuality toBuffer options pipeline
             = (logged ++ finalCheck options b, Returned (b, qmin))).
  { unfold optimizeJpegQuality. fold qmin qmax.
    pose proof (qualitySearch_best_ok (toBuffer := toBuffer)
                  (options := options)
                  (lo := qmin) (hi := qmax) (low := qmin) (high := qmax)
                  ltac:(lia) ltac:(lia)
                  (initial_best_ok toBuffer options pipeline)) as Hok.
    fold qmin qmax in Hok.
    destruct (bestBuffer (qualitySearch toBuffer options pipeline qmin qmax _))
      as [bb|] eqn:Hbb.
    - exfalso. destruct (Hok bb Hbb) as (Hq & Henc & Hsize).
      apply (Hnone _ Hq). exists bb. split; assumption.
    - change (fallbackOptions qmin)
        with {| Jpeg.quality := qmin; Jpeg.progressive := true;
                Jpeg.mozjpeg := true; Jpeg.optimiseScans := None;
                Jpeg.quantisationTable := None |}.
      rewrite Hfb. eexists. reflexivity. }
  split; [exact Hopt|].
  destruct Hopt as [logged Hopt].
  intros fs startTime endTime inputPath outputPath originalSize
         Hstat Hprep Hwrite.
  unfold processImage. rewrite Hstat. cbn [bind]. rewrite Hprep. cbn [bind].
  rewrite Hopt. cbn [snd bind]. rewrite Hwrite, statSize_writeFile.
  reflexivity.
Qed.

End ProcessImage.

(** *** The step-down loop of [ImageProcessor.processImage]

    The other image processor of the repository reports success only for
    a buffer within the ceiling, and an error when no attempt fits. *)

Section StepDown.
Variable encode : Z -> outcome ImageProcessor.Buffer.
Variable maxFileSize : Z.

Lemma attempt_fits (remaining : nat) :
  forall (q : Z) (result : ImageProcessor.ProcessingResult),
    ImageProcessor.attempt encode maxFileSize remaining q = inl result ->
    ImageProcessor.success result = true
    /\ exists b, ImageProcessor.written result = Some b
                 /\ ImageProcessor.processedSize result
                    = Some (ImageProcessor.byteLength b)
                 /\ ImageProcessor.byteLength b <= maxFileSize.
Proof.
  induction remaining as [|remaining IH]; intros q result;
    cbn [ImageProcessor.attempt]; [discriminate|].
  destruct (q >=? ImageProcessor.minQuality); [|discriminate].
  destruct (encode q) as [b|e]; [|discriminate].
  destruct (ImageProcessor.byteLength b <=? maxFileSize) eqn:Hfit.
  - intros [= <-]. split; [reflexivity|]. exists b.
    split; [reflexivity|]. split; [reflexivity|]. apply Z.leb_le. exact Hfit.
  - apply IH.
Qed.

Lemma compress_success_fits (quality : Z) :
  ImageProcessor.success (ImageProcessor.compress encode maxFileSize quality)
  = true ->
  exists b,
    ImageProcessor.written (ImageProcessor.compress encode maxFileSize quality)
    = Some b
    /\ ImageProcessor.byteLength b <= maxFileSize.
Proof.
  unfold ImageProcessor.compress.
  destruct (ImageProcessor.attempt encode maxFileSize
              ImageProcessor.maxAttempts quality) as [result|q] eqn:Hatt.
  - intros _. destruct (attempt_fits _ _ Hatt) as (_ & b & Hw & _ & Hfit).
    exists b. split; assumption.
  - cbn [ImageProcessor.success]. discriminate.
Qed.

Lemma attempt_oversized (remaining : nat) :
  (forall q b, encode q = Returned b ->
               ImageProcessor.byteLength b > maxFileSize) ->
  forall q, exists q',
    ImageProcessor.attempt encode maxFileSize remaining q = inr q'.
Proof.
  intros Hbig. induction remaining as [|remaining IH]; intros q;
    cbn [ImageProcessor.attempt]; [eexists; reflexivity|].
  destruct (q >=? ImageProcessor.minQuality); [|eexists; reflexivity].
  destruct (encode q) as [b|e] eqn:He; [|eexists; reflexivity].
  specialize (Hbig q b He).
  destruct (Z.leb_spec (ImageProcessor.byteLength b) maxFileSize); [lia|].
  apply IH.
Qed.

(** When every encoding is too large it writes nothing and reports an
    error. *)
Lemma compress_oversized_is_an_error (quality : Z) :
  (forall q b, encode q = Returned b ->
               ImageProcessor.byteLength b > maxFileSize) ->
  let result := ImageProcessor.compress encode maxFileSize quality in
  ImageProcessor.success result = false
  /\ ImageProcessor.written result = None
  /\ ImageProcessor.error result <> None.
Proof.
  intros Hbig. unfold ImageProcessor.compress.
  destruct (attempt_oversized ImageProcessor.maxAttempts Hbig quality)
    as [q' ->].
  cbn. repeat split. discriminate.
Qed.

End StepDown.

(** *** Concrete runs *)

(** A small configuration: 64 x 64 thumbnails, qualities 50..80, at most
    500 bytes. *)
Definition thumbnail_options : ProcessingOptions :=
  {| targetWidth := 64; targetHeight := 64;
     jpegQuality := {| min := 50; max := 80 |};
     maxFileSize := 500;
     preserveAspectRatio := true;
     enableSharpening := true;
     enableNoiseReduction := true |}.

(** An encoder whose output has [bytesPerQuality * quality] bytes,
    whatever operations were queued: the encoder of a Sharp build that
    accepts every step of the pipeline. *)
Definition linear_encoder (bytesPerQuality : Z) (_ : Pipeline) (o : Jpeg.t)
  : outcome Buffer :=
  Returned (repeat Byte.x00 (Z.to_nat (bytesPerQuality * Jpeg.quality o))).

Definition metadata_of (w h : Z) (_ : string) : outcome Metadata.t :=
  Returned (Metadata.mk (Some w) (Some h)).

Definition no_write_error (_ : string) : option Error := None.

Definition raw_files : FileSystem :=
  fun p => if String.eqb p "raw/female/student/a.jpg"
           then Some (repeat Byte.xff 2000) else None.

(** The pipeline that [processImage] builds for a 2000 x 1000 input. *)
Definition wide_pipeline : Pipeline :=
  {| input := "raw/female/student/a.jpg";
     operations :=
       [ rotate; toColorspace "rgb";
         resize 128 64 cover; extract 32 0 64 64;
         median 2; blur 0.3; sharpen 1 1 2 ] |}.

Lemma wide_pipeline_prepared :
  preparePipeline (metadata_of 2000 1000) thumbnail_options
                  "raw/female/student/a.jpg"
  = Returned wide_pipeline.
Proof. vm_compute. reflexivity. Qed.

Lemma linear_encoder_total (k : Z) (pipeline : Pipeline) :
  encoder_total (linear_encoder k) thumbnail_options pipeline.
Proof. intros q _. eexists. reflexivity. Qed.

Lemma linear_encoder_monotone (k : Z) (pipeline : Pipeline) :
  0 <= k -> size_monotone (linear_encoder k) thumbnail_options pipeline.
Proof.
  intros Hk q1 q2 b1 b2 H1 H12 H2 [= <-] [= <-].
  unfold byteLength. rewrite !repeat_length. cbn [Jpeg.quality searchOptions].
  nia.
Qed.

(** With 8 bytes per quality point the encodings at 50..62 fit in 500
    bytes and the search returns quality 62. *)
Example search_returns_62 :
  snd (optimizeJpegQuality (linear_encoder 8) thumbnail_options wide_pipeline)
  = Returned (repeat Byte.x00 496, 62).
Proof. vm_compute. reflexivity. Qed.

(** An encoder that produces [bytesPerQuality * quality] bytes up to the
    quality [limit] and fails above it. *)
Definition failing_above (limit bytesPerQuality : Z) (_ : Pipeline)
    (o : Jpeg.t) : outcome Buffer :=
  if Jpeg.quality o >? limit
  then Threw (mkError true "Input buffer contains unsupported image format")
  else Returned
         (repeat Byte.x00 (Z.to_nat (bytesPerQuality * Jpeg.quality o))).

Lemma failing_above_monotone (limit k : Z) (pipeline : Pipeline) :
  0 <= k ->
  monotone_sizes (failing_above limit k) thumbnail_options pipeline.
Proof.
  intros Hk q1 q2 H1 H12 H2 (b2 & Hb2 & Hsize).
  unfold failing_above in Hb2. cbn [Jpeg.quality attemptAt] in Hb2.
  destruct (Z.gtb_spec q2 limit) as [|Hle]; [discriminate|].
  injection Hb2 as <-.
  unfold withinCeiling, failing_above. cbn [Jpeg.quality attemptAt].
  destruct (Z.gtb_spec q1 limit) as [|_]; [lia|].
  eexists. split; [reflexivity|].
  unfold byteLength in *. rewrite repeat_length in *. nia.
Qed.

(** The attempts at 65 and 61 fail, those at 57, 59 and 60 fit: the
    search returns quality 60. *)
Lemma optimizeJpegQuality_highest_fitting_witness :
  exists q b,
    snd (optimizeJpegQuality (failing_above 60 8) thumbnail_options
                             wide_pipeline)
    = Returned (b, q)
    /\ 50 <= q <= 80
    /\ failing_above 60 8 wide_pipeline
         {| Jpeg.quality := q; Jpeg.progressive := true;
            Jpeg.mozjpeg := true; Jpeg.optimiseScans := Some true;
            Jpeg.quantisationTable := Some 3 |}
       = Returned b
    /\ byteLength b <= 500
    /\ forall q', 50 <= q' <= 80 ->
         withinCeiling (failing_above 60 8) thumbnail_options wide_pipeline q'
         -> q' <= q.
Proof.
  apply (@optimizeJpegQuality_highest_fitting
           (failing_above 60 8) thumbnail_options wide_pipeline).
  - apply failing_above_monotone. lia.
  - exists 50. split; [simpl; lia|].
    eexists. split; [reflexivity|]. vm_compute. discriminate.
Defined.

Example search_with_failures_returns_60 :
  optimizeJpegQuality (failing_above 60 8) thumbnail_options wide_pipeline
  = ([ EncodeFailed 65
         (mkError true "Input buffer contains unsupported image format");
       EncodeFailed 61
         (mkError true "Input buffer contains unsupported image format") ],
     Returned (repeat Byte.x00 480, 60)).
Proof. vm_compute. reflexivity. Qed.


Lemma processImage_postcondition_witness :
  exists fs' info,
    processImage (metadata_of 2000 1000) (linear_encoder 8) no_write_error
                 thumbnail_options raw_files 0 35
                 "raw/female/student/a.jpg" "processed/female/student/a.jpg"
    = Returned (fs', info)
    /\ width info = 64 /\ height info = 64
    /\ 50 <= quality info <= 80
    /\ processedSize info <= 500.
Proof.
  eexists _, _. split; [vm_compute; reflexivity|].
  destruct (@processImage_postcondition
              (metadata_of 2000 1000) (linear_encoder 8) no_write_error
              thumbnail_options raw_files _ 0 35
              "raw/female/student/a.jpg" "processed/female/student/a.jpg" _
              ltac:(simpl; lia) ltac:(vm_compute; reflexivity))
    as (Hw & Hh & Hq & _).
  split; [exact Hw|]. split; [exact Hh|]. split; [exact Hq|].
  vm_compute. discriminate.
Defined.

(** The pipeline built for an 800 x 1200 input. *)
Definition tall_pipeline : Pipeline :=
  {| input := "raw/male/warrior/b.jpg";
     operations :=
       [ rotate; toColorspace "rgb";
         resize 64 96 cover; extract 0 16 64 64;
         median 2; blur 0.3; sharpen 1 1 2 ] |}.

Definition more_raw_files : FileSystem :=
  fun p => if String.eqb p "raw/male/warrior/b.jpg"
           then Some (repeat Byte.xff 3000) else None.


Lemma oversized_minimum_is_a_success_witness :
  (exists logged,
     optimizeJpegQuality (linear_encoder 15) thumbnail_options tall_pipeline
     = (logged ++ finalCheck thumbnail_options (repeat Byte.x00 750),
        Returned (repeat Byte.x00 750, 50)))
  /\ processImage (metadata_of 800 1200) (linear_encoder 15) no_write_error
                  thumbnail_options more_raw_files 0 40
                  "raw/male/warrior/b.jpg" "processed/male/warrior/b.jpg"
     = Returned
         (writeFile more_raw_files "processed/male/warrior/b.jpg"
                    (repeat Byte.x00 750),
          {| originalPath := "raw/male/warrior/b.jpg";
             processedPath := "processed/male/warrior/b.jpg";
             originalSize := 3000;
             processedSize := 750;
             width := 64; height := 64; format := "jpeg";
             quality := 50; processingTime := 40 |}).
Proof.
  destruct (@oversized_minimum_is_a_success
              (metadata_of 800 1200) (linear_encoder 15) no_write_error
              thumbnail_options tall_pipeline
              (repeat Byte.x00 750) (repeat Byte.x00 750)
              ltac:(simpl; lia)
              (total_monotone_sizes
                 (linear_encoder_total 15 tall_pipeline)
                 (@linear_encoder_monotone 15 tall_pipeline ltac:(lia)))
              ltac:(vm_compute; reflexivity)
              ltac:(vm_compute; reflexivity)
              ltac:(vm_compute; reflexivity))
    as [Hopt Hrun].
  split; [exact Hopt|].
  apply (Hrun more_raw_files 0 40 "raw/male/warrior/b.jpg"%string
              "processed/male/warrior/b.jpg"%string 3000).
  - vm_compute. reflexivity.
  - vm_compute. reflexivity.
  - reflexivity.
Defined.

(** On the same encoder the step-down loop of [ImageProcessor] tries
    80, 70, 60, 50 and then reports that it is unable to compress. *)
Example step_down_reports_error :
  ImageProcessor.compress
    (fun q => linear_encoder 15 tall_pipeline (searchOptions q)) 500 80
  = {| ImageProcessor.success := false;
       ImageProcessor.processedSize := None;
       ImageProcessor.written := None;
       ImageProcessor.error := Some (ImageProcessor.UnableToCompress 500 50) |}.
Proof. vm_compute. reflexivity. Qed.

End ProcessorSpec.

(** ** Persistence *)

Module DatabaseSpec.
Import Js Database.
Open Scope Z_scope.

Section TableFacts.
Variable Row : Type.
Variable original_url : Row -> string.

Definition urls (db : Db Row) : list string :=
  map (fun s => original_url (columns s)) (rows db).

(** At most one row per URL. *)
Definition unique (db : Db Row) : Prop := NoDup (urls db).

Lemma hasUrl_false (db : Db Row) (u : string) :
  hasUrl original_url db u = false -> ~ In u (urls db).
Proof.
  unfold hasUrl, urls. intros Hf Hin. apply in_map_iff in Hin.
  destruct Hin as (s & Hs & Hin).
  assert (Ht : existsb (fun s => String.eqb (original_url (columns s)) u)
                       (rows db) = true).
  { apply existsb_exists. exists s. split; [exact Hin|].
    apply String.eqb_eq. exact Hs. }
  congruence.
Qed.

Lemma runInsert_unique (fault : option Error) (mode : OnConflict)
    (db : Db Row) (r : Row) :
  unique db -> unique (fst (runInsert original_url fault mode db r)).
Proof.
  intros Hu. unfold runInsert.
  destruct fault as [e|].
  { destruct mode; [exact Hu|].
    destruct (isConstraintViolation e); exact Hu. }
  destruct (hasUrl original_url db (original_url r)) eqn:Hhas.
  - destruct mode; exact Hu.
  - cbn [fst]. unfold unique, urls in *. cbn [rows].
    rewrite map_app. cbn [map columns].
    apply hasUrl_false in Hhas. unfold urls in Hhas.
    assert (HA : Add (original_url r)
                     (map (fun s => original_url (columns s)) (rows db))
                     (map (fun s => original_url (columns s)) (rows db)
                      ++ [original_url r])).
    { pose proof (Add_app (original_url r)
                    (map (fun s => original_url (columns s)) (rows db)) [])
        as HA.
      rewrite app_nil_r in HA. exact HA. }
    apply (NoDup_Add HA). split; assumption.
Qed.

Lemma insertOne_unique (fault : option Error) (db : Db Row) (r : Row) :
  unique db -> unique (fst (insertOne original_url fault db r)).
Proof.
  intros Hu. unfold insertOne.
  pose proof (runInsert_unique fault Abort r Hu) as H.
  destruct (runInsert original_url fault Abort db r) as [db' [res|e]];
    cbn [fst] in *; [exact H|].
  destruct (isDuplicate e); exact H.
Qed.

Lemma insertEach_unique (faults : nat -> option Error) (records : list Row) :
  forall (i : nat) (db : Db Row) (results : list Z),
    unique db ->
    unique (fst (insertEach original_url faults i db records results)).
Proof.
  induction records as [|r records IH]; intros i db results Hu;
    cbn [insertEach].
  - exact Hu.
  - pose proof (runInsert_unique (faults i) Ignore r Hu) as H.
    destruct (runInsert original_url (faults i) Ignore db r)
      as [db' [res|e]]; cbn [fst] in *.
    + apply IH. exact H.
    + exact H.
Qed.

Lemma insertMany_unique (faults : nat -> option Error) (db : Db Row)
    (records : list Row) :
  unique db -> unique (fst (insertMany original_url faults db records)).
Proof.
  intros Hu. unfold insertMany.
  pose proof (insertEach_unique faults records 0 [] Hu) as H.
  destruct (insertEach original_url faults 0 db records [])
    as [db' [results|e]]; cbn [fst] in *.
  - exact H.
  - exact Hu.
Qed.

Lemma isDuplicate_uniqueViolation : isDuplicate uniqueViolation = true.
Proof. reflexivity. Qed.

(** A single insert of a URL that is already stored: the table is left
    as it is and the call returns -1. *)
Lemma insertOne_duplicate (db : Db Row) (r : Row) :
  hasUrl original_url db (original_url r) = true ->
  insertOne original_url None db r = (db, Returned (-1)).
Proof.
  intros Hhas. unfold insertOne, runInsert. rewrite Hhas.
  rewrite isDuplicate_uniqueViolation. reflexivity.
Qed.

(** A failure that the [catch] block does not recognise is rethrown. *)
Lemma insertOne_rethrows (db : Db Row) (r : Row) (e : Error) :
  isDuplicate e = false ->
  insertOne original_url (Some e) db r = (db, Threw e).
Proof.
  intros He. unfold insertOne, runInsert. rewrite He. reflexivity.
Qed.



End TableFacts.


Lemma perform_unique (db : Advanced.Store) (c : Advanced.Call) :
  unique Advanced.original_url db ->
  unique Advanced.original_url (Advanced.perform db c).
Proof.
  intros Hu. destruct c as [fault record | faults records]; cbn [Advanced.perform].
  - apply insertOne_unique. exact Hu.
  - apply insertMany_unique. exact Hu.
Qed.



Definition sample_record (u : string) : Advanced.ImageRecord :=
  {| Advanced.id := None;
     Advanced.keyword := "anime schoolgirl character uniform";
     Advanced.category := "female";
     Advanced.subcategory := "student";
     Advanced.originalUrl := u;
     Advanced.altText := "anime girl";
     Advanced.localPath := "raw_images/female/student/a.jpg";
     Advanced.fileSize := 48000;
     Advanced.width := 500;
     Advanced.height := 500;
     Advanced.format := "jpg";
     Advanced.jpegQuality := 0;
     Advanced.relevanceScore := 0.95;
     Advanced.collectedAt := 1700000000000;
     Advanced.processedAt := None;
     Advanced.processingStatus := pending |}.

Definition disk_full : Error := mkError true "database or disk is full".

Definition sample_calls : list Advanced.Call :=
  [ Advanced.CallInsertImage None (sample_record "https://cdn.example.com/a.jpg");
    Advanced.CallInsertImagesBatch (fun _ => None)
      [ sample_record "https://cdn.example.com/a.jpg";
        sample_record "https://cdn.example.com/b.jpg";
        sample_record "https://cdn.example.com/b.jpg" ];
    Advanced.CallInsertImagesBatch
      (fun i => if (i =? 1)%nat then Some disk_full else None)
      [ sample_record "https://cdn.example.com/c.jpg";
        sample_record "https://cdn.example.com/d.jpg" ];
    Advanced.CallInsertImage None (sample_record "https://cdn.example.com/b.jpg") ].

Definition sample_store : Advanced.Store :=
  Advanced.performAll (emptyDb Advanced.Row) sample_calls.

(** A store filled by two plain inserts: rows 1 and 2. *)
Definition plain_store : Advanced.Store :=
  Advanced.performAll (emptyDb Advanced.Row)
    [ Advanced.CallInsertImage None
        (sample_record "https://cdn.example.com/a.jpg");
      Advanced.CallInsertImage None
        (sample_record "https://cdn.example.com/b.jpg") ].


(** C10.  In both managers, when the URL of the record is already
    stored, [insertImage] catches the UNIQUE constraint violation and
    returns -1, leaving the table as it is; a failure of the insert that
    is not a UNIQUE constraint violation is rethrown to the caller. *)
Theorem insertImage_duplicate_or_rethrow :
  (forall (db : Advanced.Store) (record : Advanced.ImageRecord),
      Advanced.urlExists db (Advanced.originalUrl record) = true ->
      Advanced.insertImage None db record = (db, Returned (-1)))
  /\ (forall (db : Advanced.Store) (record : Advanced.ImageRecord) (e : Error),
        isDuplicate e = false ->
        Advanced.insertImage (Some e) db record = (db, Threw e))
  /\ (forall (db : Simple.Store) (record : Simple.ImageRecord),
        hasUrl Simple.original_url db (Simple.originalUrl record) = true ->
        Simple.insertImage None db record = (db, Returned (-1)))
  /\ (forall (db : Simple.Store) (record : Simple.ImageRecord) (e : Error),
        isDuplicate e = false ->
        Simple.insertImage (Some e) db record = (db, Threw e)).
Proof.
  repeat split.
  - intros db record Hex. apply insertOne_duplicate. exact Hex.
  - intros db record e He. apply insertOne_rethrows. exact He.
  - intros db record Hex. unfold Simple.insertImage, runInsert.
    change (Simple.original_url (Simple.params record))
      with (Simple.originalUrl record).
    rewrite Hex, isDuplicate_uniqueViolation. reflexivity.
  - intros db record e He. unfold Simple.insertImage, runInsert.
    rewrite He. reflexivity.
Qed.

Definition not_null_violation : Error :=
  mkError true "NOT NULL constraint failed: images.local_path".

Lemma insertImage_duplicate_or_rethrow_witness :
  Advanced.insertImage None sample_store
    (sample_record "https://cdn.example.com/b.jpg")
  = (sample_store, Returned (-1))
  /\ Advanced.insertImage (Some disk_full) sample_store
       (sample_record "https://cdn.example.com/e.jpg")
     = (sample_store, Threw disk_full)
  /\ Advanced.insertImage (Some not_null_violation) sample_store
       (sample_record "https://cdn.example.com/e.jpg")
     = (sample_store, Threw not_null_violation).
Proof.
  destruct insertImage_duplicate_or_rethrow as (Hdup & Hother & _ & _).
  split; [apply Hdup; vm_compute; reflexivity|].
  split; apply Hother; vm_compute; reflexivity.
Defined.

End DatabaseSpec.

(* ===================================================================== *)
(** * Further properties                                                  *)
(* ===================================================================== *)

(** ** The rest of [KeywordUtils] and the keyword loops *)

Module KeywordsSpec.
Import Js Config Keywords.
Open Scope Q_scope.





(** X2.  The distribution lists every keyword of the configuration
    exactly once, in the order of [getAllKeywords], each under the name of
    its category. *)
Theorem distribution_covers_all_keywords (targetTotal : Q)
    (config : AppConfig) :
  map keyword (getWeightedKeywordDistribution targetTotal config)
  = getAllKeywords config
  /\ map category (getWeightedKeywordDistribution targetTotal config)
     = flat_map (fun c => map (fun _ => name c) (keywords c))
                (keywordCategories config).
Proof.
  unfold getWeightedKeywordDistribution, getAllKeywords.
  generalize (totalWeight config). intros W.
  induction (keywordCategories config) as [|c cs [IH1 IH2]]; cbn [flat_map].
  - split; reflexivity.
  - rewrite !map_app, IH1, IH2, !map_map. cbn [keyword category].
    rewrite map_id. split; reflexivity.
Qed.

(** *** Bounds on the targets *)





(** *** How far the distribution can fall short *)



Section Shortfall.
Variables (targetTotal W : Q).

Let allocate (category : KeywordCategory) : list Allocation :=
  let categoryTarget := Math_floor ((targetTotal * weight category) / W) in
  let keywordTarget :=
    Math_floor (inject_Z categoryTarget
                / inject_Z (Z.of_nat (List.length (keywords category)))) in
  map (fun keyword =>
         {| keyword := keyword;
            targetCount := keywordTarget;
            category := name category |})
      (keywords category).


End Shortfall.




(** *** Only the ratios of the weights matter *)





(** *** The loops of the application over the distribution *)


Section Dispatch.
Variable allocate : KeywordCategory -> list Allocation.
Hypothesis allocate_named :
  forall c, Forall (fun a => category a = name c) (allocate c).




End Dispatch.



(** What the searched terms yielded in total. *)
Definition yield (searched : list (string * nat)) : Z :=
  fold_right (fun p acc => (Z.of_nat (snd p) + acc)%Z) 0%Z searched.

Lemma searchTermsLoop_spec (downloaded : nat -> string -> nat)
    (targetCount : Z) (searchTerms : list string) :
  forall (i : nat) (totalCollected : Z),
    let '(total, searched) :=
      searchTermsLoop downloaded targetCount searchTerms i totalCollected in
    (exists rest, searchTerms = map fst searched ++ rest)
    /\ total = (totalCollected + yield searched)%Z
    /\ (map fst searched = searchTerms \/ targetCount <= total)%Z
    /\ (targetCount <= totalCollected -> searched = [])%Z
    /\ (total - yield searched < targetCount \/ searched = [])%Z.
Proof.
  induction searchTerms as [|t rest IH]; intros i totalCollected;
    cbn [searchTermsLoop].
  - split; [exists []; reflexivity|]. cbn. split; [lia|].
    split; [left; reflexivity|]. split; [reflexivity | right; reflexivity].
  - destruct (totalCollected >=? targetCount)%Z eqn:E.
    + rewrite Z.geb_leb in E. apply Z.leb_le in E.
      split; [exists (t :: rest); reflexivity|]. cbn.
      split; [lia|]. split; [right; exact E|].
      split; [reflexivity | right; reflexivity].
    + rewrite Z.geb_leb in E. apply Z.leb_gt in E.
      specialize (IH (S i) (totalCollected + Z.of_nat (downloaded i t))%Z).
      destruct (searchTermsLoop downloaded targetCount rest (S i)
                  (totalCollected + Z.of_nat (downloaded i t))%Z)
        as [total searched].
      destruct IH as ([rest' Hrest] & Htotal & Hstop & _ & _).
      split; [exists rest'; cbn; rewrite <- Hrest; reflexivity|].
      unfold yield in *. cbn [fold_right map fst snd]. split; [lia|].
      split; [|split; [lia | left; lia]].
      destruct Hstop as [-> | Hle]; [left; reflexivity | right; exact Hle].
Qed.

(** X7.  [processKeyword] searches the terms of a keyword in order,
    primary first, and stops as soon as the collected count reaches the
    target: the searched terms are a prefix of the search terms, the total
    is the sum of what they yielded, either every term was searched or the
    target was reached, and with a target of 0 or less nothing is
    searched. *)
Theorem processKeyword_stops_at_target (downloaded : nat -> string -> nat)
    (keyword : KeywordEntry) (targetCount : Z) :
  let '(total, searched) := processKeyword downloaded keyword targetCount in
  (exists rest, getAllSearchTerms keyword = map fst searched ++ rest)
  /\ total = yield searched
  /\ (map fst searched = getAllSearchTerms keyword
      \/ (targetCount <= total)%Z)
  /\ ((targetCount <= 0)%Z -> searched = []).
Proof.
  unfold processKeyword.
  pose proof (searchTermsLoop_spec downloaded targetCount
                (getAllSearchTerms keyword) 0 0%Z) as H.
  destruct (searchTermsLoop downloaded targetCount
              (getAllSearchTerms keyword) 0 0%Z) as [total searched].
  destruct H as (Hp & Ht & Hs & Hz & _).
  split; [exact Hp|]. split; [rewrite Ht; lia|]. split; assumption.
Qed.

End KeywordsSpec.

(** ** Scoring, search and download: further properties *)

Module ScraperMoreSpec.
Import Js Scraper Download.
Open Scope Q_scope.

(** *** Scoring *)

Lemma scoreImage_again (kd : CharacterKeyword) (img : EnhancedImageData) :
  scoreImage kd (scoreImage kd img) = scoreImage kd img.
Proof.
  unfold scoreImage.
  destruct (isClothingOnlyImage (toLowerCase (altText img))
                                (toLowerCase (url img))) eqn:E;
    cbn [altText url set_relevanceScore]; rewrite E; reflexivity.
Qed.

(** X8.  The score of a candidate does not depend on a score it already
    carries: filtering an already filtered list with the same keyword
    changes nothing. *)
Theorem filterRelevantImages_idempotent (cfg : AdvancedScrapingConfig)
    (images : list EnhancedImageData) (kd : CharacterKeyword) :
  filterRelevantImages cfg (filterRelevantImages cfg images kd) kd
  = filterRelevantImages cfg images kd.
Proof.
  unfold filterRelevantImages.
  induction images as [|img images IH]; cbn [map filter]; [reflexivity|].
  destruct (Qle_bool (relevanceThreshold cfg)
                     (relevanceScore (scoreImage kd img))) eqn:E.
  - cbn [map filter]. rewrite scoreImage_again, E, IH. reflexivity.
  - exact IH.
Qed.

Lemma Qsum_nonneg (l : list Q) :
  Forall (fun b => 0 < b /\ b <= 0.15) l -> 0 <= ScraperSpec.Qsum l.
Proof.
  induction 1 as [|b l [Hb _] _ IH]; cbn; [apply Qle_refl|].
  unfold ScraperSpec.Qsum in IH. lra.
Qed.

Lemma inclusionScore_ge_base (kd : CharacterKeyword)
    (img : EnhancedImageData) :
  CharacterKeyword.relevanceScore kd <= inclusionScore kd img.
Proof.
  rewrite ScraperSpec.inclusionScore_sum.
  pose proof (Qsum_nonneg (ScraperSpec.appliedBonuses_bounded kd img)). lra.
Qed.

Lemma ite_bounds (c : bool) (a : Q) :
  0 <= a -> 0 <= (if c then a else 0) <= a.
Proof. intros Ha. destruct c; split; lra. Qed.

Lemma inclusionScore_le (kd : CharacterKeyword) (img : EnhancedImageData) :
  inclusionScore kd img <= CharacterKeyword.relevanceScore kd + 0.63.
Proof.
  rewrite ScraperSpec.inclusionScore_sum.
  unfold ScraperSpec.appliedBonuses. cbv zeta.
  rewrite !ScraperSpec.Qsum_app, !ScraperSpec.Qsum_bonus.
  assert (Hdim :
    ScraperSpec.Qsum
      match dimensions img with
      | Some (w, h) =>
          ScraperSpec.bonus
            (Qle_bool 0.7 (inject_Z w / inject_Z h)
             && Qle_bool (inject_Z w / inject_Z h) 1.5) 0.05
          ++ ScraperSpec.bonus ((300 <=? w) && (w <=? 800))%Z 0.05
      | None => []
      end <= 0.1).
  { destruct (dimensions img) as [[w h]|]; [|cbn; lra].
    rewrite ScraperSpec.Qsum_app, !ScraperSpec.Qsum_bonus.
    pose proof (ite_bounds (Qle_bool 0.7 (inject_Z w / inject_Z h)
                            && Qle_bool (inject_Z w / inject_Z h) 1.5)
                  (a := 0.05) ltac:(lra)).
    pose proof (ite_bounds ((300 <=? w) && (w <=? 800))%Z
                  (a := 0.05) ltac:(lra)).
    lra. }
  repeat match goal with
         | |- context [if ?c then ?a else 0] =>
             let H := fresh "Hb" in
             pose proof (@ite_bounds c a ltac:(lra)) as H;
             generalize dependent (if c then a else 0); intros
         end.
  lra.
Qed.

(** X9.  Whenever the base score is not negative, every scored candidate
    has a relevance score between 0 and 1, and before the cap the
    inclusion pass adds at least nothing and at most 0.63 to the base
    score. *)
Theorem relevanceScore_range (kd : CharacterKeyword)
    (img : EnhancedImageData) :
  0 <= CharacterKeyword.relevanceScore kd ->
  0 <= relevanceScore (scoreImage kd img) <= 1
  /\ CharacterKeyword.relevanceScore kd <= inclusionScore kd img
     <= CharacterKeyword.relevanceScore kd + 0.63.
Proof.
  intros Hbase.
  pose proof (inclusionScore_ge_base kd img) as Hge.
  pose proof (inclusionScore_le kd img) as Hle.
  split; [|split; assumption].
  unfold scoreImage.
  destruct (isClothingOnlyImage _ _); cbn [relevanceScore set_relevanceScore].
  - split; lra.
  - unfold Math_min. destruct (Qle_bool (inclusionScore kd img) 1) eqn:E.
    + apply Qle_bool_iff in E. split; lra.
    + split; lra.
Qed.

Lemma relevanceScore_range_witness :
  0 <= relevanceScore (scoreImage ScraperSpec.sample_keyword
                                  ScraperSpec.hanger_candidate) <= 1
  /\ CharacterKeyword.relevanceScore ScraperSpec.sample_keyword
     <= inclusionScore ScraperSpec.sample_keyword ScraperSpec.hanger_candidate
     <= CharacterKeyword.relevanceScore ScraperSpec.sample_keyword + 0.63.
Proof.
  apply (@relevanceScore_range ScraperSpec.sample_keyword
           ScraperSpec.hanger_candidate).
  vm_compute. discriminate.
Defined.

(** The candidates that the exclusion pass lets through. *)
Definition passesExclusion (img : EnhancedImageData) : bool :=
  negb (isClothingOnlyImage (toLowerCase (altText img))
                            (toLowerCase (url img))).

(** X10.  When the threshold lies in (0, 1] and the base score of the
    keyword reaches it, the inclusion pass rejects nothing: the filter
    keeps exactly the candidates that pass the exclusion pass. *)
Theorem filter_is_the_veto (cfg : AdvancedScrapingConfig)
    (kd : CharacterKeyword) (images : list EnhancedImageData) :
  0 < relevanceThreshold cfg ->
  relevanceThreshold cfg <= 1 ->
  relevanceThreshold cfg <= CharacterKeyword.relevanceScore kd ->
  filterRelevantImages cfg images kd
  = map (scoreImage kd) (filter passesExclusion images).
Proof.
  intros Hpos Hle1 Hbase. unfold filterRelevantImages.
  induction images as [|img images IH]; cbn [map filter]; [reflexivity|].
  rewrite IH.
  assert (Hp : passesExclusion img
               = negb (isClothingOnlyImage (toLowerCase (altText img))
                                           (toLowerCase (url img))))
    by reflexivity.
  rewrite Hp. unfold scoreImage at 1.
  destruct (isClothingOnlyImage (toLowerCase (altText img))
                                (toLowerCase (url img))) eqn:E;
    cbn [negb relevanceScore set_relevanceScore].
  - destruct (Qle_bool (relevanceThreshold cfg) 0) eqn:E0; [|reflexivity].
    apply Qle_bool_iff in E0. lra.
  - assert (Hacc : Qle_bool (relevanceThreshold cfg)
                            (Math_min (inclusionScore kd img) 1) = true).
    { apply Qle_bool_iff. pose proof (inclusionScore_ge_base kd img).
      unfold Math_min. destruct (Qle_bool (inclusionScore kd img) 1); lra. }
    rewrite Hacc. cbn [map]. unfold scoreImage. rewrite ?E. reflexivity.
Qed.

Lemma filter_is_the_veto_witness :
  filterRelevantImages ScraperSpec.sample_scraping
    ScraperSpec.page_candidates ScraperSpec.sample_keyword
  = map (scoreImage ScraperSpec.sample_keyword)
        (filter passesExclusion ScraperSpec.page_candidates).
Proof.
  apply (@filter_is_the_veto ScraperSpec.sample_scraping
           ScraperSpec.sample_keyword ScraperSpec.page_candidates).
  - reflexivity.
  - vm_compute. discriminate.
  - vm_compute. discriminate.
Defined.

(** *** The search reads a bounded number of result pages *)

(** The value of the local constant [maxScrolls] of [searchImages]. *)
Definition pagesRead (cfg : AdvancedScrapingConfig) (kd : CharacterKeyword)
  : nat :=
  Z.to_nat (Z.min (maxScrolls cfg)
                  ((Z.of_nat (CharacterKeyword.targetCount kd) + 19) / 20)).

Lemma scrollLoop_agree (cfg : AdvancedScrapingConfig) (run1 run2 : PageRun)
    (kd : CharacterKeyword) (remaining : nat) :
  forall (scrollCount : nat) (images : list EnhancedImageData),
    (forall i, (scrollCount <= i < scrollCount + remaining)%nat ->
       extractImageData run1 i = extractImageData run2 i
       /\ scrollAndWait run1 i = scrollAndWait run2 i) ->
    scrollLoop cfg run1 kd remaining scrollCount images
    = scrollLoop cfg run2 kd remaining scrollCount images.
Proof.
  induction remaining as [|remaining IH]; intros scrollCount images Hagree;
    cbn [scrollLoop]; [reflexivity|].
  destruct (Hagree scrollCount ltac:(lia)) as [He Hs].
  rewrite He, Hs.
  destruct (List.length images <? CharacterKeyword.targetCount kd)%nat;
    [|reflexivity].
  destruct (extractImageData run2 scrollCount); [|reflexivity].
  destruct (scrollAndWait run2 scrollCount); [reflexivity|].
  apply IH. intros i Hi. apply Hagree. lia.
Qed.

(** X11.  [searchImages] reads at most
    [min(maxScrolls, ceil(targetCount / 20))] result pages: two browser
    runs that agree on that many pages give the same result, whatever
    later pages would show.  With a target count of 0 no page is read. *)
Theorem searchImages_reads_bounded_pages (cfg : AdvancedScrapingConfig)
    (browser : option unit) (run1 run2 : PageRun) (kd : CharacterKeyword) :
  newPage run1 = newPage run2 ->
  navigate run1 = navigate run2 ->
  close run1 = close run2 ->
  (forall i, (i < pagesRead cfg kd)%nat ->
     extractImageData run1 i = extractImageData run2 i
     /\ scrollAndWait run1 i = scrollAndWait run2 i) ->
  searchImages cfg browser run1 kd = searchImages cfg browser run2 kd
  /\ (CharacterKeyword.targetCount kd = 0%nat -> pagesRead cfg kd = 0%nat).
Proof.
  intros Hn Hnav Hc Hagree. split.
  - unfold searchImages, searchBody. rewrite Hn, Hnav, Hc.
    fold (pagesRead cfg kd).
    rewrite (@scrollLoop_agree cfg run1 run2 kd (pagesRead cfg kd) 0%nat []);
      [reflexivity|].
    intros i Hi. apply Hagree. lia.
  - intros H0. unfold pagesRead. rewrite H0.
    change ((Z.of_nat 0 + 19) / 20)%Z with 0%Z. lia.
Qed.

(** A run that shows the candidates on its first eight pages and fails
    afterwards. *)
Definition eight_page_run : PageRun :=
  {| newPage := None; navigate := None;
     extractImageData :=
       fun i => if (i <? 8)%nat then Returned ScraperSpec.page_candidates
                else Threw ScraperSpec.timeout_error;
     scrollAndWait := fun _ => None;
     close := None |}.

Lemma searchImages_reads_bounded_pages_witness :
  searchImages ScraperSpec.sample_scraping (Some tt) eight_page_run
               ScraperSpec.sample_keyword
  = searchImages ScraperSpec.sample_scraping (Some tt) ScraperSpec.quiet_run
                 ScraperSpec.sample_keyword.
Proof.
  apply (@searchImages_reads_bounded_pages ScraperSpec.sample_scraping
           (Some tt) eight_page_run ScraperSpec.quiet_run
           ScraperSpec.sample_keyword); try reflexivity.
  intros i Hi. change (pagesRead _ _) with 8%nat in Hi.
  split; [|reflexivity]. cbn [extractImageData eight_page_run].
  destruct (Nat.ltb_spec i 8); [reflexivity | lia].
Defined.

(** *** [batchDownload] *)

Section BatchDownloadFacts.
Variable fetch : nat -> EnhancedImageData -> string -> option Z.

Lemma downloadFrom_spec (images : list EnhancedImageData) :
  forall (i : nat) (downloaded failed : list EnhancedImageData),
    let '(d, f) := downloadFrom fetch i images downloaded failed in
    Permutation (map url downloaded ++ map url failed ++ map url images)
                (map url d ++ map url f)
    /\ (Forall (fun img => fileSize img <> None) downloaded ->
        Forall (fun img => fileSize img <> None) d)
    /\ (exists f', f = failed ++ f' /\ incl f' images).
Proof.
  induction images as [|image rest IH]; intros i downloaded failed;
    cbn [downloadFrom].
  - cbn [map]. rewrite !app_nil_r. split; [apply Permutation_refl|].
    split; [auto|].
    exists []. rewrite app_nil_r. split; [reflexivity | intros x []].
  - unfold downloadImage.
    destruct (fetch i image (generateFilename image (i + 1))) as [size|].
    + specialize (IH (S i) (downloaded ++ [set_fileSize image size]) failed).
      destruct (downloadFrom fetch (S i) rest
                  (downloaded ++ [set_fileSize image size]) failed) as [d f].
      destruct IH as (Hperm & Hsize & (f' & Hf & Hincl)).
      split.
      { etransitivity; [|exact Hperm].
        rewrite map_app. cbn [map url set_fileSize].
        rewrite <- !app_assoc. apply Permutation_app_head.
        cbn [app]. apply Permutation_sym.
        apply (Permutation_middle (map url failed) (map url rest) (url image)). }
      split.
      { intros Hall. apply Hsize. apply Forall_app. split; [exact Hall|].
        constructor; [discriminate | constructor]. }
      exists f'. split; [exact Hf|]. intros x Hx. right. apply Hincl, Hx.
    + specialize (IH (S i) downloaded (failed ++ [image])).
      destruct (downloadFrom fetch (S i) rest downloaded (failed ++ [image]))
        as [d f].
      destruct IH as (Hperm & Hsize & (f' & Hf & Hincl)).
      split.
      { etransitivity; [|exact Hperm].
        rewrite map_app. cbn [map].
        rewrite <- !app_assoc. reflexivity. }
      split; [exact Hsize|].
      exists (image :: f'). rewrite Hf, <- app_assoc.
      split; [reflexivity|]. intros x [<- | Hx]; [left; reflexivity|].
      right. apply Hincl, Hx.
Qed.

(** X12.  [batchDownload] puts every image in exactly one of the two
    lists: the URLs of [downloaded] followed by those of [failed] are a
    permutation of the URLs of the input, every downloaded image carries
    its file size, every failed image is an image of the input, and
    distinct input URLs give distinct downloaded URLs. *)
Theorem batchDownload_partitions (images : list EnhancedImageData) :
  let '(downloaded, failed) := batchDownload fetch images in
  Permutation (map url images) (map url downloaded ++ map url failed)
  /\ (List.length downloaded + List.length failed = List.length images)%nat
  /\ Forall (fun img => fileSize img <> None) downloaded
  /\ incl failed images
  /\ (NoDup (map url images) -> NoDup (map url downloaded)).
Proof.
  unfold batchDownload.
  pose proof (downloadFrom_spec images 0 [] []) as H.
  destruct (downloadFrom fetch 0 images [] []) as [d f].
  destruct H as (Hperm & Hsize & (f' & Hf & Hincl)).
  change (map url [] ++ map url [] ++ map url images)
    with (map url images) in Hperm.
  split; [exact Hperm|].
  split.
  { apply Permutation_length in Hperm.
    rewrite length_app, !length_map in Hperm. lia. }
  split; [apply Hsize; constructor|].
  split; [cbn [app] in Hf; subst f; exact Hincl|].
  intros Hnd.
  assert (Hnd' : NoDup (map url d ++ map url f)).
  { eapply Permutation_NoDup; [exact Hperm | exact Hnd]. }
  apply NoDup_app_remove_r in Hnd'. exact Hnd'.
Qed.

End BatchDownloadFacts.

End ScraperMoreSpec.

(** ** File names *)

Module FilenameSpec.
Import Js.

Lemma append_inv_head (p a b : string) :
  (p ++ a = p ++ b)%string -> a = b.
Proof.
  induction p as [|c p IH]; cbn [append]; [auto|].
  intros [= H]. apply IH. exact H.
Qed.

Lemma list_ascii_of_append (a b : string) :
  list_ascii_of_string (a ++ b)
  = (list_ascii_of_string a ++ list_ascii_of_string b)%list.
Proof.
  induction a as [|c a IH]; cbn; [reflexivity | rewrite IH; reflexivity].
Qed.

Lemma list_ascii_of_string_inj (a b : string) :
  list_ascii_of_string a = list_ascii_of_string b -> a = b.
Proof.
  intros H. rewrite <- (string_of_list_ascii_of_string a),
                    <- (string_of_list_ascii_of_string b), H. reflexivity.
Qed.

Lemma append_inv_tail (a b t : string) :
  (a ++ t = b ++ t)%string -> a = b.
Proof.
  intros H. apply list_ascii_of_string_inj.
  apply (f_equal list_ascii_of_string) in H.
  rewrite !list_ascii_of_append in H. apply app_inv_tail in H. exact H.
Qed.

(** Reading an index back from its decimal form. *)
Definition indexValue (s : string) : option nat :=
  option_map Nat.of_uint (NilEmpty.uint_of_string s).

Lemma indexValue_zeros (k : nat) (s : string) :
  indexValue (Download.repeatChar "0" k ++ s) = indexValue s.
Proof.
  unfold indexValue. induction k as [|k IH]; cbn [Download.repeatChar append].
  - reflexivity.
  - cbn [NilEmpty.uint_of_string]. rewrite <- IH.
    destruct (NilEmpty.uint_of_string (Download.repeatChar "0" k ++ s));
      reflexivity.
Qed.

Lemma indexValue_padded (n : nat) :
  indexValue (Download.padStart 3 "0" (Download.String_of_index n)) = Some n.
Proof.
  unfold Download.padStart. rewrite indexValue_zeros.
  unfold indexValue, Download.String_of_index.
  rewrite NilEmpty.usu. cbn [option_map]. rewrite Unsigned.of_to. reflexivity.
Qed.

Lemma padded_inj (i j : nat) :
  Download.padStart 3 "0" (Download.String_of_index i)
  = Download.padStart 3 "0" (Download.String_of_index j) -> i = j.
Proof.
  intros H. apply (f_equal indexValue) in H.
  rewrite !indexValue_padded in H. congruence.
Qed.

(** X13.  Within one batch the generated file names never collide: for
    the same image data, two indices give the same file name only if they
    are equal.  This holds for the names of [batchDownload] and, for each
    suffix, for the names of [processBatch]. *)
Theorem generateFilename_injective (imageData : Scraper.EnhancedImageData)
    (i j : nat) :
  (Download.generateFilename imageData i = Download.generateFilename imageData j
   -> i = j)
  /\ (forall suffix,
        Batch.generateFilename imageData i suffix
        = Batch.generateFilename imageData j suffix -> i = j).
Proof.
  split.
  - unfold Download.generateFilename. intros H.
    apply append_inv_head in H. apply append_inv_head in H.
    apply append_inv_tail in H. apply padded_inj. exact H.
  - intros suffix. unfold Batch.generateFilename. intros H.
    apply append_inv_head in H. apply append_inv_head in H.
    apply padded_inj.
    apply (append_inv_tail _ _
             ((match suffix with
               | EmptyString => EmptyString
               | _ => "_" ++ suffix
               end) ++ ".jpg")%string).
    exact H.
Qed.

(** The characters that a generated file name can contain. *)
Definition safeChar (c : ascii) : bool :=
  Download.isAlphanumeric c || Ascii.eqb c "_" || Ascii.eqb c ".".

Definition allSafe (s : string) : Prop :=
  Forall (fun c => safeChar c = true) (list_ascii_of_string s).

Lemma allSafe_append (a b : string) :
  allSafe a -> allSafe b -> allSafe (a ++ b).
Proof.
  unfold allSafe. rewrite list_ascii_of_append. intros Ha Hb.
  apply Forall_app. split; assumption.
Qed.

Lemma allSafe_sanitize (s : string) : allSafe (Download.sanitize s).
Proof.
  unfold allSafe. induction s as [|c s IH]; cbn; constructor; try exact IH.
  unfold safeChar. destruct (Download.isAlphanumeric c) eqn:E.
  - rewrite E. reflexivity.
  - reflexivity.
Qed.

Definition isDigit (c : ascii) : bool :=
  let n := nat_of_ascii c in (48 <=? n)%nat && (n <=? 57)%nat.

Lemma uint_of_char_digit (c : ascii) (d : option Decimal.uint) (d' : Decimal.uint) :
  uint_of_char c d = Some d' -> isDigit c = true.
Proof.
  unfold uint_of_char. destruct d as [d0|]; [|discriminate].
  destruct c as [[] [] [] [] [] [] [] []]; try discriminate; reflexivity.
Qed.

Lemma digits_of_uint_string (s : string) (d : Decimal.uint) :
  NilEmpty.uint_of_string s = Some d ->
  Forall (fun c => isDigit c = true) (list_ascii_of_string s).
Proof.
  revert d. induction s as [|c s IH]; intros d; cbn; [constructor|].
  intros H. constructor; [eapply uint_of_char_digit; exact H|].
  destruct (NilEmpty.uint_of_string s) as [d0|] eqn:E.
  - eapply IH. reflexivity.
  - destruct c as [[] [] [] [] [] [] [] []]; discriminate.
Qed.

Lemma digits_of_index (n : nat) :
  Forall (fun c => isDigit c = true)
         (list_ascii_of_string (Download.String_of_index n)).
Proof.
  eapply digits_of_uint_string. unfold Download.String_of_index.
  apply NilEmpty.usu.
Qed.

Lemma digits_of_padded (n : nat) :
  Forall (fun c => isDigit c = true)
         (list_ascii_of_string
            (Download.padStart 3 "0" (Download.String_of_index n))).
Proof.
  unfold Download.padStart. rewrite list_ascii_of_append.
  apply Forall_app. split; [|apply digits_of_index].
  induction (3 - String.length (Download.String_of_index n))%nat;
    cbn; constructor; [reflexivity | assumption].
Qed.

Lemma isDigit_safe (c : ascii) : isDigit c = true -> safeChar c = true.
Proof.
  unfold isDigit, safeChar, Download.isAlphanumeric. cbv zeta.
  intros ->. reflexivity.
Qed.

Lemma allSafe_padded (n : nat) :
  allSafe (Download.padStart 3 "0" (Download.String_of_index n)).
Proof.
  unfold allSafe. eapply Forall_impl; [|apply digits_of_padded].
  intros c Hc. apply isDigit_safe. exact Hc.
Qed.

(** X14.  Whatever the keyword, a file name generated by [batchDownload]
    contains only letters, digits, underscores and dots: no path
    separator and no space. *)
Theorem generateFilename_safe (imageData : Scraper.EnhancedImageData)
    (index : nat) :
  Forall (fun c => safeChar c = true)
         (list_ascii_of_string (Download.generateFilename imageData index)).
Proof.
  change (allSafe (Download.generateFilename imageData index)).
  unfold Download.generateFilename. cbv zeta.
  apply allSafe_append; [apply allSafe_sanitize|].
  apply allSafe_append; [repeat constructor|].
  apply allSafe_append; [apply allSafe_padded | repeat constructor].
Qed.

Lemma index_nonempty (n : nat) :
  Download.String_of_index n <> EmptyString.
Proof.
  intros H.
  pose proof (NilEmpty.usu (Nat.to_uint n)) as Hu.
  unfold Download.String_of_index in H. rewrite H in Hu.
  cbn in Hu. injection Hu as Hu.
  pose proof (Unsigned.of_to n) as Hn. rewrite <- Hu in Hn. cbn in Hn.
  subst n. discriminate.
Qed.

(** X15.  The name under which [processBatch] looks for a raw image
    (suffix [original]) is never a name under which [batchDownload]
    stores one. *)
Theorem original_name_never_downloaded
    (downloadedImage batchImage : Scraper.EnhancedImageData) (i j : nat) :
  Download.generateFilename downloadedImage i
  <> Batch.generateFilename batchImage j "original".
Proof.
  unfold Download.generateFilename, Batch.generateFilename. cbv zeta.
  intros H.
  pose proof (digits_of_padded i) as Hdigits.
  assert (Hp : list_ascii_of_string
                 (Download.padStart 3 "0" (Download.String_of_index i))
               <> []).
  { unfold Download.padStart. rewrite list_ascii_of_append. intros E.
    apply app_eq_nil in E. destruct E as [_ E].
    apply (@index_nonempty i). apply list_ascii_of_string_inj. exact E. }
  apply (f_equal list_ascii_of_string) in H.
  rewrite !list_ascii_of_append in H.
  set (p := list_ascii_of_string
              (Download.padStart 3 "0" (Download.String_of_index i))) in *.
  apply (f_equal (@List.rev ascii)) in H.
  rewrite !rev_app_distr in H.
  cbn [list_ascii_of_string List.rev app] in H.
  injection H as H.
  apply Forall_rev in Hdigits.
  destruct (List.rev p) as [|x l] eqn:E.
  - apply (f_equal (@List.rev ascii)) in E. rewrite rev_involutive in E.
    cbn in E. contradiction.
  - cbn [app] in H. injection H as Hx _. subst x.
    inversion Hdigits as [|? ? Hd _]. discriminate.
Qed.

End FilenameSpec.

(* ===================================================================== *)
(** ** AdvancedImageProcessor: resizing, [processImage], [processBatch],
       quality metrics                                                    *)
(* ===================================================================== *)

Module ProcessorMoreSpec.
Import Js Processor.
Open Scope Z_scope.

Lemma Math_round_inject_Z (z : Z) : Math_round (inject_Z z) = z.
Proof.
  unfold Math_round, Qfloor, Qplus, inject_Z. cbn.
  Z.div_mod_to_equations. lia.
Qed.

Lemma Math_round_le (x y : Q) : (x <= y)%Q -> Math_round x <= Math_round y.
Proof.
  intros H. unfold Math_round. apply Qfloor_resp_le.
  apply Qplus_le_compat; [exact H | apply Qle_refl].
Qed.

Lemma Math_round_comp (x y : Q) : (x == y)%Q -> Math_round x = Math_round y.
Proof.
  intros H. unfold Math_round. apply Qfloor_comp. rewrite H. reflexivity.
Qed.

Lemma Math_round_half (d : Z) : Math_round (inject_Z d / 2) = (d + 1) / 2.
Proof.
  unfold Math_round.
  rewrite (Qfloor_comp (inject_Z d / 2 + (1 # 2)) ((d + 1) # 2)).
  - reflexivity.
  - unfold Qeq, Qdiv, Qplus, Qmult, Qinv, inject_Z. simpl. lia.
Qed.

Lemma scale_back (a b : Z) :
  0 < b -> (inject_Z b * (inject_Z a / inject_Z b) == inject_Z a)%Q.
Proof.
  intros Hb. field. intros E.
  assert (H : (inject_Z 0 < inject_Z b)%Q) by (rewrite <- Zlt_Qlt; exact Hb).
  rewrite E in H. revert H. apply Qlt_irrefl.
Qed.

Lemma inject_Z_pos (b : Z) : 0 < b -> (0 < inject_Z b)%Q.
Proof. intros Hb. change 0%Q with (inject_Z 0). rewrite <- Zlt_Qlt. exact Hb. Qed.

Section Resize.
Variable options : ProcessingOptions.

(** X16.  With [preserveAspectRatio], for an image with positive
    dimensions and a positive target, [applySmartResize] queues a resize
    that covers the target (at least as wide and as high, with one of the
    two dimensions exact) followed by a crop of exactly the target size
    that lies inside the resized image. *)
Theorem applySmartResize_covers_target (pipeline : Pipeline)
    (md : Metadata.t) (w h : Z) :
  Metadata.width md = Some w ->
  Metadata.height md = Some h ->
  0 < w -> 0 < h ->
  0 < targetWidth options -> 0 < targetHeight options ->
  preserveAspectRatio options = true ->
  exists newWidth newHeight left top,
    applySmartResize options pipeline md
    = Returned
        (queue (queue pipeline (resize newWidth newHeight cover))
               (extract left top (targetWidth options) (targetHeight options)))
    /\ targetWidth options <= newWidth
    /\ targetHeight options <= newHeight
    /\ (newWidth = targetWidth options \/ newHeight = targetHeight options)
    /\ 0 <= left /\ left + targetWidth options <= newWidth
    /\ 0 <= top /\ top + targetHeight options <= newHeight.
Proof.
  intros Hw Hh Hwpos Hhpos Htw Hth Hkeep.
  unfold applySmartResize. rewrite Hw, Hh, Hkeep.
  destruct (Z.eqb_spec w 0) as [->|_]; [lia|].
  destruct (Z.eqb_spec h 0) as [->|_]; [lia|].
  cbn [orb].
  set (tw := targetWidth options) in *. set (th := targetHeight options) in *.
  set (scale := Math_max (inject_Z tw / inject_Z w) (inject_Z th / inject_Z h)).
  set (newWidth := Math_round (inject_Z w * scale)).
  set (newHeight := Math_round (inject_Z h * scale)).
  assert (HsX : (inject_Z tw / inject_Z w <= scale)%Q).
  { unfold scale, Math_max.
    destruct (Qle_bool _ _) eqn:E; [apply Qle_bool_iff; exact E|apply Qle_refl]. }
  assert (HsY : (inject_Z th / inject_Z h <= scale)%Q).
  { unfold scale, Math_max.
    destruct (Qle_bool (inject_Z tw / inject_Z w) (inject_Z th / inject_Z h))
      eqn:E; [apply Qle_refl|].
    apply Qlt_le_weak. apply Qnot_le_lt. intros H.
    apply Qle_bool_iff in H. congruence. }
  assert (Hnw : tw <= newWidth).
  { rewrite <- (Math_round_inject_Z tw). unfold newWidth.
    apply Math_round_le. rewrite <- (scale_back tw Hwpos).
    apply Qmult_le_l; [apply inject_Z_pos; exact Hwpos | exact HsX]. }
  assert (Hnh : th <= newHeight).
  { rewrite <- (Math_round_inject_Z th). unfold newHeight.
    apply Math_round_le. rewrite <- (scale_back th Hhpos).
    apply Qmult_le_l; [apply inject_Z_pos; exact Hhpos | exact HsY]. }
  assert (Hexact : newWidth = tw \/ newHeight = th).
  { unfold newWidth, newHeight, scale, Math_max.
    destruct (Qle_bool _ _).
    - right. rewrite (Math_round_comp (scale_back th Hhpos)).
      apply Math_round_inject_Z.
    - left. rewrite (Math_round_comp (scale_back tw Hwpos)).
      apply Math_round_inject_Z. }
  exists newWidth, newHeight,
    (Z.max 0 (Math_round (inject_Z (newWidth - tw) / 2))),
    (Z.max 0 (Math_round (inject_Z (newHeight - th) / 2))).
  split; [reflexivity|].
  rewrite !Math_round_half.
  split; [exact Hnw|]. split; [exact Hnh|]. split; [exact Hexact|].
  split; [lia|]. split; [Z.div_mod_to_equations; lia|].
  split; [lia|]. Z.div_mod_to_equations; lia.
Qed.

End Resize.

(** A 2000 x 1000 image and 64 x 64 thumbnails: resized to 128 x 64 and
    cropped at (32, 0). *)
Lemma applySmartResize_covers_target_witness :
  exists newWidth newHeight left top,
    applySmartResize ProcessorSpec.thumbnail_options
      {| input := "a.jpg"; operations := [] |}
      (Metadata.mk (Some 2000) (Some 1000))
    = Returned
        (queue (queue {| input := "a.jpg"; operations := [] |}
                      (resize newWidth newHeight cover))
               (extract left top 64 64))
    /\ 64 <= newWidth /\ 64 <= newHeight
    /\ (newWidth = 64 \/ newHeight = 64)
    /\ 0 <= left /\ left + 64 <= newWidth
    /\ 0 <= top /\ top + 64 <= newHeight.
Proof.
  apply (@applySmartResize_covers_target ProcessorSpec.thumbnail_options
           {| input := "a.jpg"; operations := [] |}
           (Metadata.mk (Some 2000) (Some 1000)) 2000 1000);
    reflexivity.
Defined.

Section ProcessImageMore.
Variable metadata : string -> outcome Metadata.t.
Variable toBuffer : Pipeline -> Jpeg.t -> outcome Buffer.
Variable writeError : string -> option Error.
Variable options : ProcessingOptions.

(** The dimensions that [applySmartResize] rejects: a missing or zero
    width or height. *)
Definition invalidDimensions (md : Metadata.t) : Prop :=
  Metadata.width md = None \/ Metadata.width md = Some 0
  \/ Metadata.height md = None \/ Metadata.height md = Some 0.

(** X17.  An existing input file whose metadata lacks a usable width or
    height makes [processImage] throw "Invalid image dimensions",
    whatever the encoder and the options are: nothing is encoded or
    written. *)
Theorem processImage_invalid_dimensions (fs : FileSystem)
    (startTime endTime : Z) (inputPath outputPath : string)
    (data : Buffer) (md : Metadata.t) :
  fs inputPath = Some data ->
  metadata inputPath = Returned md ->
  invalidDimensions md ->
  processImage metadata toBuffer writeError options
               fs startTime endTime inputPath outputPath
  = Threw (mkError true "Invalid image dimensions").
Proof.
  intros Hfile Hmd Hbad.
  unfold processImage, statSize. rewrite Hfile. cbn [bind].
  unfold preparePipeline. rewrite Hmd. cbn [bind].
  unfold applySmartResize.
  destruct Hbad as [H | [H | [H | H]]]; rewrite H.
  - reflexivity.
  - reflexivity.
  - rewrite Bool.orb_true_r. reflexivity.
  - rewrite Bool.orb_true_r. reflexivity.
Qed.

(** X18.  A successful [processImage] changes the file system at the
    output path only, and reports the paths it was given, the size the
    input file had before the call, and the difference of the two clock
    readings. *)
Theorem processImage_frame (fs fs' : FileSystem)
    (startTime endTime : Z) (inputPath outputPath : string)
    (info : ProcessedImageInfo) :
  processImage metadata toBuffer writeError options
               fs startTime endTime inputPath outputPath
  = Returned (fs', info) ->
  (forall p, p <> outputPath -> fs' p = fs p)
  /\ (exists data, fs inputPath = Some data
                   /\ originalSize info = byteLength data)
  /\ originalPath info = inputPath
  /\ processedPath info = outputPath
  /\ processingTime info = endTime - startTime
  /\ writeError outputPath = None.
Proof.
  unfold processImage, statSize.
  destruct (fs inputPath) as [data|] eqn:Hfile; cbn [bind]; [|discriminate].
  destruct (preparePipeline metadata options inputPath) as [pipeline|e];
    cbn [bind]; [|discriminate].
  destruct (snd (optimizeJpegQuality toBuffer options pipeline))
    as [[buffer q]|e]; cbn [bind]; [|discriminate].
  destruct (writeError outputPath) eqn:Hwrite; [discriminate|].
  unfold writeFile at 1. rewrite String.eqb_refl. cbn [bind].
  intros [= <- <-]. cbn.
  split.
  - intros p Hp. unfold writeFile.
    destruct (String.eqb_spec p outputPath); [contradiction | reflexivity].
  - split; [exists data; split; reflexivity|].
    repeat split.
Qed.

End ProcessImageMore.

Lemma processImage_invalid_dimensions_witness :
  processImage (fun _ => Returned (Metadata.mk (Some 800) None))
               (ProcessorSpec.linear_encoder 8)
               ProcessorSpec.no_write_error ProcessorSpec.thumbnail_options
               ProcessorSpec.raw_files 0 35
               "raw/female/student/a.jpg" "processed/female/student/a.jpg"
  = Threw (mkError true "Invalid image dimensions").
Proof.
  apply (@processImage_invalid_dimensions
           (fun _ => Returned (Metadata.mk (Some 800) None))
           (ProcessorSpec.linear_encoder 8)
           ProcessorSpec.no_write_error ProcessorSpec.thumbnail_options
           ProcessorSpec.raw_files 0 35
           "raw/female/student/a.jpg" "processed/female/student/a.jpg"
           (repeat Byte.xff 2000) (Metadata.mk (Some 800) None)).
  - reflexivity.
  - reflexivity.
  - right. right. left. reflexivity.
Defined.

Lemma processImage_frame_witness :
  exists fs' info,
    processImage (ProcessorSpec.metadata_of 2000 1000)
                 (ProcessorSpec.linear_encoder 8)
                 ProcessorSpec.no_write_error ProcessorSpec.thumbnail_options
                 ProcessorSpec.raw_files 0 35
                 "raw/female/student/a.jpg" "processed/female/student/a.jpg"
    = Returned (fs', info)
    /\ fs' "raw/female/student/a.jpg"%string
       = ProcessorSpec.raw_files "raw/female/student/a.jpg"%string
    /\ originalSize info = 2000.
Proof.
  eexists _, _. split; [vm_compute; reflexivity|].
  destruct (@processImage_frame
              (ProcessorSpec.metadata_of 2000 1000)
              (ProcessorSpec.linear_encoder 8)
              ProcessorSpec.no_write_error ProcessorSpec.thumbnail_options
              ProcessorSpec.raw_files _ 0 35
              "raw/female/student/a.jpg" "processed/female/student/a.jpg" _
              ltac:(vm_compute; reflexivity))
    as (Hframe & _).
  split.
  - exact (Hframe "raw/female/student/a.jpg"%string ltac:(discriminate)).
  - reflexivity.
Defined.

Section ProcessBatchFacts.
Variable metadata : string -> outcome Metadata.t.
Variable toBuffer : Pipeline -> Jpeg.t -> outcome Buffer.
Variable writeError : string -> option Error.
Variable options : ProcessingOptions.
Variable join : list string -> string.
Variable mkdirError : string -> option Error.
Variable clock : nat -> Z * Z.
Variable progressCallback : option (nat -> nat -> option Error).

(** The progress callback, if there is one, never throws. *)
Definition quietCallback : Prop :=
  forall callback, progressCallback = Some callback ->
                   forall processed total, callback processed total = None.

Definition onTarget (result : ProcessedImageInfo) : Prop :=
  width result = targetWidth options /\ height result = targetHeight options.

Lemma processFrom_spec (inputDir outputDir : string) (total : nat)
    (images : list Scraper.EnhancedImageData) :
  quietCallback ->
  forall (i : nat) (fs fs' : FileSystem)
         (success success' : list ProcessedImageInfo)
         (failed failed' : list Batch.Failure),
    Batch.processFrom metadata toBuffer writeError options join mkdirError
                      clock progressCallback inputDir outputDir total i
                      images fs success failed
    = (fs', success', failed') ->
    (List.length success' + List.length failed'
     = List.length success + List.length failed + List.length images)%nat
    /\ (Forall onTarget success -> Forall onTarget success')
    /\ (forall seen,
          Forall (fun f => In (Batch.image f) (seen ++ images)) failed ->
          Forall (fun f => In (Batch.image f) (seen ++ images)) failed').
Proof.
  intros Hquiet.
  induction images as [|imageData rest IH];
    intros i fs fs' success success' failed failed'.
  - cbn [Batch.processFrom]. intros [= <- <- <-].
    split; [cbn; lia|]. split; [tauto|]. intros seen H. exact H.
  - cbn [Batch.processFrom].
    set (inputPath := join [inputDir; Scraper.category imageData;
                            Scraper.subcategory imageData;
                            Batch.generateFilename imageData (i + 1)
                                                   "original"]).
    set (dir := join [outputDir; Scraper.category imageData;
                      Scraper.subcategory imageData]).
    set (outputPath := join [dir; Batch.generateFilename imageData (i + 1)
                                                         "processed"]).
    assert (Hfail : forall msg,
      Batch.processFrom metadata toBuffer writeError options join mkdirError
                        clock progressCallback inputDir outputDir total (S i)
                        rest fs success
                        (failed ++ [{| Batch.image := imageData;
                                       Batch.error := msg |}])
      = (fs', success', failed') ->
      (List.length success' + List.length failed'
       = List.length success + List.length failed
         + List.length (imageData :: rest))%nat
      /\ (Forall onTarget success -> Forall onTarget success')
      /\ (forall seen,
            Forall (fun f => In (Batch.image f) (seen ++ imageData :: rest))
                   failed ->
            Forall (fun f => In (Batch.image f) (seen ++ imageData :: rest))
                   failed')).
    { intros msg Hrun. destruct (IH _ _ _ _ _ _ _ Hrun) as (Hlen & Hok & Hin).
      split; [rewrite Hlen, length_app; cbn; lia|].
      split; [exact Hok|].
      intros seen Hfailed.
      specialize (Hin (seen ++ [imageData])).
      rewrite <- app_assoc in Hin. cbn [app] in Hin. apply Hin.
      apply Forall_app. split; [exact Hfailed|].
      constructor; [|constructor]. cbn [Batch.image].
      apply in_or_app. right. left. reflexivity. }
    destruct (mkdirError dir); [apply Hfail|].
    destruct (fs inputPath) as [data|]; [|apply Hfail].
    destruct (processImage metadata toBuffer writeError options fs
                           (fst (clock i)) (snd (clock i))
                           inputPath outputPath)
      as [[fs1 result]|e] eqn:Hrun; [|apply Hfail].
    assert (Hresult : onTarget result).
    { revert Hrun. unfold processImage.
      destruct (statSize fs inputPath); cbn [bind]; [|discriminate].
      destruct (preparePipeline metadata options inputPath) as [pipeline|];
        cbn [bind]; [|discriminate].
      destruct (snd (optimizeJpegQuality toBuffer options pipeline))
        as [[buffer q]|];
        cbn [bind]; [|discriminate].
      destruct (writeError outputPath); [discriminate|].
      destruct (statSize _ outputPath); cbn [bind]; [|discriminate].
      intros [= _ <-]. split; reflexivity. }
    assert (Hnext :
      Batch.processFrom metadata toBuffer writeError options join mkdirError
                        clock progressCallback inputDir outputDir total (S i)
                        rest fs1 (success ++ [result]) failed
      = (fs', success', failed') ->
      (List.length success' + List.length failed'
       = List.length success + List.length failed
         + List.length (imageData :: rest))%nat
      /\ (Forall onTarget success -> Forall onTarget success')
      /\ (forall seen,
            Forall (fun f => In (Batch.image f) (seen ++ imageData :: rest))
                   failed ->
            Forall (fun f => In (Batch.image f) (seen ++ imageData :: rest))
                   failed')).
    { intros Hrest. destruct (IH _ _ _ _ _ _ _ Hrest) as (Hlen & Hok & Hin).
      split; [rewrite Hlen, length_app; cbn; lia|].
      split.
      - intros Hs. apply Hok. apply Forall_app. split; [exact Hs|].
        constructor; [exact Hresult | constructor].
      - intros seen Hfailed.
        specialize (Hin (seen ++ [imageData])).
        rewrite <- app_assoc in Hin. cbn [app] in Hin. apply Hin.
        exact Hfailed. }
    destruct progressCallback as [callback|] eqn:Hcb; [|exact Hnext].
    rewrite (Hquiet callback Hcb). exact Hnext.
Qed.

(** X19.  When the progress callback does not throw, [processBatch]
    reports every image exactly once: the numbers of successes and of
    failures add up to the number of images, every success carries the
    configured target dimensions, and every failure names one of the
    images. *)
Theorem processBatch_partitions (fs fs' : FileSystem)
    (images : list Scraper.EnhancedImageData) (inputDir outputDir : string)
    (success : list ProcessedImageInfo) (failed : list Batch.Failure) :
  quietCallback ->
  Batch.processBatch metadata toBuffer writeError options join mkdirError
                     clock progressCallback fs images inputDir outputDir
  = Returned (fs', success, failed) ->
  (List.length success + List.length failed = List.length images)%nat
  /\ Forall onTarget success
  /\ Forall (fun f => In (Batch.image f) images) failed.
Proof.
  intros Hquiet. unfold Batch.processBatch.
  destruct (mkdirError outputDir); [discriminate|].
  intros [= Hrun].
  destruct (processFrom_spec _ _ _ _ Hquiet _ _ _ _ Hrun) as (Hlen & Hok & Hin).
  split; [cbn in Hlen; exact Hlen|].
  split; [apply Hok; constructor|].
  apply (Hin []). constructor.
Qed.

End ProcessBatchFacts.

(** Two images of which only the first has its input file on disk. *)
Definition batch_files : FileSystem :=
  fun p =>
    if String.eqb p
         "raw/female/student/anime_girl_student_character_sailor_001_original.jpg"
    then Some (repeat Byte.xff 2000) else None.

Definition batch_images : list Scraper.EnhancedImageData :=
  [ScraperSpec.girl_candidate; ScraperSpec.hanger_candidate].

Lemma processBatch_partitions_witness :
  exists fs' success failed,
    Batch.processBatch (ProcessorSpec.metadata_of 2000 1000)
      (ProcessorSpec.linear_encoder 8) ProcessorSpec.no_write_error
      ProcessorSpec.thumbnail_options (Js.join "/") (fun _ => None)
      (fun _ => (0, 35)) None batch_files batch_images "raw" "processed"
    = Returned (fs', success, failed)
    /\ List.length success = 1%nat /\ List.length failed = 1%nat
    /\ (List.length success + List.length failed)%nat = 2%nat.
Proof.
  eexists _, _, _. split; [vm_compute; reflexivity|].
  split; [reflexivity|]. split; [reflexivity|].
  destruct (@processBatch_partitions
              (ProcessorSpec.metadata_of 2000 1000)
              (ProcessorSpec.linear_encoder 8) ProcessorSpec.no_write_error
              ProcessorSpec.thumbnail_options (Js.join "/") (fun _ => None)
              (fun _ => (0, 35)) None batch_files _ batch_images
              "raw" "processed" _ _
              ltac:(intros callback H; discriminate H)
              ltac:(vm_compute; reflexivity))
    as (Hlen & _).
  exact Hlen.
Defined.

(** *** Quality metrics *)

Definition stdevNonNegative (ch : Batch.Channel) : Prop :=
  (0 <= Batch.orZero (Batch.stdev ch))%Q.

Lemma fold_stdev_nonneg (channels : list Batch.Channel) :
  Forall stdevNonNegative channels ->
  forall acc, (0 <= acc)%Q ->
    (0 <= fold_left (fun sum ch => sum + Batch.orZero (Batch.stdev ch))
                    channels acc)%Q.
Proof.
  induction 1 as [|ch rest Hch _ IH]; intros acc Hacc; cbn [fold_left].
  - exact Hacc.
  - apply IH. unfold stdevNonNegative in Hch. lra.
Qed.

Lemma avgStdDev_nonneg (channels : list Batch.Channel) :
  channels <> [] ->
  Forall stdevNonNegative channels ->
  (0 <= Batch.avgStdDev channels)%Q.
Proof.
  intros Hne Hall. unfold Batch.avgStdDev.
  apply Qle_shift_div_l.
  - apply inject_Z_pos. destruct channels; [contradiction | cbn; lia].
  - rewrite Qmult_0_l. apply fold_stdev_nonneg; [exact Hall | lra].
Qed.

Lemma Math_min_one (x y : Q) :
  (0 <= x)%Q -> (x <= y)%Q ->
  (0 <= Math_min x 1)%Q /\ (Math_min x 1 <= Math_min y 1)%Q
  /\ (Math_min y 1 <= 1)%Q.
Proof.
  intros Hx Hxy. unfold Math_min.
  destruct (Qle_bool x 1) eqn:Ex; destruct (Qle_bool y 1) eqn:Ey;
    try (apply Qle_bool_iff in Ex); try (apply Qle_bool_iff in Ey);
    repeat split; try lra.
  exfalso. assert (H : (x <= 1)%Q) by lra.
  apply Qle_bool_iff in H. congruence.
Qed.

(** X20.  For channel statistics with non-negative standard deviations
    the sharpness, contrast and saturation scores lie between 0 and 1,
    and the contrast never exceeds the sharpness. *)
Theorem quality_metrics_normalised (channels : list Batch.Channel) :
  Forall stdevNonNegative channels ->
  (0 <= Batch.calculateContrast channels)%Q
  /\ (Batch.calculateContrast channels <= Batch.calculateSharpness channels)%Q
  /\ (Batch.calculateSharpness channels <= 1)%Q
  /\ (0 <= Batch.calculateSaturation channels <= 1)%Q.
Proof.
  intros Hall.
  assert (Hfirst :
    (0 <= Batch.calculateContrast channels)%Q
    /\ (Batch.calculateContrast channels
        <= Batch.calculateSharpness channels)%Q
    /\ (Batch.calculateSharpness channels <= 1)%Q).
  { destruct channels as [|ch rest] eqn:E.
    - cbn. repeat split; lra.
    - unfold Batch.calculateContrast, Batch.calculateSharpness.
      rewrite <- E in *.
      assert (Hne : channels <> []) by (rewrite E; discriminate).
      pose proof (avgStdDev_nonneg Hne Hall) as Havg.
      destruct channels as [|c0 r0]; [contradiction|].
      set (a := Batch.avgStdDev (c0 :: r0)) in *.
      apply Math_min_one.
      + apply Qle_shift_div_l; lra.
      + apply Qle_shift_div_l; [lra|].
        setoid_replace (a / 128 * 50)%Q with (a * (50 # 128))%Q by field.
        assert ((50 # 128) <= 1)%Q by (unfold Qle; cbn; lia).
        nra. }
  destruct Hfirst as (H1 & H2 & H3).
  split; [exact H1|]. split; [exact H2|]. split; [exact H3|].
  unfold Batch.calculateSaturation.
  destruct channels as [|r [|g [|b rest]]]; try (split; lra).
  inversion Hall as [|? ? Hr Hall1]; subst.
  inversion Hall1 as [|? ? Hg Hall2]; subst.
  inversion Hall2 as [|? ? Hb _]; subst.
  unfold stdevNonNegative in Hr, Hg, Hb. cbv zeta.
  set (s := ((Batch.orZero (Batch.stdev r) + Batch.orZero (Batch.stdev g)
              + Batch.orZero (Batch.stdev b)) / 3 / 64)%Q).
  assert (Hs : (0 <= s)%Q).
  { unfold s. apply Qle_shift_div_l; [lra|]. rewrite Qmult_0_l.
    apply Qle_shift_div_l; lra. }
  destruct (Math_min_one Hs (Qle_refl s)) as (Ha & _ & Hb').
  split; assumption.
Qed.

Lemma quality_metrics_normalised_witness :
  (Batch.calculateContrast
     [Batch.mkChannel (Some (40 # 1)%Q) (Some (120 # 1)%Q); Batch.mkChannel None (Some (90 # 1)%Q);
      Batch.mkChannel (Some (80 # 1)%Q) None]
   <= Batch.calculateSharpness
        [Batch.mkChannel (Some (40 # 1)%Q) (Some (120 # 1)%Q); Batch.mkChannel None (Some (90 # 1)%Q);
         Batch.mkChannel (Some (80 # 1)%Q) None])%Q.
Proof.
  apply (@quality_metrics_normalised
           [Batch.mkChannel (Some (40 # 1)%Q) (Some (120 # 1)%Q);
            Batch.mkChannel None (Some (90 # 1)%Q);
            Batch.mkChannel (Some (80 # 1)%Q) None]).
  repeat constructor; unfold stdevNonNegative; cbn; unfold Qle; cbn; lia.
Defined.

End ProcessorMoreSpec.

(* ===================================================================== *)
(** ** AdvancedDatabaseManager: inserts, status updates, statistics       *)
(* ===================================================================== *)

Module DatabaseMoreSpec.
Import Js Database.
Open Scope Z_scope.

Section TableMore.
Variable Row : Type.
Variable original_url : Row -> string.





(** Row ids: positive, bounded by the AUTOINCREMENT sequence, and
    pairwise distinct. *)
Definition wellKeyed (db : Db Row) : Prop :=
  0 <= sequence db
  /\ Forall (fun s => 0 < rowid s <= sequence db) (rows db)
  /\ NoDup (map (@rowid Row) (rows db)).

Lemma runInsert_wellKeyed (fault : option Error) (mode : OnConflict)
    (db : Db Row) (r : Row) :
  wellKeyed db -> wellKeyed (fst (runInsert original_url fault mode db r)).
Proof.
  intros Hk.
  assert (Hskip : wellKeyed (skipRow db)).
  { destruct Hk as (Hseq & Hall & Hnd). unfold wellKeyed, skipRow.
    cbn [rows sequence]. split; [lia|]. split; [|exact Hnd].
    eapply Forall_impl; [|exact Hall]. cbn. intros s Hs. lia. }
  unfold runInsert. destruct fault as [e|].
  { destruct mode; [exact Hk|].
    destruct (isConstraintViolation e); [exact Hskip | exact Hk]. }
  destruct (hasUrl original_url db (original_url r)).
  - destruct mode; [exact Hk | exact Hskip].
  - destruct Hk as (Hseq & Hall & Hnd). cbn [fst]. unfold wellKeyed.
    cbn [rows sequence]. split; [lia|]. split.
    + apply Forall_app. split.
      * eapply Forall_impl; [|exact Hall]. cbn. intros s Hs. lia.
      * constructor; [cbn; lia | constructor].
    + rewrite map_app. cbn [map rowid].
      assert (HA : Add (sequence db + 1) (map (@rowid Row) (rows db))
                       (map (@rowid Row) (rows db) ++ [sequence db + 1])).
      { pose proof (Add_app (sequence db + 1)
                      (map (@rowid Row) (rows db)) []) as HA.
        rewrite app_nil_r in HA. exact HA. }
      apply (NoDup_Add HA). split; [exact Hnd|].
      intros Hin. apply in_map_iff in Hin. destruct Hin as (s & Hs & Hin).
      rewrite Forall_forall in Hall. specialize (Hall s Hin). lia.
Qed.

Lemma insertOne_wellKeyed (fault : option Error) (db : Db Row) (r : Row) :
  wellKeyed db -> wellKeyed (fst (insertOne original_url fault db r)).
Proof.
  intros Hk. unfold insertOne.
  pose proof (runInsert_wellKeyed fault Abort r Hk) as H.
  destruct (runInsert original_url fault Abort db r) as [db' [res|e]];
    cbn [fst] in *; [exact H|].
  destruct (isDuplicate e); exact H.
Qed.

Lemma insertEach_wellKeyed (faults : nat -> option Error)
    (records : list Row) :
  forall (i : nat) (db : Db Row) (results : list Z),
    wellKeyed db ->
    wellKeyed (fst (insertEach original_url faults i db records results)).
Proof.
  induction records as [|r records IH]; intros i db results Hk;
    cbn [insertEach].
  - exact Hk.
  - pose proof (runInsert_wellKeyed (faults i) Ignore r Hk) as H.
    destruct (runInsert original_url (faults i) Ignore db r)
      as [db' [res|e]]; cbn [fst] in *.
    + apply IH. exact H.
    + exact H.
Qed.

Lemma insertMany_wellKeyed (faults : nat -> option Error) (db : Db Row)
    (records : list Row) :
  wellKeyed db -> wellKeyed (fst (insertMany original_url faults db records)).
Proof.
  intros Hk. unfold insertMany.
  pose proof (insertEach_wellKeyed faults records 0 [] Hk) as H.
  destruct (insertEach original_url faults 0 db records [])
    as [db' [results|e]]; cbn [fst] in *.
  - exact H.
  - exact Hk.
Qed.

End TableMore.

(** X21.  Inserting a record whose URL is not stored yet appends exactly
    one row holding the bound parameters, returns the next value of the
    AUTOINCREMENT sequence as its id, makes [urlExists] true for that URL
    and leaves it as it was for every other URL. *)
Theorem insertImage_fresh_url (db : Advanced.Store)
    (record : Advanced.ImageRecord) :
  Advanced.urlExists db (Advanced.originalUrl record) = false ->
  exists db',
    Advanced.insertImage None db record = (db', Returned (sequence db + 1))
    /\ rows db'
       = rows db ++ [{| rowid := sequence db + 1;
                        columns := Advanced.params record |}]
    /\ Advanced.urlExists db' (Advanced.originalUrl record) = true
    /\ forall u, u <> Advanced.originalUrl record ->
                 Advanced.urlExists db' u = Advanced.urlExists db u.
Proof.
  intros Hnew. unfold Advanced.urlExists in Hnew.
  unfold Advanced.insertImage, insertOne, runInsert.
  change (Advanced.original_url (Advanced.params record))
    with (Advanced.originalUrl record).
  rewrite Hnew. cbn [lastID]. eexists. split; [reflexivity|].
  cbn [rows]. split; [reflexivity|].
  unfold Advanced.urlExists, hasUrl. cbn [rows]. split.
  - rewrite existsb_app. cbn. rewrite String.eqb_refl, Bool.orb_true_r.
    reflexivity.
  - intros u Hu. rewrite existsb_app. cbn.
    destruct (String.eqb_spec (Advanced.originalUrl record) u) as [E|_].
    + symmetry in E. contradiction.
    + rewrite !Bool.orb_false_r. reflexivity.
Qed.

Lemma insertImage_fresh_url_witness :
  exists db',
    Advanced.insertImage None DatabaseSpec.plain_store
      (DatabaseSpec.sample_record "https://cdn.example.com/e.jpg")
    = (db', Returned 3)
    /\ Advanced.urlExists db' "https://cdn.example.com/e.jpg" = true.
Proof.
  destruct (@insertImage_fresh_url DatabaseSpec.plain_store
              (DatabaseSpec.sample_record "https://cdn.example.com/e.jpg")
              ltac:(vm_compute; reflexivity))
    as (db' & Hrun & _ & Hex & _).
  exists db'. split; [exact Hrun | exact Hex].
Defined.

(** *** Operations of a client, status updates included *)

Inductive Operation : Type :=
| Insert (fault : option Error) (record : Advanced.ImageRecord)
| InsertBatch (faults : nat -> option Error)
              (records : list Advanced.ImageRecord)
| Update (fault : option Error) (imageId : Z) (status : ProcessingStatus)
         (processedAt : option Z).

Definition apply (db : Advanced.Store) (op : Operation) : Advanced.Store :=
  match op with
  | Insert fault record => fst (Advanced.insertImage fault db record)
  | InsertBatch faults records =>
      fst (Advanced.insertImagesBatch faults db records)
  | Update fault imageId status processedAt =>
      fst (AdvancedDatabaseManager.updateProcessingStatus
             fault db imageId status processedAt)
  end.

Definition run (db : Advanced.Store) (ops : list Operation)
  : Advanced.Store :=
  fold_left apply ops db.

Lemma updateRow_rowid (imageId : Z) (status : ProcessingStatus)
    (processedAt : option Z) (s : Stored Advanced.Row) :
  rowid (AdvancedDatabaseManager.updateRow imageId status processedAt s)
  = rowid s.
Proof.
  unfold AdvancedDatabaseManager.updateRow.
  destruct (rowid s =? imageId); reflexivity.
Qed.

Lemma updateRow_url (imageId : Z) (status : ProcessingStatus)
    (processedAt : option Z) (s : Stored Advanced.Row) :
  Advanced.original_url
    (columns (AdvancedDatabaseManager.updateRow imageId status processedAt s))
  = Advanced.original_url (columns s).
Proof.
  unfold AdvancedDatabaseManager.updateRow.
  destruct (rowid s =? imageId); reflexivity.
Qed.

Lemma update_storedUrls (fault : option Error) (db : Advanced.Store)
    (imageId : Z) (status : ProcessingStatus) (processedAt : option Z) :
  Advanced.storedUrls
    (fst (AdvancedDatabaseManager.updateProcessingStatus
            fault db imageId status processedAt))
  = Advanced.storedUrls db.
Proof.
  unfold AdvancedDatabaseManager.updateProcessingStatus.
  destruct fault; [reflexivity|]. cbn [fst].
  unfold Advanced.storedUrls. cbn [rows]. rewrite map_map.
  apply map_ext. intros s. apply updateRow_url.
Qed.

Lemma update_wellKeyed (fault : option Error) (db : Advanced.Store)
    (imageId : Z) (status : ProcessingStatus) (processedAt : option Z) :
  wellKeyed db ->
  wellKeyed (fst (AdvancedDatabaseManager.updateProcessingStatus
                    fault db imageId status processedAt)).
Proof.
  intros Hk. unfold AdvancedDatabaseManager.updateProcessingStatus.
  destruct fault; [exact Hk|]. cbn [fst].
  destruct Hk as (Hseq & Hall & Hnd). unfold wellKeyed. cbn [rows sequence].
  split; [exact Hseq|]. split.
  - apply Forall_map. eapply Forall_impl; [|exact Hall].
    intros s Hs. rewrite updateRow_rowid. exact Hs.
  - rewrite map_map.
    rewrite (map_ext _ (@rowid Advanced.Row)
               (updateRow_rowid imageId status processedAt)).
    exact Hnd.
Qed.

Lemma apply_invariant (db : Advanced.Store) (op : Operation) :
  wellKeyed db /\ NoDup (Advanced.storedUrls db) ->
  wellKeyed (apply db op) /\ NoDup (Advanced.storedUrls (apply db op)).
Proof.
  intros [Hk Hu]. destruct op as [fault record | faults records
                                 | fault imageId status processedAt];
    cbn [apply].
  - split; [apply insertOne_wellKeyed; exact Hk|].
    exact (@DatabaseSpec.perform_unique
             db (Advanced.CallInsertImage fault record) Hu).
  - split; [apply insertMany_wellKeyed; exact Hk|].
    exact (@DatabaseSpec.perform_unique
             db (Advanced.CallInsertImagesBatch faults records) Hu).
  - split; [apply update_wellKeyed; exact Hk|].
    rewrite update_storedUrls. exact Hu.
Qed.

(** X22.  Whatever inserts, batch inserts and status updates are made on
    a fresh store, and whatever failures the engine reports in between,
    the row ids stay positive, bounded by the AUTOINCREMENT sequence and
    pairwise distinct, and no two rows share a URL. *)
Theorem row_ids_distinct_and_positive (ops : list Operation) :
  let db := run (emptyDb Advanced.Row) ops in
  NoDup (map (@rowid Advanced.Row) (rows db))
  /\ Forall (fun s => 0 < rowid s <= sequence db) (rows db)
  /\ NoDup (Advanced.storedUrls db).
Proof.
  cbv zeta.
  assert (H : forall db,
             wellKeyed db /\ NoDup (Advanced.storedUrls db) ->
             wellKeyed (run db ops)
             /\ NoDup (Advanced.storedUrls (run db ops))).
  { unfold run. induction ops as [|op ops IH]; intros db Hdb;
      cbn [fold_left]; [exact Hdb|].
    apply IH. apply apply_invariant. exact Hdb. }
  destruct (H (emptyDb Advanced.Row)) as [(_ & Hall & Hnd) Hu].
  - split; [|constructor].
    split; [cbn; lia|]. split; constructor.
  - split; [exact Hnd|]. split; [exact Hall | exact Hu].
Qed.


(** A batch whose second statement meets a NOT NULL violation: the call
    returns, the record is not stored, and the sequence has moved on. *)
Example batch_skips_constraint_violation :
  let faults i :=
    if (i =? 1)%nat
    then Some (mkError true
                 "NOT NULL constraint failed: images.relevance_score")
    else None in
  let '(db', out) :=
    Advanced.insertImagesBatch faults DatabaseSpec.plain_store
      [ DatabaseSpec.sample_record "https://cdn.example.com/c.jpg";
        DatabaseSpec.sample_record "https://cdn.example.com/d.jpg" ] in
  out = Returned [3; 3]
  /\ Advanced.storedUrls db'
     = [ "https://cdn.example.com/a.jpg"; "https://cdn.example.com/b.jpg";
         "https://cdn.example.com/c.jpg" ]%string
  /\ sequence db' = 4.
Proof. vm_compute. repeat split. Qed.

(** *** Statistics *)

Lemma countWhere_acc (p : Stored Advanced.Row -> bool)
    (selected : list (Stored Advanced.Row)) :
  forall acc,
    fold_left (fun sum s => sum + (if p s then 1 else 0)) selected acc
    = acc + AdvancedDatabaseManager.countWhere p selected.
Proof.
  unfold AdvancedDatabaseManager.countWhere.
  induction selected as [|s rest IH]; intros acc; cbn [fold_left].
  - lia.
  - rewrite IH, (IH (0 + _)). lia.
Qed.

Lemma countWhere_cons (p : Stored Advanced.Row -> bool)
    (s : Stored Advanced.Row) (rest : list (Stored Advanced.Row)) :
  AdvancedDatabaseManager.countWhere p (s :: rest)
  = (if p s then 1 else 0) + AdvancedDatabaseManager.countWhere p rest.
Proof.
  unfold AdvancedDatabaseManager.countWhere at 1. cbn [fold_left].
  rewrite countWhere_acc. lia.
Qed.

(** X24.  In the statistics the four size classes partition the
    completed images: each count is non-negative and together they add up
    to [totalImages]. *)
Theorem sizeStats_partition (fault : option Error) (db : Advanced.Store)
    (stats : AdvancedDatabaseManager.CollectionStatistics) :
  AdvancedDatabaseManager.getCollectionStatistics fault db = Returned stats ->
  let sizes := AdvancedDatabaseManager.sizeStats stats in
  AdvancedDatabaseManager.under10KB sizes
  + AdvancedDatabaseManager.under25KB sizes
  + AdvancedDatabaseManager.under50KB sizes
  + AdvancedDatabaseManager.over50KB sizes
  = AdvancedDatabaseManager.totalImages stats
  /\ 0 <= AdvancedDatabaseManager.under10KB sizes
  /\ 0 <= AdvancedDatabaseManager.under25KB sizes
  /\ 0 <= AdvancedDatabaseManager.under50KB sizes
  /\ 0 <= AdvancedDatabaseManager.over50KB sizes.
Proof.
  unfold AdvancedDatabaseManager.getCollectionStatistics.
  destruct fault; [discriminate|]. intros [= <-]. cbv zeta.
  cbn [AdvancedDatabaseManager.sizeStats AdvancedDatabaseManager.totalImages
       AdvancedDatabaseManager.under10KB AdvancedDatabaseManager.under25KB
       AdvancedDatabaseManager.under50KB AdvancedDatabaseManager.over50KB].
  induction (filter AdvancedDatabaseManager.isCompleted (rows db))
    as [|s rest IH].
  - cbn. lia.
  - rewrite !countWhere_cons.
    change (List.length (s :: rest)) with (S (List.length rest)).
    rewrite Nat2Z.inj_succ.
    destruct (Z.ltb_spec (Advanced.file_size (columns s)) 10240);
      destruct (Z.geb_spec (Advanced.file_size (columns s)) 10240);
      destruct (Z.ltb_spec (Advanced.file_size (columns s)) 25600);
      destruct (Z.geb_spec (Advanced.file_size (columns s)) 25600);
      destruct (Z.ltb_spec (Advanced.file_size (columns s)) 51200);
      destruct (Z.geb_spec (Advanced.file_size (columns s)) 51200);
      cbn [andb]; lia.
Qed.

Lemma sizeStats_partition_witness :
  exists stats,
    AdvancedDatabaseManager.getCollectionStatistics None
      (run DatabaseSpec.sample_store
           [Update None 1 completed (Some 1700000001000)])
    = Returned stats
    /\ AdvancedDatabaseManager.totalImages stats = 1
    /\ AdvancedDatabaseManager.under50KB
         (AdvancedDatabaseManager.sizeStats stats) = 1.
Proof.
  eexists. split; [vm_compute; reflexivity|].
  split; [reflexivity|].
  destruct (@sizeStats_partition None
              (run DatabaseSpec.sample_store
                   [Update None 1 completed (Some 1700000001000)])
              _ ltac:(vm_compute; reflexivity)) as (_ & _ & _ & _ & _).
  reflexivity.
Defined.

Lemma runInsert_completed (fault : option Error) (mode : OnConflict)
    (db : Advanced.Store) (r : Advanced.Row) :
  Advanced.processing_status r <> completed ->
  filter AdvancedDatabaseManager.isCompleted
         (rows (fst (runInsert Advanced.original_url fault mode db r)))
  = filter AdvancedDatabaseManager.isCompleted (rows db).
Proof.
  intros Hr. unfold runInsert. destruct fault as [e|].
  { destruct mode; [reflexivity|].
    destruct (isConstraintViolation e); reflexivity. }
  destruct (hasUrl Advanced.original_url db (Advanced.original_url r)).
  - destruct mode; reflexivity.
  - cbn [fst rows]. rewrite filter_app. cbn [filter].
    unfold AdvancedDatabaseManager.isCompleted at 2. cbn [columns].
    destruct (Advanced.processing_status r);
      try (rewrite app_nil_r; reflexivity).
    contradiction.
Qed.

Lemma insertEach_completed (faults : nat -> option Error)
    (records : list Advanced.Row) :
  Forall (fun r => Advanced.processing_status r <> completed) records ->
  forall (i : nat) (db : Advanced.Store) (results : list Z),
    filter AdvancedDatabaseManager.isCompleted
           (rows (fst (insertEach Advanced.original_url faults i db
                                  records results)))
    = filter AdvancedDatabaseManager.isCompleted (rows db).
Proof.
  induction 1 as [|r records Hr _ IH]; intros i db results;
    cbn [insertEach]; [reflexivity|].
  pose proof (@runInsert_completed (faults i) Ignore db r Hr) as H.
  destruct (runInsert Advanced.original_url (faults i) Ignore db r)
    as [db' [res|e]]; cbn [fst] in *.
  - rewrite IH. exact H.
  - exact H.
Qed.

Lemma insertImagesBatch_completed (faults : nat -> option Error)
    (db : Advanced.Store) (records : list Advanced.ImageRecord) :
  Forall (fun record => Advanced.processingStatus record <> completed)
         records ->
  filter AdvancedDatabaseManager.isCompleted
         (rows (fst (Advanced.insertImagesBatch faults db records)))
  = filter AdvancedDatabaseManager.isCompleted (rows db).
Proof.
  intros Hall. unfold Advanced.insertImagesBatch, insertMany.
  assert (Hrows : Forall (fun r => Advanced.processing_status r <> completed)
                         (map Advanced.params records)).
  { apply Forall_map. exact Hall. }
  pose proof (insertEach_completed faults Hrows 0 db []) as H.
  destruct (insertEach Advanced.original_url faults 0 db
                       (map Advanced.params records) [])
    as [db' [results|e]]; cbn [fst] in *.
  - exact H.
  - reflexivity.
Qed.

Lemma insertImage_completed (fault : option Error) (db : Advanced.Store)
    (record : Advanced.ImageRecord) :
  Advanced.processingStatus record <> completed ->
  filter AdvancedDatabaseManager.isCompleted
         (rows (fst (Advanced.insertImage fault db record)))
  = filter AdvancedDatabaseManager.isCompleted (rows db).
Proof.
  intros Hr. unfold Advanced.insertImage, insertOne.
  pose proof (@runInsert_completed fault Abort db (Advanced.params record) Hr)
    as H.
  destruct (runInsert Advanced.original_url fault Abort db
                      (Advanced.params record)) as [db' [res|e]];
    cbn [fst] in *; [exact H|].
  destruct (isDuplicate e); exact H.
Qed.

(** The figures of the statistics that are taken over the completed
    rows. *)
Definition sameCompletedFigures
    (a b : AdvancedDatabaseManager.CollectionStatistics) : Prop :=
  AdvancedDatabaseManager.totalImages a
  = AdvancedDatabaseManager.totalImages b
  /\ AdvancedDatabaseManager.totalSizeBytes a
     = AdvancedDatabaseManager.totalSizeBytes b
  /\ AdvancedDatabaseManager.categoryStats a
     = AdvancedDatabaseManager.categoryStats b
  /\ AdvancedDatabaseManager.subcategoryStats a
     = AdvancedDatabaseManager.subcategoryStats b
  /\ AdvancedDatabaseManager.qualityDistribution a
     = AdvancedDatabaseManager.qualityDistribution b
  /\ AdvancedDatabaseManager.sizeStats a
     = AdvancedDatabaseManager.sizeStats b.

Lemma statistics_of_completed (db db' : Advanced.Store) :
  filter AdvancedDatabaseManager.isCompleted (rows db')
  = filter AdvancedDatabaseManager.isCompleted (rows db) ->
  exists before after,
    AdvancedDatabaseManager.getCollectionStatistics None db = Returned before
    /\ AdvancedDatabaseManager.getCollectionStatistics None db'
       = Returned after
    /\ sameCompletedFigures after before.
Proof.
  intros H. eexists _, _. split; [reflexivity|]. split; [reflexivity|].
  unfold sameCompletedFigures.
  cbn [AdvancedDatabaseManager.totalImages
       AdvancedDatabaseManager.totalSizeBytes
       AdvancedDatabaseManager.categoryStats
       AdvancedDatabaseManager.subcategoryStats
       AdvancedDatabaseManager.qualityDistribution
       AdvancedDatabaseManager.sizeStats].
  rewrite H. repeat split.
Qed.

(** X25.  Records whose status is not 'completed' (the 'pending' records
    that a collector saves) do not count: saving them with [insertImage]
    or [insertImagesBatch], whatever the engine does, leaves every figure
    that [getCollectionStatistics] takes over the completed rows as it
    was: [totalImages], [totalSizeBytes], the category, subcategory and
    quality counts and the size classes.  Only [processingStatusStats],
    which groups all rows, can change. *)
Theorem uncompleted_inserts_are_not_counted (db : Advanced.Store) :
  (forall (fault : option Error) (record : Advanced.ImageRecord),
      Advanced.processingStatus record <> completed ->
      exists before after,
        AdvancedDatabaseManager.getCollectionStatistics None db
        = Returned before
        /\ AdvancedDatabaseManager.getCollectionStatistics None
             (fst (Advanced.insertImage fault db record))
           = Returned after
        /\ sameCompletedFigures after before)
  /\ (forall (faults : nat -> option Error)
             (records : list Advanced.ImageRecord),
        Forall (fun record => Advanced.processingStatus record <> completed)
               records ->
        exists before after,
          AdvancedDatabaseManager.getCollectionStatistics None db
          = Returned before
          /\ AdvancedDatabaseManager.getCollectionStatistics None
               (fst (Advanced.insertImagesBatch faults db records))
             = Returned after
          /\ sameCompletedFigures after before).
Proof.
  split.
  - intros fault record Hr. apply statistics_of_completed.
    apply insertImage_completed. exact Hr.
  - intros faults records Hall. apply statistics_of_completed.
    apply insertImagesBatch_completed. exact Hall.
Qed.

(** Saving two pending records on a store without completed rows: the
    total stays 0 while the count of pending rows goes from 2 to 4. *)
Example pending_rows_show_in_status_counts :
  let db' :=
    fst (Advanced.insertImagesBatch (fun _ => None) DatabaseSpec.plain_store
           [ DatabaseSpec.sample_record "https://cdn.example.com/c.jpg";
             DatabaseSpec.sample_record "https://cdn.example.com/d.jpg" ]) in
  match AdvancedDatabaseManager.getCollectionStatistics
          None DatabaseSpec.plain_store,
        AdvancedDatabaseManager.getCollectionStatistics None db' with
  | Returned before, Returned after =>
      AdvancedDatabaseManager.totalImages before = 0
      /\ AdvancedDatabaseManager.totalImages after = 0
      /\ AdvancedDatabaseManager.processingStatusStats before pending
         = Some 2
      /\ AdvancedDatabaseManager.processingStatusStats after pending
         = Some 4
      /\ AdvancedDatabaseManager.processingStatusStats after completed
         = None
  | _, _ => False
  end.
Proof. vm_compute. repeat split. Qed.

Lemma update_unknown_id (imageId : Z) (status : ProcessingStatus)
    (processedAt : option Z) (stored : list (Stored Advanced.Row)) :
  ~ In imageId (map (@rowid Advanced.Row) stored) ->
  map (AdvancedDatabaseManager.updateRow imageId status processedAt) stored
  = stored.
Proof.
  induction stored as [|s rest IH]; intros Hnot; cbn [map]; [reflexivity|].
  rewrite IH by (intros H; apply Hnot; right; exact H).
  unfold AdvancedDatabaseManager.updateRow.
  destruct (Z.eqb_spec (rowid s) imageId) as [E|_]; [|reflexivity].
  exfalso. apply Hnot. left. exact E.
Qed.

Lemma update_completes_one (imageId : Z) (processedAt : option Z)
    (stored : list (Stored Advanced.Row)) (s : Stored Advanced.Row) :
  NoDup (map (@rowid Advanced.Row) stored) ->
  In s stored -> rowid s = imageId ->
  AdvancedDatabaseManager.isCompleted s = false ->
  List.length
    (filter AdvancedDatabaseManager.isCompleted
            (map (AdvancedDatabaseManager.updateRow imageId completed
                                                    processedAt) stored))
  = S (List.length (filter AdvancedDatabaseManager.isCompleted stored)).
Proof.
  induction stored as [|s0 rest IH]; intros Hnd Hin Hid Hs; [contradiction|].
  cbn [map rowid] in Hnd. inversion Hnd as [|? ? Hfresh Hnd']; subst.
  cbn [map filter]. destruct Hin as [-> | Hin].
  - rewrite update_unknown_id by exact Hfresh.
    unfold AdvancedDatabaseManager.updateRow. rewrite Z.eqb_refl.
    rewrite Hs. reflexivity.
  - assert (Hne : rowid s0 <> rowid s).
    { intros E. apply Hfresh. rewrite E. apply in_map. exact Hin. }
    unfold AdvancedDatabaseManager.updateRow at 1.
    destruct (Z.eqb_spec (rowid s0) (rowid s)) as [E|_]; [contradiction|].
    destruct (AdvancedDatabaseManager.isCompleted s0); cbn [List.length];
      rewrite (IH Hnd' Hin eq_refl Hs); reflexivity.
Qed.

(** X26.  Marking a stored, not yet completed image as 'completed' makes
    [totalImages] grow by exactly one, provided row ids are pairwise
    distinct (which they are in every reachable store); an update with an
    id that no row has changes nothing. *)
Theorem updateProcessingStatus_completes_one (db : Advanced.Store)
    (s : Stored Advanced.Row) (processedAt : option Z) :
  NoDup (map (@rowid Advanced.Row) (rows db)) ->
  In s (rows db) ->
  AdvancedDatabaseManager.isCompleted s = false ->
  exists db' before after,
    AdvancedDatabaseManager.updateProcessingStatus
      None db (rowid s) completed processedAt = (db', Returned tt)
    /\ AdvancedDatabaseManager.getCollectionStatistics None db
       = Returned before
    /\ AdvancedDatabaseManager.getCollectionStatistics None db'
       = Returned after
    /\ AdvancedDatabaseManager.totalImages after
       = AdvancedDatabaseManager.totalImages before + 1
    /\ Advanced.storedUrls db' = Advanced.storedUrls db.
Proof.
  intros Hnd Hin Hs.
  eexists _, _, _. split; [reflexivity|]. split; [reflexivity|].
  split; [reflexivity|].
  cbn [AdvancedDatabaseManager.totalImages rows]. split.
  - rewrite (@update_completes_one (rowid s) processedAt (rows db) s
               Hnd Hin eq_refl Hs).
    lia.
  - apply (update_storedUrls None db (rowid s) completed processedAt).
Qed.

Lemma updateProcessingStatus_completes_one_witness :
  exists db' before after,
    AdvancedDatabaseManager.updateProcessingStatus
      None DatabaseSpec.plain_store 2 completed (Some 1700000001000)
    = (db', Returned tt)
    /\ AdvancedDatabaseManager.getCollectionStatistics
         None DatabaseSpec.plain_store = Returned before
    /\ AdvancedDatabaseManager.getCollectionStatistics None db'
       = Returned after
    /\ AdvancedDatabaseManager.totalImages after
       = AdvancedDatabaseManager.totalImages before + 1
    /\ Advanced.storedUrls db' = Advanced.storedUrls DatabaseSpec.plain_store.
Proof.
  apply (@updateProcessingStatus_completes_one DatabaseSpec.plain_store
           {| rowid := 2;
              columns := Advanced.params
                           (DatabaseSpec.sample_record
                              "https://cdn.example.com/b.jpg") |}
           (Some 1700000001000)).
  - vm_compute. repeat constructor; cbn; intuition discriminate.
  - vm_compute. right. left. reflexivity.
  - reflexivity.
Defined.

End DatabaseMoreSpec.

(* ===================================================================== *)
(** ** ImageValidator: verdicts and directory reports                     *)
(* ===================================================================== *)

Module ValidatorSpec.
Import Js ImageValidator.

Lemma startsWith_app (p : string) :
  forall s t, startsWith s p = true -> startsWith (s ++ t) p = true.
Proof.
  induction p as [|c p IH]; intros s t.
  - intros _. destruct (s ++ t)%string; reflexivity.
  - destruct s as [|d s]; cbn [startsWith append]; [discriminate|].
    destruct (Ascii.eqb c d); [apply IH | discriminate].
Qed.

Lemma includes_unfold (s p : string) :
  includes s p
  = if startsWith s p then true
    else match s with
         | EmptyString => false
         | String _ s' => includes s' p
         end.
Proof. destruct s; reflexivity. Qed.

Lemma includes_app_l (p : string) :
  forall s t, includes s p = true -> includes (s ++ t) p = true.
Proof.
  induction s as [|c s IH]; intros t.
  - rewrite includes_unfold.
    destruct (startsWith "" p) eqn:E; [|discriminate].
    intros _. rewrite includes_unfold.
    rewrite (startsWith_app p "" t E). reflexivity.
  - rewrite includes_unfold.
    destruct (startsWith (String c s) p) eqn:E.
    + intros _. rewrite includes_unfold.
      rewrite (startsWith_app p (String c s) t E). reflexivity.
    + intros H. rewrite includes_unfold. cbn [append].
      destruct (startsWith (String c (s ++ t)) p); [reflexivity|].
      apply IH. exact H.
Qed.

Lemma includes_app_r (p : string) :
  forall s t, includes t p = true -> includes (s ++ t) p = true.
Proof.
  induction s as [|c s IH]; intros t H; [exact H|].
  rewrite includes_unfold. cbn [append].
  destruct (startsWith (String c (s ++ t)) p); [reflexivity|].
  apply IH. exact H.
Qed.

(** The text searched by the validator contains whatever the alt text
    contains. *)
Lemma allText_includes_alt (filename alt url p : string) :
  includes alt p = true -> includes (allText filename alt url) p = true.
Proof.
  intros H. unfold allText.
  apply includes_app_r. apply (includes_app_r p " ").
  apply includes_app_l. exact H.
Qed.

Lemma scraper_list_included (k : string) :
  In k Scraper.clothingOnlyKeywords -> In k clothingOnlyIndicators.
Proof.
  assert (H : forallb (fun k => existsb (String.eqb k) clothingOnlyIndicators)
                      Scraper.clothingOnlyKeywords = true)
    by (vm_compute; reflexivity).
  intros Hin. rewrite forallb_forall in H. specialize (H k Hin).
  apply existsb_exists in H. destruct H as (k' & Hin' & E).
  apply String.eqb_eq in E. subst k'. exact Hin'.
Qed.

Section Verdicts.
Variable basename : string -> string.
Variable extname : string -> string.
Variable pathJoin : list string -> string.
Variable existsSync : string -> bool.
Variable statSync : string -> outcome Z.

(** X27.  An alt text that the scraper's exclusion pass rejects as
    clothing-only is rejected by the validator as well, with confidence
    0.9, whatever the file, its name and its URL are: every phrase of the
    scraper's alt-text list is one of the validator's indicators. *)
Theorem scraper_alt_veto_is_rejected (imagePath alt : string)
    (u k : option string) :
  existsb (fun keyword => includes (toLowerCase alt) keyword)
          Scraper.clothingOnlyKeywords = true ->
  let result :=
    validateImageFile basename extname existsSync statSync imagePath
      {| altText := Some alt; url := u; keyword := k |} in
  isValid result = false /\ confidence result = 0.9%Q
  /\ exists indicator,
       In indicator clothingOnlyIndicators
       /\ reason result
          = ("Detected clothing-only image: " ++ dquote ++ indicator
             ++ dquote)%string.
Proof.
  intros Hveto. cbv zeta. unfold validateImageFile.
  cbn [altText url orEmpty].
  apply existsb_exists in Hveto. destruct Hveto as (kw & Hin & Hinc).
  set (text := allText (toLowerCase (basename imagePath)) (toLowerCase alt)
                       (toLowerCase (orEmpty u))).
  unfold checkClothingOnly. fold text.
  destruct (find (fun indicator => includes text indicator)
                 clothingOnlyIndicators) as [indicator|] eqn:Hfind.
  - cbn [isValid negb confidence reason].
    split; [reflexivity|]. split; [reflexivity|].
    exists indicator. split; [|reflexivity].
    apply find_some in Hfind. apply Hfind.
  - exfalso.
    pose proof (find_none _ _ Hfind kw (@scraper_list_included kw Hin)) as Hno.
    cbn beta in Hno. unfold text in Hno.
    rewrite (@allText_includes_alt _ _ _ _ Hinc) in Hno. discriminate.
Qed.

(** X28.  A verdict of [validateImageFile] is valid only if the searched
    text has no clothing-only indicator and at least one character
    indicator, and the file exists, can be read, has at least 1000 bytes
    and one of the five image extensions; a valid verdict always carries
    confidence 0.85. *)
Theorem valid_verdict_requirements (imagePath : string)
    (metadata : ImageMetadata) :
  let result :=
    validateImageFile basename extname existsSync statSync imagePath
                      metadata in
  let text := allText (toLowerCase (basename imagePath))
                      (toLowerCase (orEmpty (altText metadata)))
                      (toLowerCase (orEmpty (url metadata))) in
  isValid result = true ->
  existsb (fun indicator => includes text indicator) clothingOnlyIndicators
  = false
  /\ existsb (fun indicator => includes text indicator) characterIndicators
     = true
  /\ existsSync imagePath = true
  /\ (exists size, statSync imagePath = Returned size /\ (1000 <= size)%Z)
  /\ In (toLowerCase (extname imagePath)) validExtensions
  /\ confidence result = 0.85%Q.
Proof.
  cbv zeta. unfold validateImageFile.
  set (text := allText (toLowerCase (basename imagePath))
                       (toLowerCase (orEmpty (altText metadata)))
                       (toLowerCase (orEmpty (url metadata)))).
  unfold checkClothingOnly. fold text.
  destruct (find (fun indicator => includes text indicator)
                 clothingOnlyIndicators) as [indicator|] eqn:Hfind;
    cbn [isValid negb]; [discriminate|].
  unfold checkCharacterPresence. fold text.
  destruct (filter (fun indicator => includes text indicator)
                   characterIndicators) as [|m matched] eqn:Hfilter;
    cbn [List.length isValid negb]; [discriminate|].
  unfold checkFileIntegrity.
  destruct (existsSync imagePath); cbn [negb isValid]; [|discriminate].
  destruct (statSync imagePath) as [size|e]; cbn [isValid negb];
    [|discriminate].
  destruct (Z.ltb_spec size 1000); cbn [isValid negb]; [discriminate|].
  destruct (existsb (String.eqb (toLowerCase (extname imagePath)))
                    validExtensions) eqn:Hext;
    cbn [negb isValid]; [|discriminate].
  intros _. split.
  - destruct (existsb (fun indicator => includes text indicator)
                      clothingOnlyIndicators) eqn:E; [|reflexivity].
    apply existsb_exists in E. destruct E as (x & Hx & Hinc).
    pose proof (find_none _ _ Hfind x Hx) as Hno. cbn beta in Hno.
    congruence.
  - split.
    + apply existsb_exists. exists m.
      assert (Hm : In m (filter (fun indicator => includes text indicator)
                                characterIndicators))
        by (rewrite Hfilter; left; reflexivity).
      apply filter_In in Hm. exact Hm.
    + split; [reflexivity|]. split; [exists size; split; [reflexivity|lia]|].
      split; [|reflexivity].
      apply existsb_exists in Hext. destruct Hext as (x & Hx & E).
      apply String.eqb_eq in E. rewrite E. exact Hx.
Qed.

Definition rejected (entry : string * ValidationResult) : bool :=
  negb (isValid (snd entry)).

Definition report (entry : string * ValidationResult) : string * string :=
  (fst entry, reason (snd entry)).

Lemma validateEach_spec (dirPath : string) (imageFiles : list string) :
  forall results final : DirectoryReport,
    validateEach basename extname pathJoin existsSync statSync
                 dirPath imageFiles results = final ->
    totalImages final = totalImages results
    /\ (validImages final + Z.of_nat (List.length (invalidImages final))
        = validImages results
          + Z.of_nat (List.length (invalidImages results))
          + Z.of_nat (List.length imageFiles))%Z
    /\ (List.length (validationResults final)
        = List.length (validationResults results) + List.length imageFiles)%nat
    /\ (invalidImages results
        = map report (filter rejected (validationResults results)) ->
        invalidImages final
        = map report (filter rejected (validationResults final))).
Proof.
  induction imageFiles as [|file rest IH]; intros results final;
    cbn [validateEach].
  - intros <-. split; [reflexivity|]. split; [cbn; lia|].
    split; [cbn; lia|]. tauto.
  - intros Hrun. apply IH in Hrun. cbn [totalImages validImages invalidImages
                                        validationResults] in Hrun.
    destruct Hrun as (Htotal & Hcount & Hlen & Hinv).
    set (filePath := pathJoin [dirPath; file]) in *.
    set (verdict := validateImageFile basename extname existsSync statSync
                      filePath
                      {| altText := Some file; url := Some filePath;
                         keyword := None |}) in *.
    split; [exact Htotal|]. split.
    + rewrite Hcount. destruct (isValid verdict).
      * cbn [List.length]. lia.
      * rewrite length_app. cbn [List.length]. lia.
    + split.
      * rewrite Hlen, length_app. cbn [List.length]. lia.
      * intros Hbefore. apply Hinv.
        rewrite filter_app, map_app. cbn [filter].
        unfold rejected at 2. cbn [snd].
        destruct (isValid verdict); cbn [negb map].
        -- rewrite app_nil_r. exact Hbefore.
        -- rewrite Hbefore. reflexivity.
Qed.

(** X29.  In the report of [validateDirectory] every image file of the
    directory is counted once: the valid and the invalid images add up to
    [totalImages], there is one validation result per image, and the
    invalid images are exactly the results that are not valid, in
    order, with their reasons. *)
Theorem validateDirectory_partition
    (readdirSync : string -> outcome (list string)) (dirPath : string)
    (final : DirectoryReport) :
  validateDirectory basename extname pathJoin existsSync statSync
                    readdirSync dirPath = Returned final ->
  (validImages final + Z.of_nat (List.length (invalidImages final))
   = totalImages final)%Z
  /\ Z.of_nat (List.length (validationResults final)) = totalImages final
  /\ invalidImages final
     = map report (filter rejected (validationResults final)).
Proof.
  unfold validateDirectory.
  destruct (existsSync dirPath); cbn [negb].
  - destruct (readdirSync dirPath) as [files|e]; cbn [bind]; [|discriminate].
    intros [= Hrun]. apply validateEach_spec in Hrun.
    cbn [totalImages validImages invalidImages validationResults] in Hrun.
    destruct Hrun as (Htotal & Hcount & Hlen & Hinv).
    split; [rewrite Hcount, Htotal; cbn; lia|].
    split; [rewrite Hlen, Htotal; cbn; reflexivity|].
    apply Hinv. reflexivity.
  - intros [= <-]. cbn. repeat split.
Qed.

End Verdicts.

(** *** A concrete directory *)

Definition sample_basename (p : string) : string :=
  if String.eqb p "raw/female/student/anime_girl_001.jpg"
  then "anime_girl_001.jpg"
  else if String.eqb p "raw/female/student/uniform_pattern_002.jpg"
       then "uniform_pattern_002.jpg" else p.

Definition sample_extname (p : string) : string :=
  if includes p "notes" then ".txt" else ".jpg".

Definition sample_stat (p : string) : outcome Z := Returned 20480%Z.

Definition sample_readdir (p : string) : outcome (list string) :=
  Returned [ "anime_girl_001.jpg"; "notes.txt";
             "uniform_pattern_002.jpg" ]%string.

Lemma scraper_alt_veto_is_rejected_witness :
  isValid (validateImageFile sample_basename sample_extname
             (fun _ => true) sample_stat
             "raw/female/student/anime_girl_001.jpg"
             {| altText := Some "Anime girl uniform on a Mannequin"%string;
                url := None; keyword := None |})
  = false.
Proof.
  apply (@scraper_alt_veto_is_rejected sample_basename sample_extname
           (fun _ => true) sample_stat
           "raw/female/student/anime_girl_001.jpg"
           "Anime girl uniform on a Mannequin" None None).
  vm_compute. reflexivity.
Defined.

Lemma valid_verdict_requirements_witness :
  confidence (validateImageFile sample_basename sample_extname
                (fun _ => true) sample_stat
                "raw/female/student/anime_girl_001.jpg"
                {| altText := Some "Anime girl"%string;
                   url := None; keyword := None |})
  = 0.85%Q.
Proof.
  apply (@valid_verdict_requirements sample_basename sample_extname
           (fun _ => true) sample_stat
           "raw/female/student/anime_girl_001.jpg"
           {| altText := Some "Anime girl"%string;
              url := None; keyword := None |}).
  vm_compute. reflexivity.
Defined.

Lemma validateDirectory_partition_witness :
  exists final,
    validateDirectory sample_basename sample_extname (Js.join "/")
                      (fun _ => true) sample_stat sample_readdir
                      "raw/female/student"
    = Returned final
    /\ totalImages final = 2%Z /\ validImages final = 1%Z
    /\ (validImages final + Z.of_nat (List.length (invalidImages final))
        = totalImages final)%Z.
Proof.
  eexists. split; [vm_compute; reflexivity|].
  split; [reflexivity|]. split; [reflexivity|].
  destruct (@validateDirectory_partition sample_basename sample_extname
              (Js.join "/") (fun _ => true) sample_stat sample_readdir
              "raw/female/student" _ ltac:(vm_compute; reflexivity))
    as (Hcount & _).
  exact Hcount.
Defined.

End ValidatorSpec.
